(** * Barcode reader: providers, provider registry, scan engine, benchmark runner

    A shallow embedding of the TypeScript sources

    - [scanners/IBarcodeProvider.ts], [scanners/providers/*.ts]
    - [scanners/ProviderRegistry.ts]
    - [scanner.ts] (class [BarcodeScanner], provider-based version)
    - [benchmark.ts] (class [BenchmarkRunner])
    - [logger.ts] (class [Logger])

    JavaScript objects live in an explicit heap and are named by references,
    so that two variables holding the same provider instance alias each other.
    Asynchronous functions are run to completion one after the other (the
    program is single threaded and every call is awaited), in a state monad
    whose results are JavaScript completions: a normal value or a thrown
    [Error], identified by its message.  In these classes the logger is
    purely observational and its calls are left out; the [Logger] class
    itself is modelled at the end, on a world of its own. *)

From Stdlib Require Import String QArith SpecFloat.
From stdpp Require Import strings list pretty.

Open Scope string_scope.
Open Scope list_scope.

(** ** JavaScript values *)

(** The outcome of evaluating a call: a value, or a thrown [Error] with its
    [message]. *)
Inductive completion (A : Type) : Type :=
| Normal (value : A)
| Throw (message : string).
Arguments Normal {A} value.
Arguments Throw {A} message.

(** Truthiness of a [string | null] value: [null] and the empty string are
    falsy. *)
Definition truthy (s : string) : bool := negb (s =? "").

Definition truthy_result (r : option string) : bool :=
  match r with
  | Some s => truthy s
  | None => false
  end.

(** ** The browser and the third-party decoders

    The decoders are opaque: a [Bitmap] records what each of them answers on
    one picture. *)

Record DetectedBarcode := { rawValue : string; format : string }.

Record BarcodeResultItem := { formatString : string; item_text : string }.

Record Bitmap := {
  (* BarcodeDetector.detect(image) *)
  detect : completion (list DetectedBarcode);
  (* BrowserMultiFormatReader.decodeFromCanvas(canvas), then getText();
     the reader throws when it finds no code *)
  decodeFromCanvas : completion string;
  (* readBarcodes(imageData, readerOptions): the texts of the results *)
  readBarcodes : completion (list string);
  (* CaptureVisionRouter.capture(canvas).barcodeResultItems *)
  capture : completion (list BarcodeResultItem);
}.

Record HTMLVideoElement := {
  videoWidth : N;
  videoHeight : N;
  videoFrame : Bitmap;
}.

(** The argument of [scanImage]: [HTMLImageElement | HTMLCanvasElement]. *)
Inductive ImageSource :=
| HTMLImageElement (picture : Bitmap)
| HTMLCanvasElement (picture : Bitmap).

Definition picture_of (image : ImageSource) : Bitmap :=
  match image with
  | HTMLImageElement b => b
  | HTMLCanvasElement b => b
  end.

Record Browser := {
  (* canvas.getContext('2d') returns a context (it returns null otherwise) *)
  canvas2d : bool;
  (* 'BarcodeDetector' in window *)
  hasBarcodeDetector : bool;
  (* new window.BarcodeDetector({formats}) *)
  newBarcodeDetector : completion unit;
  (* new BrowserMultiFormatReader() *)
  newBrowserMultiFormatReader : completion unit;
  (* LicenseManager.initLicense; CoreModule.loadWasm;
     CaptureVisionRouter.createInstance() *)
  createInstance : completion unit;
  (* createImageBitmap(video), drawn to an OffscreenCanvas and read back *)
  createImageBitmap : completion unit;
  (* import(path) of a provider module *)
  importModule : string -> completion unit;
}.

(** The private field of a provider instance ([detector], [codeReader],
    [readFn], [reader]): a decoder handle or [null]. *)
Inductive handle := EngineHandle.

(** ** IBarcodeProvider

    A class implementing the interface: its methods as functions of the
    private field.  [destroy] is an optional member. *)
Record IBarcodeProvider := {
  name : string;
  init : option handle -> completion unit * option handle;
  scanVideoFrame : option handle -> HTMLVideoElement -> completion (option string);
  scanImage : option handle -> ImageSource -> completion (option string);
  destroy : option (option handle -> option handle);
}.

Module BarcodeDetectorProvider.

Definition init (B : Browser) (detector : option handle)
  : completion unit * option handle :=
  if negb (hasBarcodeDetector B) then
    (Throw "BarcodeDetector API not supported in this browser", detector)
  else
    match newBarcodeDetector B with
    | Normal _ => (Normal tt, Some EngineHandle)
    | Throw e => (Throw e, detector)
    end.

Definition first_rawValue (r : completion (list DetectedBarcode)) : option string :=
  match r with
  | Normal (b :: _) => Some (rawValue b)
  | Normal [] => None
  | Throw _ => None
  end.

Definition scanVideoFrame (detector : option handle) (video : HTMLVideoElement)
  : completion (option string) :=
  match detector with
  | None => Throw "BarcodeDetector provider not initialized"
  | Some _ =>
      if (videoWidth video =? 0)%N || (videoHeight video =? 0)%N then Normal None
      else Normal (first_rawValue (detect (videoFrame video)))
  end.

Definition scanImage (detector : option handle) (image : ImageSource)
  : completion (option string) :=
  match detector with
  | None => Throw "BarcodeDetector provider not initialized"
  | Some _ => Normal (first_rawValue (detect (picture_of image)))
  end.

Definition destroy (detector : option handle) : option handle := None.

End BarcodeDetectorProvider.

Module ZXingProvider.

Definition init (B : Browser) (codeReader : option handle)
  : completion unit * option handle :=
  match newBrowserMultiFormatReader B with
  | Normal _ => (Normal tt, Some EngineHandle)
  | Throw e => (Throw e, codeReader)
  end.

(* try { return (await decodeFromCanvas(canvas)).getText() } catch { return null } *)
Definition decoded_text (r : completion string) : option string :=
  match r with
  | Normal t => Some t
  | Throw _ => None
  end.

Definition scanVideoFrame (B : Browser) (codeReader : option handle)
    (video : HTMLVideoElement) : completion (option string) :=
  match codeReader with
  | None => Throw "ZXing provider not initialized"
  | Some _ =>
      if (videoWidth video =? 0)%N || (videoHeight video =? 0)%N then Normal None
      else if negb (canvas2d B) then Throw "Cannot get canvas context"
      else Normal (decoded_text (decodeFromCanvas (videoFrame video)))
  end.

Definition scanImage (B : Browser) (codeReader : option handle)
    (image : ImageSource) : completion (option string) :=
  match codeReader with
  | None => Throw "ZXing provider not initialized"
  | Some _ =>
      match image with
      | HTMLCanvasElement b => Normal (decoded_text (decodeFromCanvas b))
      | HTMLImageElement b =>
          (* the missing context is thrown and caught inside the try block *)
          if negb (canvas2d B) then Normal None
          else Normal (decoded_text (decodeFromCanvas b))
      end
  end.

Definition destroy (codeReader : option handle) : option handle := None.

End ZXingProvider.

Module ZXingWasmProvider.

Definition init (readFn : option handle) : completion unit * option handle :=
  (Normal tt, Some EngineHandle).

Definition scanVideoFrame (B : Browser) (readFn : option handle)
    (video : HTMLVideoElement) : completion (option string) :=
  match readFn with
  | None => Throw "ZXing-WASM not initialised"
  | Some _ =>
      match createImageBitmap B with
      | Throw e => Throw e
      | Normal _ =>
          (* res ? res[0].text : null, where reading .text of a missing
             first result throws inside the try block *)
          match readBarcodes (videoFrame video) with
          | Normal (t :: _) => Normal (Some t)
          | Normal [] => Normal None
          | Throw _ => Normal None
          end
      end
  end.

Definition scanImage (B : Browser) (readFn : option handle)
    (image : ImageSource) : completion (option string) :=
  match readFn with
  | None => Throw "ZXing-WASM not initialised"
  | Some _ =>
      if negb (canvas2d B) then
        match image with
        | HTMLImageElement _ => Throw "Cannot get canvas context"
        | HTMLCanvasElement _ =>
            Throw "Cannot read properties of null (reading 'getImageData')"
        end
      else
        (* res[0]?.text || null *)
        match readBarcodes (picture_of image) with
        | Normal (t :: _) => Normal (if truthy t then Some t else None)
        | Normal [] => Normal None
        | Throw _ => Normal None
        end
  end.

Definition destroy (readFn : option handle) : option handle := None.

End ZXingWasmProvider.

Module DynamsoftProvider.

Definition init (B : Browser) (reader : option handle)
  : completion unit * option handle :=
  match createInstance B with
  | Normal _ => (Normal tt, Some EngineHandle)
  | Throw e => (Throw e, reader)
  end.

Definition find_format (f : string) (items : list BarcodeResultItem)
  : option BarcodeResultItem :=
  List.find (fun item => formatString item =? f) items.

Definition decodeCanvas (reader : option handle) (b : Bitmap)
  : completion (option string) :=
  match reader with
  | None => Throw "Dynamsoft provider not initialised"
  | Some _ =>
      match capture b with
      | Throw e => Throw e
      | Normal items =>
          match find_format "PDF417" items with
          | Some pdf417Result => Normal (Some (item_text pdf417Result))
          | None =>
              match find_format "QRCode" items with
              | Some qrResult => Normal (Some (item_text qrResult))
              | None => Normal None
              end
          end
      end
  end.

Definition scanVideoFrame (B : Browser) (reader : option handle)
    (video : HTMLVideoElement) : completion (option string) :=
  match reader with
  | None => Throw "Dynamsoft provider not initialised"
  | Some _ =>
      if (videoWidth video =? 0)%N then Normal None
      else if negb (canvas2d B) then Throw "Cannot get canvas context"
      else decodeCanvas reader (videoFrame video)
  end.

(* The canvas is prepared first; the reader is only looked at inside
   decodeCanvas. *)
Definition scanImage (B : Browser) (reader : option handle)
    (image : ImageSource) : completion (option string) :=
  match image with
  | HTMLCanvasElement b => decodeCanvas reader b
  | HTMLImageElement b =>
      if negb (canvas2d B) then Throw "Cannot get canvas context"
      else decodeCanvas reader b
  end.

Definition destroy (reader : option handle) : option handle := None.

End DynamsoftProvider.

(** The four classes as implementations of the interface. *)
Definition BarcodeDetectorProvider_class (B : Browser) : IBarcodeProvider :=
  {| name := "BarcodeDetector";
     init := BarcodeDetectorProvider.init B;
     scanVideoFrame := BarcodeDetectorProvider.scanVideoFrame;
     scanImage := BarcodeDetectorProvider.scanImage;
     destroy := Some BarcodeDetectorProvider.destroy |}.

Definition ZXingProvider_class (B : Browser) : IBarcodeProvider :=
  {| name := "ZXing";
     init := ZXingProvider.init B;
     scanVideoFrame := ZXingProvider.scanVideoFrame B;
     scanImage := ZXingProvider.scanImage B;
     destroy := Some ZXingProvider.destroy |}.

Definition ZXingWasmProvider_class (B : Browser) : IBarcodeProvider :=
  {| name := "ZXing-WASM";
     init := ZXingWasmProvider.init;
     scanVideoFrame := ZXingWasmProvider.scanVideoFrame B;
     scanImage := ZXingWasmProvider.scanImage B;
     destroy := Some ZXingWasmProvider.destroy |}.

Definition DynamsoftProvider_class (B : Browser) : IBarcodeProvider :=
  {| name := "Dynamsoft";
     init := DynamsoftProvider.init B;
     scanVideoFrame := DynamsoftProvider.scanVideoFrame B;
     scanImage := DynamsoftProvider.scanImage B;
     destroy := Some DynamsoftProvider.destroy |}.

(** The message each class throws from a scan on an instance whose handle is
    [null]. *)
Definition notInitializedMessages : list string :=
  [ "ZXing provider not initialized";
    "BarcodeDetector provider not initialized";
    "ZXing-WASM not initialised";
    "Dynamsoft provider not initialised" ].

Definition isNotInitializedError (message : string) : bool :=
  existsb (String.eqb message) notInitializedMessages.

(** The classes the registry's catalog can load, in registration order. *)
Definition catalogClasses (B : Browser) : list IBarcodeProvider :=
  [ ZXingProvider_class B;
    BarcodeDetectorProvider_class B;
    ZXingWasmProvider_class B;
    DynamsoftProvider_class B ].

(** ** JavaScript [Map] with string keys

    Entries are kept in insertion order; [set] on a present key replaces the
    value in place. *)
Module JSMap.

Definition t (V : Type) : Type := list (string * V).

Definition empty {V : Type} : t V := [].

Fixpoint get {V : Type} (k : string) (m : t V) : option V :=
  match m with
  | [] => None
  | (k', v) :: m' => if k' =? k then Some v else get k m'
  end.

Definition has {V : Type} (k : string) (m : t V) : bool :=
  match get k m with
  | Some _ => true
  | None => false
  end.

Fixpoint set {V : Type} (k : string) (v : V) (m : t V) : t V :=
  match m with
  | [] => [(k, v)]
  | (k', v') :: m' => if k' =? k then (k, v) :: m' else (k', v') :: set k v m'
  end.

Definition values {V : Type} (m : t V) : list V := map snd m.

Definition keys {V : Type} (m : t V) : list string := map fst m.

End JSMap.

(** ** The world: heap, registry singleton, scan engine, storage, clock *)

(** References to heap objects. *)
Abbreviation ref := nat.

(** A provider instance: its class and its private field. *)
Record Obj := { cls : IBarcodeProvider; field : option handle }.

Record ProviderInfo := {
  info_name : string;
  displayName : string;
  description : string;
  (* what awaiting loader() yields: the provider class, or a failed import *)
  loader : completion IBarcodeProvider;
}.

Record ProviderRegistry := {
  providers : JSMap.t ProviderInfo;
  loadedProviders : JSMap.t ref;
  currentProvider : option ref;
}.

(** type ScannerEventType = 'success' | 'error' *)
Inductive ScannerEventType := EvSuccess | EvError.

Record ScanResult := { text : string; imageData : string }.

(** The payload of an event: a scan result for 'success', the error for
    'error'. *)
Inductive EventData :=
| ResultData (result : ScanResult)
| ErrorData (message : string).

(** A registered callback; it returns or throws. *)
Definition Listener : Type := EventData -> completion unit.

Record BarcodeScanner := {
  (* field currentProvider of class BarcodeScanner *)
  scanner_currentProvider : option ref;
  isScanning : bool;
  (* whether a MediaStream is held *)
  stream : bool;
  eventListeners : ScannerEventType -> list Listener;
}.

(** localStorage, restricted to the key 'barcode-scanner-provider'.  Access
    throws when storage is not accessible. *)
Record Storage := { accessible : bool; item : option string }.

(** Calls on collaborators, recorded in the order they are made. *)
Inductive Call :=
| ImportModule (providerName : string)
| New (p : ref)
| Init (p : ref)
| ScanVideoFrame (p : ref)
| ScanImage (p : ref)
| Destroy (p : ref)
| NewImage
| GetUserMedia
| Delay (ms : N)
| Emit (event : ScannerEventType) (data : EventData).

(** What the program cannot decide: the browser, how long each awaited call
    takes (milliseconds), what the camera preview shows at each sample, and
    whether the camera can be opened and played. *)
Record Env := {
  browser : Browser;
  latency : Call -> Q;
  preview : nat -> HTMLVideoElement;
  getUserMedia : completion unit;
  play : completion unit;
  (* canvas.toDataURL('image/jpeg', 0.8) of a downscaled drawing of a picture *)
  toDataURL : Bitmap -> string;
}.

Record World := {
  env : Env;
  heap : list Obj;
  registry : ProviderRegistry;
  scanner : BarcodeScanner;
  localStorage : Storage;
  (* performance.now() *)
  now : Q;
  (* number of preview samples consumed so far *)
  sampled : nat;
  trace : list Call;
}.

Definition set_heap (h : list Obj) (w : World) : World :=
  {| env := env w; heap := h; registry := registry w; scanner := scanner w;
     localStorage := localStorage w; now := now w; sampled := sampled w;
     trace := trace w |}.

Definition set_registry (r : ProviderRegistry) (w : World) : World :=
  {| env := env w; heap := heap w; registry := r; scanner := scanner w;
     localStorage := localStorage w; now := now w; sampled := sampled w;
     trace := trace w |}.

Definition set_scanner (s : BarcodeScanner) (w : World) : World :=
  {| env := env w; heap := heap w; registry := registry w; scanner := s;
     localStorage := localStorage w; now := now w; sampled := sampled w;
     trace := trace w |}.

Definition set_localStorage (s : Storage) (w : World) : World :=
  {| env := env w; heap := heap w; registry := registry w; scanner := scanner w;
     localStorage := s; now := now w; sampled := sampled w;
     trace := trace w |}.

Definition set_sampled (n : nat) (w : World) : World :=
  {| env := env w; heap := heap w; registry := registry w; scanner := scanner w;
     localStorage := localStorage w; now := now w; sampled := n;
     trace := trace w |}.

(** Record a call and let the clock advance by the time it takes. *)
Definition record (c : Call) (w : World) : World :=
  {| env := env w; heap := heap w; registry := registry w; scanner := scanner w;
     localStorage := localStorage w; now := (now w + latency (env w) c)%Q;
     sampled := sampled w; trace := trace w ++ [c] |}.

(** ** The monad of effectful code: state and exceptions *)

Definition M (A : Type) : Type := World -> completion A * World.

Definition ret {A : Type} (a : A) : M A := fun w => (Normal a, w).

Definition throw {A : Type} (message : string) : M A := fun w => (Throw message, w).

Definition bind {A B : Type} (m : M A) (k : A -> M B) : M B :=
  fun w =>
    match m w with
    | (Normal a, w') => k a w'
    | (Throw e, w') => (Throw e, w')
    end.

(** try { m } catch (e) { h e } *)
Definition try_catch {A : Type} (m : M A) (h : string -> M A) : M A :=
  fun w =>
    match m w with
    | (Normal a, w') => (Normal a, w')
    | (Throw e, w') => h e w'
    end.

Definition gets {A : Type} (f : World -> A) : M A := fun w => (Normal (f w), w).

Definition modify (f : World -> World) : M unit := fun w => (Normal tt, f w).

Definition lift {A : Type} (c : completion A) : M A := fun w => (c, w).

Definition perform (c : Call) : M unit := modify (record c).

Notation "'let*' x := m 'in' k" := (bind m (fun x => k))
  (at level 10, x name, m at level 100, k at level 200).
Notation "m >> k" := (bind m (fun _ => k))
  (at level 100, k at level 200, right associativity).

Fixpoint forEach {A : Type} (f : A -> M unit) (l : list A) : M unit :=
  match l with
  | [] => ret tt
  | x :: l' => f x >> forEach f l'
  end.

(** ** Method calls on provider instances *)

(** Reading an object through a reference.  References handed out by [new_]
    always point into the heap; the error branch only keeps the function
    total. *)
Definition deref (p : ref) : M Obj :=
  fun w =>
    match heap w !! p with
    | Some o => (Normal o, w)
    | None => (Throw "dangling reference", w)
    end.

Definition set_field (p : ref) (f : option handle) : M unit :=
  let* o := deref p in
  modify (fun w => set_heap (<[p := {| cls := cls o; field := f |}]> (heap w)) w).

(** new ProviderClass() *)
Definition new_ (c : IBarcodeProvider) : M ref :=
  let* p := gets (fun w => length (heap w)) in
  modify (fun w => set_heap (heap w ++ [{| cls := c; field := None |}]) w) >>
  perform (New p) >>
  ret p.

(** await provider.init() *)
Definition call_init (p : ref) : M unit :=
  let* o := deref p in
  perform (Init p) >>
  set_field p (snd (init (cls o) (field o))) >>
  lift (fst (init (cls o) (field o))).

(** await provider.scanImage(image) *)
Definition call_scanImage (p : ref) (image : ImageSource) : M (option string) :=
  let* o := deref p in
  perform (ScanImage p) >>
  lift (scanImage (cls o) (field o) image).

(** await provider.scanVideoFrame(video, canvas): the provider sees the
    preview as it is now, and the preview moves on. *)
Definition call_scanVideoFrame (p : ref) : M (option string) :=
  let* o := deref p in
  let* video := gets (fun w => preview (env w) (sampled w)) in
  modify (fun w => set_sampled (S (sampled w)) w) >>
  perform (ScanVideoFrame p) >>
  lift (scanVideoFrame (cls o) (field o) video).

(** provider.destroy?.() *)
Definition call_destroy (p : ref) : M unit :=
  let* o := deref p in
  match destroy (cls o) with
  | None => ret tt
  | Some d => perform (Destroy p) >> set_field p (d (field o))
  end.

(** ** ProviderRegistry *)
Module ProviderRegistry.

Definition set_loadedProviders (m : JSMap.t ref) (w : World) : World :=
  set_registry {| providers := providers (registry w);
                  loadedProviders := m;
                  currentProvider := currentProvider (registry w) |} w.

Definition set_currentProvider (c : option ref) (w : World) : World :=
  set_registry {| providers := providers (registry w);
                  loadedProviders := loadedProviders (registry w);
                  currentProvider := c |} w.

(** const { X } = await import(path); return X *)
Definition imported (B : Browser) (path : string) (c : IBarcodeProvider)
  : completion IBarcodeProvider :=
  match importModule B path with
  | Normal _ => Normal c
  | Throw e => Throw e
  end.

Definition registerDefaultProviders (B : Browser) : JSMap.t ProviderInfo :=
  JSMap.set "dynamsoft"
    {| info_name := "dynamsoft";
       displayName := "Dynamsoft SDK";
       description := "Commercial SDK with industry-leading accuracy (license required)";
       loader := imported B "./providers/dynamsoftProvider" (DynamsoftProvider_class B) |}
  (JSMap.set "zxing-wasm"
    {| info_name := "zxing-wasm";
       displayName := "ZXing (WASM)";
       description := "Pure WebAssembly build of ZXing – high performance";
       loader := imported B "./providers/zxingWasmProvider" (ZXingWasmProvider_class B) |}
  (JSMap.set "barcode-detector"
    {| info_name := "barcode-detector";
       displayName := "BarcodeDetector (Native)";
       description := "Native browser API for barcode detection (Chrome/Edge only) - fastest performance";
       loader := imported B "./providers/barcodeDetectorProvider" (BarcodeDetectorProvider_class B) |}
  (JSMap.set "zxing"
    {| info_name := "zxing";
       displayName := "ZXing";
       description := "Fast and reliable barcode scanner supporting QR codes and PDF417";
       loader := imported B "./providers/zxingProvider" (ZXingProvider_class B) |}
   JSMap.empty))).

(** The singleton as built by the private constructor. *)
Definition getInstance (B : Browser) : ProviderRegistry :=
  {| providers := registerDefaultProviders B;
     loadedProviders := JSMap.empty;
     currentProvider := None |}.

Definition getAvailableProviders : M (list ProviderInfo) :=
  gets (fun w => JSMap.values (providers (registry w))).

Definition loadProvider (providerName : string) : M ref :=
  let* cached := gets (fun w => JSMap.get providerName (loadedProviders (registry w))) in
  match cached with
  | Some provider => ret provider
  | None =>
      let* providerInfo := gets (fun w => JSMap.get providerName (providers (registry w))) in
      match providerInfo with
      | None => throw ("Unknown provider: " +:+ providerName)
      | Some info =>
          (* the catch block logs and rethrows *)
          perform (ImportModule providerName) >>
          let* ProviderClass := lift (loader info) in
          let* provider := new_ ProviderClass in
          call_init provider >>
          modify (fun w =>
            set_loadedProviders
              (JSMap.set providerName provider (loadedProviders (registry w))) w) >>
          ret provider
      end
  end.

Definition setItem (value : string) : M unit :=
  fun w =>
    if accessible (localStorage w) then
      (Normal tt, set_localStorage {| accessible := true; item := Some value |} w)
    else (Throw "localStorage is not accessible", w).

Definition getItem : M (option string) :=
  fun w =>
    if accessible (localStorage w) then (Normal (item (localStorage w)), w)
    else (Throw "localStorage is not accessible", w).

Definition setCurrentProvider (providerName : string) : M ref :=
  let* current := gets (fun w => currentProvider (registry w)) in
  match current with
  | Some p => call_destroy p
  | None => ret tt
  end >>
  let* provider := loadProvider providerName in
  modify (set_currentProvider (Some provider)) >>
  try_catch (setItem providerName) (fun _ => ret tt) >>
  ret provider.

Definition getCurrentProvider : M (option ref) :=
  gets (fun w => currentProvider (registry w)).

Definition getPreferredProvider : M string :=
  try_catch
    (let* stored := getItem in
     match stored with
     | Some s => if truthy s then ret s else ret "zxing"
     | None => ret "zxing"
     end)
    (fun _ => ret "zxing").

Definition initializeDefaultProvider : M ref :=
  let* preferredProvider := getPreferredProvider in
  setCurrentProvider preferredProvider.

Definition cleanup : M unit :=
  let* current := gets (fun w => currentProvider (registry w)) in
  match current with
  | Some p => call_destroy p >> modify (set_currentProvider None)
  | None => ret tt
  end >>
  let* loaded := gets (fun w => JSMap.values (loadedProviders (registry w))) in
  forEach call_destroy loaded >>
  modify (set_loadedProviders JSMap.empty).

End ProviderRegistry.

(** ** Files handed to the scan engine and to the benchmark runner *)

(** What reading and decoding the file as an image leads to: FileReader
    fails, the image element fails to load, or the image loads. *)
Inductive FileContent :=
| Unreadable
| NotAnImage
| Picture (b : Bitmap).

Record File := {
  file_name : string;
  file_type : string;
  content : FileContent;
}.

(** ** BarcodeScanner (the scan engine) *)
Module BarcodeScanner.

Definition set_currentProvider (c : option ref) (w : World) : World :=
  set_scanner {| scanner_currentProvider := c;
                 isScanning := isScanning (scanner w);
                 stream := stream (scanner w);
                 eventListeners := eventListeners (scanner w) |} w.

Definition set_isScanning (b : bool) (w : World) : World :=
  set_scanner {| scanner_currentProvider := scanner_currentProvider (scanner w);
                 isScanning := b;
                 stream := stream (scanner w);
                 eventListeners := eventListeners (scanner w) |} w.

Definition set_stream (b : bool) (w : World) : World :=
  set_scanner {| scanner_currentProvider := scanner_currentProvider (scanner w);
                 isScanning := isScanning (scanner w);
                 stream := b;
                 eventListeners := eventListeners (scanner w) |} w.

Definition set_eventListeners (l : ScannerEventType -> list Listener) (w : World)
  : World :=
  set_scanner {| scanner_currentProvider := scanner_currentProvider (scanner w);
                 isScanning := isScanning (scanner w);
                 stream := stream (scanner w);
                 eventListeners := l |} w.

Definition same_event (a b : ScannerEventType) : bool :=
  match a, b with
  | EvSuccess, EvSuccess => true
  | EvError, EvError => true
  | _, _ => false
  end.

(** The engine as the constructor leaves it. *)
Definition constructor : BarcodeScanner :=
  {| scanner_currentProvider := None;
     isScanning := false;
     stream := false;
     eventListeners := fun _ => [] |}.

Definition on (event : ScannerEventType) (callback : Listener) : M unit :=
  modify (fun w =>
    set_eventListeners
      (fun e => if same_event e event
                then (eventListeners (scanner w) e ++ [callback])%list
                else eventListeners (scanner w) e) w).

Definition emit (event : ScannerEventType) (data : EventData) : M unit :=
  perform (Emit event data) >>
  let* listeners := gets (fun w => eventListeners (scanner w) event) in
  forEach (fun callback => lift (callback data)) listeners.

Definition start : M unit :=
  let* scanning := gets (fun w => isScanning (scanner w)) in
  if scanning then ret tt
  else
    try_catch
      (let* current := gets (fun w => scanner_currentProvider (scanner w)) in
       match current with
       | Some _ => ret tt
       | None =>
           let* provider := ProviderRegistry.initializeDefaultProvider in
           modify (set_currentProvider (Some provider))
       end >>
       perform GetUserMedia >>
       let* media := gets (fun w => getUserMedia (env w)) in
       lift media >>
       modify (set_stream true) >>
       let* played := gets (fun w => play (env w)) in
       lift played >>
       modify (set_isScanning true))
       (* this.startScanningLoop() is then called without being awaited:
          its iterations are [startScanningLoop] and [runLoop] below *)
      (fun e => emit EvError (ErrorData e) >> throw e).

Definition stop : M unit :=
  modify (set_isScanning false) >>
  modify (set_stream false).

Definition scanFrame : M (option string) :=
  let* current := gets (fun w => scanner_currentProvider (scanner w)) in
  match current with
  | None => throw "No provider initialized"
  | Some provider => call_scanVideoFrame provider
  end.

Definition captureFrame : M string :=
  let* B := gets (fun w => browser (env w)) in
  if negb (canvas2d B) then throw "Cannot get canvas context"
  else gets (fun w => toDataURL (env w) (videoFrame (preview (env w) (sampled w)))).

(** What one invocation of startScanningLoop leaves behind: a timer that
    will invoke it again after 100 ms, or nothing. *)
Inductive LoopState := Rescheduled | Ended.

Definition startScanningLoop : M LoopState :=
  let* scanning := gets (fun w => isScanning (scanner w)) in
  if negb scanning then ret Ended
  else
    try_catch
      (let* result := scanFrame in
       match result with
       | Some t =>
           if truthy t then
             let* imageData := captureFrame in
             emit EvSuccess (ResultData {| text := t; imageData := imageData |}) >>
             ret Ended
           else ret Rescheduled
       | None => ret Rescheduled
       end)
      (fun _ => ret Rescheduled).

(** The loop driven by its timer: [timers] bounds how many times the timer
    is allowed to fire. *)
Fixpoint runLoop (timers : nat) : M LoopState :=
  let* state := startScanningLoop in
  match state with
  | Ended => ret Ended
  | Rescheduled =>
      match timers with
      | O => ret Rescheduled
      | S n => perform (Delay 100) >> runLoop n
      end
  end.

Definition scanImageFile (file : File) : M ScanResult :=
  if negb (String.prefix "image/" (file_type file)) then
    throw "Please select a valid image file."
  else
    perform NewImage >>
    let* B := gets (fun w => browser (env w)) in
    if negb (canvas2d B) then throw "Cannot get canvas context"
    else
      match content file with
      | Unreadable => throw "Failed to read file."
      | NotAnImage => throw "Failed to load image. Please try another file."
      | Picture b =>
          (* img.onload; reject() inside the try block settles the promise
             without throwing *)
          let* settled :=
            try_catch
              (let* current := gets (fun w => scanner_currentProvider (scanner w)) in
               let* provider :=
                 match current with
                 | Some p => ret p
                 | None =>
                     let* p := ProviderRegistry.initializeDefaultProvider in
                     modify (set_currentProvider (Some p)) >>
                     ret p
                 end in
               let* result := call_scanImage provider (HTMLImageElement b) in
               match result with
               | Some t =>
                   if truthy t then
                     if canvas2d B then
                       let* url := gets (fun w => toDataURL (env w) b) in
                       ret (Normal {| text := t; imageData := url |})
                     else ret (Throw "Cannot create thumbnail")
                   else throw "No barcode found in the image"
               | None => throw "No barcode found in the image"
               end)
              (fun _ =>
                 ret (Throw "No barcode found in the image. Please try another image."))
          in
          lift settled
      end.

Definition setProvider (providerName : string) : M unit :=
  let* wasScanning := gets (fun w => isScanning (scanner w)) in
  (if wasScanning then stop else ret tt) >>
  let* provider := ProviderRegistry.setCurrentProvider providerName in
  modify (set_currentProvider (Some provider)) >>
  if wasScanning then start else ret tt.

Definition getCurrentProvider : M (option ref) :=
  gets (fun w => scanner_currentProvider (scanner w)).

Definition getAvailableProviders : M (list ProviderInfo) :=
  ProviderRegistry.getAvailableProviders.

Definition cleanup : M unit :=
  stop >> ProviderRegistry.cleanup.

End BarcodeScanner.

(** ** BenchmarkRunner *)

Record BenchmarkResult := {
  providerName : string;
  success : bool;
  duration : Q;
  error : option string;
  result : option string;
}.

(** The numbers of a report's summary are IEEE 754 doubles, with the
    arithmetic the Standard Library specifies for binary64.  An operation
    rounds what it computes to the nearest double (ties to even) and
    overflows to Infinity, whatever the size of the mantissas it is given; so
    an integer is handed to it as it is, and a rational as the quotient of
    two integers. *)
Module Number.

Definition t : Type := spec_float.

Definition prec : Z := 53.

Definition emax : Z := 1024.

(* the literal 0 *)
Definition zero : t := S754_zero false.

Definition of_Z (z : Z) : t :=
  match z with
  | Z0 => S754_zero false
  | Zpos m => S754_finite false m 0
  | Zneg m => S754_finite true m 0
  end.

(* array.length *)
Definition of_nat (n : nat) : t := of_Z (Z.of_nat n).

(* x + y *)
Definition add : t -> t -> t := SFadd prec emax.

(* x / y *)
Definition div : t -> t -> t := SFdiv prec emax.

(** The double nearest to a rational, which is the rational itself when it
    is a double: a duration, read off the clock as the difference of two
    doubles, is one. *)
Definition of_Q (q : Q) : t := div (of_Z (Qnum q)) (of_Z (Zpos (Qden q))).

End Number.

Record Summary := {
  fastestProvider : option string;
  averageDuration : Number.t;
  successRate : Number.t;
}.

Record BenchmarkReport := {
  testName : string;
  results : list BenchmarkResult;
  summary : Summary;
}.

Module BenchmarkRunner.

(** x < y on numbers *)
Definition Qltb (x y : Q) : bool := negb (Qle_bool y x).

(** Number of elements of an array, as a duration. *)
Definition count {A : Type} (l : list A) : Q := inject_Z (Z.of_nat (length l)).

(** array.reduce(f) without an initial value, on a non-empty array *)
Definition reduce {A : Type} (f : A -> A -> A) (l : list A) : option A :=
  match l with
  | [] => None
  | x :: l' => Some (fold_left f l' x)
  end.

(** array.reduce((sum, r) => sum + r.duration, 0) in benchmarkVideoFrame,
    whose per-provider average is stored in a duration: durations are clock
    differences and are carried as exact rationals. *)
Definition totalDuration (l : list BenchmarkResult) : Q :=
  fold_left (fun sum r => (sum + duration r)%Q) l 0%Q.

Definition generateReport (testName : string) (results : list BenchmarkResult)
  : BenchmarkReport :=
  let successfulResults := List.filter success results in
  let fastestProvider :=
    match reduce (fun fastest current =>
                    if Qltb (duration current) (duration fastest)
                    then current else fastest) successfulResults with
    | Some r => Some (providerName r)
    | None => None
    end in
  let averageDuration :=
    if (0 <? length successfulResults)%nat
    then Number.div
           (fold_left (fun sum r => Number.add sum (Number.of_Q (duration r)))
              successfulResults Number.zero)
           (Number.of_nat (length successfulResults))
    else Number.zero in
  let successRate :=
    if (0 <? length results)%nat
    then Number.div (Number.of_nat (length successfulResults))
           (Number.of_nat (length results))
    else Number.zero in
  {| testName := testName;
     results := results;
     summary := {| fastestProvider := fastestProvider;
                   averageDuration := averageDuration;
                   successRate := successRate |} |}.

Definition loadImage (file : File) : M Bitmap :=
  perform NewImage >>
  match content file with
  | Unreadable => throw "Failed to read file"
  | NotAnImage => throw "Failed to load image"
  | Picture b => ret b
  end.

(** scanResult || undefined *)
Definition or_undefined (scanResult : option string) : option string :=
  if truthy_result scanResult then scanResult else None.

Definition not_null (scanResult : option string) : bool :=
  match scanResult with
  | Some _ => true
  | None => false
  end.

(** for (...) { body; results.push(...) } *)
Fixpoint collect {A B : Type} (body : A -> M B) (l : list A) : M (list B) :=
  match l with
  | [] => ret []
  | x :: l' =>
      let* r := body x in
      let* rs := collect body l' in
      ret (r :: rs)
  end.

(** for (let i = 0; i < iterations; i++) { body; results.push(...) } *)
Fixpoint iterate {B : Type} (iterations : nat) (body : M B) : M (list B) :=
  match iterations with
  | O => ret []
  | S n =>
      let* r := body in
      let* rs := iterate n body in
      ret (r :: rs)
  end.

(** The body of the loop of benchmarkImageScan for one catalog entry. *)
Definition imageScanAttempt (img : Bitmap) (providerInfo : ProviderInfo)
  : M BenchmarkResult :=
  try_catch
    (let* startTime := gets now in
     let* provider := ProviderRegistry.loadProvider (info_name providerInfo) in
     let* scanResult := call_scanImage provider (HTMLImageElement img) in
     let* endTime := gets now in
     ret {| providerName := displayName providerInfo;
            success := not_null scanResult;
            duration := (endTime - startTime)%Q;
            error := None;
            result := or_undefined scanResult |})
    (fun e =>
       (* performance.now() - performance.now(): the clock of this model moves
          with the awaited calls only, so the two reads agree; on a real clock
          the second read is not earlier than the first *)
       let* t1 := gets now in
       let* t2 := gets now in
       ret {| providerName := displayName providerInfo;
              success := false;
              duration := (t1 - t2)%Q;
              error := Some e;
              result := None |}).

Definition benchmarkImageScan (imageFile : File) : M BenchmarkReport :=
  let* providers := ProviderRegistry.getAvailableProviders in
  let* img := loadImage imageFile in
  let* results := collect (imageScanAttempt img) providers in
  ret (generateReport ("Image Scan - " +:+ file_name imageFile) results).

(** One iteration of the inner loop of benchmarkVideoFrame. *)
Definition videoFrameAttempt (providerInfo : ProviderInfo) (provider : ref)
  : M BenchmarkResult :=
  try_catch
    (let* startTime := gets now in
     let* scanResult := call_scanVideoFrame provider in
     let* endTime := gets now in
     perform (Delay 10) >>
     ret {| providerName := displayName providerInfo;
            success := not_null scanResult;
            duration := (endTime - startTime)%Q;
            error := None;
            result := or_undefined scanResult |})
    (fun e =>
       ret {| providerName := displayName providerInfo;
              success := false;
              duration := 0%Q;
              error := Some e;
              result := None |}).

(** The body of the outer loop of benchmarkVideoFrame for one catalog
    entry. *)
Definition videoFrameProvider (iterations : nat) (providerInfo : ProviderInfo)
  : M BenchmarkResult :=
  try_catch
    (let* provider := ProviderRegistry.loadProvider (info_name providerInfo) in
     let* providerResults := iterate iterations (videoFrameAttempt providerInfo provider) in
     let successfulResults := List.filter success providerResults in
     let averageDuration :=
       if (0 <? length successfulResults)%nat
       then (totalDuration successfulResults / count successfulResults)%Q
       else 0%Q in
     ret {| providerName := displayName providerInfo;
            success := (0 <? length successfulResults)%nat;
            duration := averageDuration;
            error := if (length successfulResults =? 0)%nat
                     then Some "All iterations failed" else None;
            result := if (0 <? length successfulResults)%nat
                      then Some (pretty (length successfulResults) +:+ "/" +:+
                                 pretty iterations +:+ " successful")
                      else None |})
    (fun e =>
       ret {| providerName := displayName providerInfo;
              success := false;
              duration := 0%Q;
              error := Some e;
              result := None |}).

Definition benchmarkVideoFrame (iterations : nat) : M BenchmarkReport :=
  let* providers := ProviderRegistry.getAvailableProviders in
  let* allResults := collect (videoFrameProvider iterations) providers in
  ret (generateReport
         ("Video Frame Scan (" +:+ pretty iterations +:+ " iterations)")
         allResults).

End BenchmarkRunner.

(** ** Concrete environments used in examples *)

(** A picture in which no decoder finds a code. *)
Definition blank : Bitmap :=
  {| detect := Normal [];
     decodeFromCanvas := Throw "NotFoundException";
     readBarcodes := Normal [];
     capture := Normal [] |}.

(** A picture of a QR code every decoder reads as [t]. *)
Definition qr (t : string) : Bitmap :=
  {| detect := Normal [{| rawValue := t; format := "qr_code" |}];
     decodeFromCanvas := Normal t;
     readBarcodes := Normal [t];
     capture := Normal [{| formatString := "QRCode"; item_text := t |}] |}.

(** A browser with canvas support and every engine available. *)
Definition chrome : Browser :=
  {| canvas2d := true;
     hasBarcodeDetector := true;
     newBarcodeDetector := Normal tt;
     newBrowserMultiFormatReader := Normal tt;
     createInstance := Normal tt;
     createImageBitmap := Normal tt;
     importModule := fun _ => Normal tt |}.

(** The DOM of the unit tests: canvases have no 2D context and there is no
    native detector. *)
Definition jsdom : Browser :=
  {| canvas2d := false;
     hasBarcodeDetector := false;
     newBarcodeDetector := Throw "BarcodeDetector is not a constructor";
     newBrowserMultiFormatReader := Normal tt;
     createInstance := Normal tt;
     createImageBitmap := Throw "createImageBitmap is not defined";
     importModule := fun _ => Normal tt |}.

Definition still (b : Bitmap) : HTMLVideoElement :=
  {| videoWidth := 1280; videoHeight := 720; videoFrame := b |}.

(** An environment in which every call is instantaneous and the camera shows
    nothing. *)
Definition quiet (B : Browser) : Env :=
  {| browser := B;
     latency := fun _ => 0%Q;
     preview := fun _ => still blank;
     getUserMedia := Normal tt;
     play := Normal tt;
     toDataURL := fun _ => "data:image/jpeg;base64," |}.

(** The world when the page has loaded: singleton registry and scan engine
    constructed, nothing loaded. *)
Definition boot (E : Env) : World :=
  {| env := E;
     heap := [];
     registry := ProviderRegistry.getInstance (browser E);
     scanner := BarcodeScanner.constructor;
     localStorage := {| accessible := true; item := None |};
     now := 0%Q;
     sampled := 0;
     trace := [] |}.

Definition exec {A : Type} (m : M A) (w : World) : World := snd (m w).

Definition eval {A : Type} (m : M A) (w : World) : completion A := fst (m w).

(** * Properties *)

(** ** Maps *)

Lemma JSMap_get_set_eq {V : Type} (k : string) (v : V) (m : JSMap.t V) :
  JSMap.get k (JSMap.set k v m) = Some v.
Proof.
  induction m as [|[k' v'] m IH]; simpl.
  - now rewrite String.eqb_refl.
  - destruct (k' =? k) eqn:Hk; simpl.
    + now rewrite String.eqb_refl.
    + now rewrite Hk.
Qed.

Lemma JSMap_get_set_ne {V : Type} (k k' : string) (v : V) (m : JSMap.t V) :
  k <> k' -> JSMap.get k' (JSMap.set k v m) = JSMap.get k' m.
Proof.
  intros Hne. apply String.eqb_neq in Hne.
  induction m as [|[k0 v0] m IH]; simpl.
  - now rewrite Hne.
  - destruct (k0 =? k) eqn:Hk; simpl.
    + apply String.eqb_eq in Hk. subst k0. now rewrite Hne.
    + now rewrite IH.
Qed.

Lemma JSMap_get_set_Some {V : Type} (k k' : string) (v v' : V) (m : JSMap.t V) :
  JSMap.get k' m = Some v' -> exists v'', JSMap.get k' (JSMap.set k v m) = Some v''.
Proof.
  intros H. destruct (String.eqb_spec k k') as [->|Hne].
  - exists v. apply JSMap_get_set_eq.
  - exists v'. now rewrite JSMap_get_set_ne.
Qed.

(** ** Frame reasoning: parts of the world a computation leaves alone *)

Definition preserves {X A : Type} (f : World -> X) (m : M A) : Prop :=
  forall w, f (snd (m w)) = f w.

Section Preserves.
Context {X : Type} (f : World -> X).

Lemma preserves_ret {A : Type} (a : A) : preserves f (ret a).
Proof. now intros w. Qed.

Lemma preserves_throw {A : Type} (e : string) : preserves f (@throw A e).
Proof. now intros w. Qed.

Lemma preserves_gets {A : Type} (g : World -> A) : preserves f (gets g).
Proof. now intros w. Qed.

Lemma preserves_lift {A : Type} (c : completion A) : preserves f (lift c).
Proof. now intros w. Qed.

Lemma preserves_modify (g : World -> World) :
  (forall w, f (g w) = f w) -> preserves f (modify g).
Proof. intros H w. apply H. Qed.

Lemma preserves_bind {A B : Type} (m : M A) (k : A -> M B) :
  preserves f m -> (forall a, preserves f (k a)) -> preserves f (bind m k).
Proof.
  intros Hm Hk w. unfold bind. specialize (Hm w).
  destruct (m w) as [[a|e] w']; simpl in *.
  - now rewrite Hk.
  - exact Hm.
Qed.

Lemma preserves_try_catch {A : Type} (m : M A) (h : string -> M A) :
  preserves f m -> (forall e, preserves f (h e)) -> preserves f (try_catch m h).
Proof.
  intros Hm Hh w. unfold try_catch. specialize (Hm w).
  destruct (m w) as [[a|e] w']; simpl in *.
  - exact Hm.
  - now rewrite Hh.
Qed.

Lemma preserves_forEach {A : Type} (body : A -> M unit) (l : list A) :
  (forall a, preserves f (body a)) -> preserves f (forEach body l).
Proof.
  intros Hb. induction l as [|x l IH]; simpl.
  - apply preserves_ret.
  - apply preserves_bind; auto.
Qed.

Lemma preserves_collect {A B : Type} (body : A -> M B) (l : list A) :
  (forall a, preserves f (body a)) ->
  preserves f (BenchmarkRunner.collect body l).
Proof.
  intros Hb. induction l as [|x l IH]; simpl.
  - apply preserves_ret.
  - apply preserves_bind; [apply Hb|]. intros r.
    apply preserves_bind; [apply IH|]. intros rs. apply preserves_ret.
Qed.

Lemma preserves_iterate {B : Type} (body : M B) (n : nat) :
  preserves f body -> preserves f (BenchmarkRunner.iterate n body).
Proof.
  intros Hb. induction n as [|n IH]; simpl.
  - apply preserves_ret.
  - apply preserves_bind; [apply Hb|]. intros r.
    apply preserves_bind; [apply IH|]. intros rs. apply preserves_ret.
Qed.

Lemma preserves_deref (p : ref) : preserves f (deref p).
Proof. intros w. unfold deref. now destruct (heap w !! p). Qed.

End Preserves.

(** Decompose a computation along its syntax, leaving the state updates. *)
Ltac frame_step :=
  first
    [ apply preserves_ret | apply preserves_throw | apply preserves_gets
    | apply preserves_lift | apply preserves_deref
    | apply preserves_bind; [|intros ?]
    | apply preserves_try_catch; [|intros ?]
    | apply preserves_forEach; intros ?
    | apply preserves_collect; intros ?
    | apply preserves_iterate
    | apply preserves_modify; intros ?; reflexivity
    | match goal with
      | |- preserves _ (match ?x with _ => _ end) => destruct x
      end ].

Ltac frame := repeat frame_step.

(** *** The registry's current provider *)

Definition registry_current (w : World) : option ref := currentProvider (registry w).

Lemma call_scanImage_current (p : ref) (image : ImageSource) :
  preserves registry_current (call_scanImage p image).
Proof. unfold call_scanImage, perform. frame. Qed.

Lemma call_scanVideoFrame_current (p : ref) :
  preserves registry_current (call_scanVideoFrame p).
Proof. unfold call_scanVideoFrame, perform. frame. Qed.

Lemma set_field_current (p : ref) (h : option handle) :
  preserves registry_current (set_field p h).
Proof. unfold set_field. frame. Qed.

Lemma loadProvider_current (n : string) :
  preserves registry_current (ProviderRegistry.loadProvider n).
Proof.
  unfold ProviderRegistry.loadProvider, new_, call_init, perform. frame.
Qed.

Lemma imageScanAttempt_current (img : Bitmap) (info : ProviderInfo) :
  preserves registry_current (BenchmarkRunner.imageScanAttempt img info).
Proof.
  unfold BenchmarkRunner.imageScanAttempt.
  apply preserves_try_catch; [|intros e; frame].
  apply preserves_bind; [frame|intros startTime].
  apply preserves_bind; [apply loadProvider_current|intros provider].
  apply preserves_bind; [apply call_scanImage_current|intros scanResult].
  frame.
Qed.

Lemma videoFrameProvider_current (iterations : nat) (info : ProviderInfo) :
  preserves registry_current (BenchmarkRunner.videoFrameProvider iterations info).
Proof.
  unfold BenchmarkRunner.videoFrameProvider.
  apply preserves_try_catch; [|intros e; frame].
  apply preserves_bind; [apply loadProvider_current|intros provider].
  apply preserves_bind; [|intros providerResults; frame].
  apply preserves_iterate. unfold BenchmarkRunner.videoFrameAttempt.
  apply preserves_try_catch; [|intros e; frame].
  apply preserves_bind; [frame|intros startTime].
  apply preserves_bind; [apply call_scanVideoFrame_current|intros scanResult].
  frame.
Qed.

(** C5. Running benchmarkImageScan, on any file, or benchmarkVideoFrame, with
    any number of iterations, from any state of the world leaves the
    registry's current-provider reference exactly as it was. *)
Theorem benchmark_keeps_current_provider
    (imageFile : File) (iterations : nat) (w : World) :
  currentProvider (registry (exec (BenchmarkRunner.benchmarkImageScan imageFile) w))
    = currentProvider (registry w)
  /\ currentProvider (registry (exec (BenchmarkRunner.benchmarkVideoFrame iterations) w))
    = currentProvider (registry w).
Proof.
  split.
  - enough (H : preserves registry_current (BenchmarkRunner.benchmarkImageScan imageFile))
      by exact (H w).
    unfold BenchmarkRunner.benchmarkImageScan.
    apply preserves_bind; [frame|intros providers].
    apply preserves_bind; [frame|intros img].
    apply preserves_bind; [|intros results; frame].
    apply preserves_collect. apply imageScanAttempt_current.
  - enough (H : preserves registry_current (BenchmarkRunner.benchmarkVideoFrame iterations))
      by exact (H w).
    unfold BenchmarkRunner.benchmarkVideoFrame.
    apply preserves_bind; [frame|intros providers].
    apply preserves_bind; [|intros results; frame].
    apply preserves_collect. apply videoFrameProvider_current.
Qed.

(** ** Providers used before init or after destroy *)

(** A failed init on a fresh instance leaves the handle null, and destroy
    always nulls it. *)
Lemma catalog_init_failure_keeps_null (B : Browser) (c : IBarcodeProvider) (e : string) :
  In c (catalogClasses B) -> fst (init c None) = Throw e -> snd (init c None) = None.
Proof.
  unfold catalogClasses. simpl.
  intros [<-|[<-|[<-|[<-|[]]]]]; simpl;
    unfold ZXingProvider.init, BarcodeDetectorProvider.init,
      ZXingWasmProvider.init, DynamsoftProvider.init.
  - destruct (newBrowserMultiFormatReader B); simpl; congruence.
  - destruct (hasBarcodeDetector B); simpl; [|reflexivity].
    destruct (newBarcodeDetector B); simpl; congruence.
  - simpl. discriminate.
  - destruct (createInstance B); simpl; congruence.
Qed.

Lemma catalog_destroy_nulls (B : Browser) (c : IBarcodeProvider) (h : option handle) :
  In c (catalogClasses B) -> exists d, destroy c = Some d /\ d h = None.
Proof.
  unfold catalogClasses. simpl.
  intros [<-|[<-|[<-|[<-|[]]]]]; simpl; eauto.
Qed.

(** scanVideoFrame on a null handle throws the not-initialized error, for
    each of the four classes. *)
Lemma catalog_scanVideoFrame_uninitialized
    (B : Browser) (c : IBarcodeProvider) (video : HTMLVideoElement) :
  In c (catalogClasses B) ->
  exists e, scanVideoFrame c None video = Throw e /\ isNotInitializedError e = true.
Proof.
  unfold catalogClasses. simpl.
  intros [<-|[<-|[<-|[<-|[]]]]]; simpl; eexists; split; reflexivity.
Qed.

(** scanImage on a null handle throws as well; the error is the
    not-initialized one except when DynamsoftProvider is handed an image
    element in a browser without a 2D canvas context. *)
Lemma catalog_scanImage_uninitialized
    (B : Browser) (c : IBarcodeProvider) (image : ImageSource) :
  In c (catalogClasses B) ->
  exists e, scanImage c None image = Throw e
    /\ (isNotInitializedError e = true
        \/ (c = DynamsoftProvider_class B /\ canvas2d B = false
            /\ (exists b, image = HTMLImageElement b)
            /\ e = "Cannot get canvas context")).
Proof.
  unfold catalogClasses. simpl.
  intros [<-|[<-|[<-|[<-|[]]]]]; simpl;
    try (eexists; split; [reflexivity|left; reflexivity]).
  unfold DynamsoftProvider.scanImage.
  destruct image as [b|b]; simpl.
  - destruct (canvas2d B) eqn:Hc; simpl.
    + eexists; split; [reflexivity|left; reflexivity].
    + eexists; split; [reflexivity|right]. eauto.
  - eexists; split; [reflexivity|left; reflexivity].
Qed.

(** C3 (evaluation at the failing input). A DynamsoftProvider that was never
    initialized, asked to scan an image element where canvases have no 2D
    context, throws the canvas error and not the not-initialized error; its
    scanVideoFrame, and the scanImage of ZXingWasmProvider with the same
    canvas preparation, do throw the not-initialized error there. *)
Theorem dynamsoft_scanImage_uninitialized_throws_canvas_error :
  scanImage (DynamsoftProvider_class jsdom) None (HTMLImageElement (qr "x"))
    = Throw "Cannot get canvas context"
  /\ isNotInitializedError "Cannot get canvas context" = false
  /\ scanVideoFrame (DynamsoftProvider_class jsdom) None (still (qr "x"))
    = Throw "Dynamsoft provider not initialised"
  /\ scanImage (ZXingWasmProvider_class jsdom) None (HTMLImageElement (qr "x"))
    = Throw "ZXing-WASM not initialised".
Proof. repeat split. Qed.

(** ** The registry *)

(** The references the registry holds point into the heap, and only catalog
    names are cached. *)
Definition well_formed (w : World) : Prop :=
  (forall n p, JSMap.get n (loadedProviders (registry w)) = Some p ->
     (exists info, JSMap.get n (providers (registry w)) = Some info)
     /\ p < length (heap w))
  /\ (forall p, currentProvider (registry w) = Some p -> p < length (heap w)).

Lemma boot_well_formed (E : Env) : well_formed (boot E).
Proof. repeat split; simpl; intros; discriminate. Qed.

Lemma insert_snoc {A : Type} (l : list A) (x y : A) :
  <[length l := y]> (l ++ [x]) = l ++ [y].
Proof. induction l as [|a l IH]; simpl; [reflexivity|now f_equal]. Qed.

(** The world after a catalog entry has been imported, constructed and
    asked to initialize, whether or not init succeeded. *)
Definition fresh_world (n : string) (c : IBarcodeProvider) (w : World) : World :=
  let p := length (heap w) in
  set_heap (heap w ++ [{| cls := c; field := snd (init c None) |}])
    (record (Init p) (record (New p) (record (ImportModule n) w))).

Lemma loadProvider_cached (w : World) (n : string) (p : ref) :
  JSMap.get n (loadedProviders (registry w)) = Some p ->
  ProviderRegistry.loadProvider n w = (Normal p, w).
Proof.
  intros H. unfold ProviderRegistry.loadProvider, bind, gets. simpl. now rewrite H.
Qed.

Lemma loadProvider_unknown (w : World) (n : string) :
  JSMap.get n (loadedProviders (registry w)) = None ->
  JSMap.get n (providers (registry w)) = None ->
  ProviderRegistry.loadProvider n w = (Throw ("Unknown provider: " +:+ n), w).
Proof.
  intros H1 H2. unfold ProviderRegistry.loadProvider, bind, gets. simpl.
  now rewrite H1, H2.
Qed.

Lemma loadProvider_import_fails (w : World) (n e : string) (info : ProviderInfo) :
  JSMap.get n (loadedProviders (registry w)) = None ->
  JSMap.get n (providers (registry w)) = Some info ->
  loader info = Throw e ->
  ProviderRegistry.loadProvider n w = (Throw e, record (ImportModule n) w).
Proof.
  intros H1 H2 H3. unfold ProviderRegistry.loadProvider, bind, gets. simpl.
  rewrite H1, H2. unfold perform, modify, lift. simpl. now rewrite H3.
Qed.

Lemma loadProvider_fresh
    (w : World) (n : string) (info : ProviderInfo) (c : IBarcodeProvider) :
  JSMap.get n (loadedProviders (registry w)) = None ->
  JSMap.get n (providers (registry w)) = Some info ->
  loader info = Normal c ->
  ProviderRegistry.loadProvider n w =
    match fst (init c None) with
    | Normal _ =>
        (Normal (length (heap w)),
         ProviderRegistry.set_loadedProviders
           (JSMap.set n (length (heap w)) (loadedProviders (registry w)))
           (fresh_world n c w))
    | Throw e => (Throw e, fresh_world n c w)
    end.
Proof.
  intros Hcache Hcat Hload.
  unfold ProviderRegistry.loadProvider, bind, gets. simpl.
  rewrite Hcache, Hcat. unfold perform, modify, lift. simpl. rewrite Hload.
  unfold new_, call_init, set_field, deref, bind, gets, perform, modify, lift. simpl.
  rewrite list_lookup_middle by reflexivity. simpl.
  rewrite list_lookup_middle by reflexivity. simpl.
  rewrite insert_snoc. unfold fresh_world.
  destruct (init c None) as [[u|e] h]; reflexivity.
Qed.

(** ** Well-formedness is an invariant of the registry *)

Lemma well_formed_grow (w w' : World) :
  registry w' = registry w ->
  length (heap w) <= length (heap w') ->
  well_formed w -> well_formed w'.
Proof.
  intros Hr Hl (H1 & H2). unfold well_formed. rewrite Hr. split.
  - intros n p H. destruct (H1 n p H) as [Hi Hp]. split; [exact Hi|lia].
  - intros p H. specialize (H2 p H). lia.
Qed.

Lemma loadProvider_well_formed (w : World) (n : string) :
  well_formed w ->
  well_formed (exec (ProviderRegistry.loadProvider n) w)
  /\ forall p, eval (ProviderRegistry.loadProvider n) w = Normal p ->
       p < length (heap (exec (ProviderRegistry.loadProvider n) w)).
Proof.
  intros Hwf. unfold exec, eval.
  destruct (JSMap.get n (loadedProviders (registry w))) as [q|] eqn:Hc.
  { rewrite (loadProvider_cached _ _ _ Hc). simpl. split; [exact Hwf|].
    intros p [= <-]. now destruct Hwf as (H1 & _); destruct (H1 n q Hc). }
  destruct (JSMap.get n (providers (registry w))) as [info|] eqn:Hcat.
  2: { rewrite (loadProvider_unknown _ _ Hc Hcat). simpl.
       split; [exact Hwf|discriminate]. }
  destruct (loader info) as [c|e] eqn:Hl.
  2: { rewrite (loadProvider_import_fails _ _ _ _ Hc Hcat Hl). simpl.
       split; [|discriminate].
       now apply (well_formed_grow w). }
  rewrite (loadProvider_fresh _ _ _ _ Hc Hcat Hl).
  assert (Hfresh : well_formed (fresh_world n c w)).
  { apply (well_formed_grow w); try reflexivity; [|exact Hwf].
    unfold fresh_world. simpl. rewrite length_app. lia. }
  destruct (fst (init c None)); simpl; [|split; [exact Hfresh|discriminate]].
  split.
  - destruct Hfresh as (H1 & H2). split; simpl.
    + intros n0 p0 H. destruct (String.eqb_spec n n0) as [<-|Hne].
      * rewrite JSMap_get_set_eq in H. injection H as <-.
        split; [now exists info|]. rewrite length_app. simpl. lia.
      * rewrite JSMap_get_set_ne in H by exact Hne. exact (H1 n0 p0 H).
    + exact H2.
  - intros p [= <-]. rewrite length_app. simpl. lia.
Qed.

(** C4. load(name), from a well-formed world: a name outside the catalog
    fails with the unknown-provider error and changes nothing; a cached name
    returns the cached instance and changes nothing (no call is made, so no
    init); otherwise the loader is invoked, and if it yields a class, an
    instance is constructed and its init is called; when init returns, the
    instance is cached under the name and returned; when init (or the loader)
    throws, the error reaches the caller and the cache is as before. *)
Theorem loadProvider_postconditions (w : World) (providerName : string) :
  well_formed w ->
  let w' := exec (ProviderRegistry.loadProvider providerName) w in
  let outcome := eval (ProviderRegistry.loadProvider providerName) w in
  match JSMap.get providerName (providers (registry w)) with
  | None =>
      outcome = Throw ("Unknown provider: " +:+ providerName) /\ w' = w
  | Some info =>
      match JSMap.get providerName (loadedProviders (registry w)) with
      | Some cached => outcome = Normal cached /\ w' = w
      | None =>
          match loader info with
          | Throw e =>
              outcome = Throw e
              /\ trace w' = trace w ++ [ImportModule providerName]
              /\ loadedProviders (registry w') = loadedProviders (registry w)
          | Normal c =>
              let p := length (heap w) in
              trace w' = trace w ++ [ImportModule providerName; New p; Init p]
              /\ heap w' = heap w ++ [{| cls := c; field := snd (init c None) |}]
              /\ match fst (init c None) with
                 | Normal _ =>
                     outcome = Normal p
                     /\ JSMap.get providerName (loadedProviders (registry w')) = Some p
                     /\ loadedProviders (registry w')
                        = JSMap.set providerName p (loadedProviders (registry w))
                 | Throw e =>
                     outcome = Throw e
                     /\ JSMap.get providerName (loadedProviders (registry w')) = None
                     /\ loadedProviders (registry w') = loadedProviders (registry w)
                 end
          end
      end
  end.
Proof.
  intros [Hcache _]. unfold exec, eval. cbv zeta.
  destruct (JSMap.get providerName (providers (registry w))) as [info|] eqn:Hcat.
  - destruct (JSMap.get providerName (loadedProviders (registry w))) as [cached|] eqn:Hc.
    + rewrite (loadProvider_cached _ _ _ Hc). split; reflexivity.
    + destruct (loader info) as [c|e] eqn:Hl.
      * rewrite (loadProvider_fresh _ _ _ _ Hc Hcat Hl).
        destruct (fst (init c None)) as [u|e] eqn:Hi; simpl.
        -- rewrite <- !app_assoc. simpl. repeat split.
           apply JSMap_get_set_eq.
        -- rewrite <- !app_assoc. simpl. repeat split. exact Hc.
      * rewrite (loadProvider_import_fails _ _ _ _ Hc Hcat Hl). simpl.
        repeat split.
  - destruct (JSMap.get providerName (loadedProviders (registry w))) as [cached|] eqn:Hc.
    + destruct (Hcache _ _ Hc) as [[info Hinfo] _]. congruence.
    + rewrite (loadProvider_unknown _ _ Hc Hcat). split; reflexivity.
Qed.

(** C4 at the freshly booted registry: 'unknown' is refused, 'zxing' is
    loaded as the first instance. *)
Lemma loadProvider_postconditions_witness :
  well_formed (boot (quiet chrome))
  /\ eval (ProviderRegistry.loadProvider "unknown") (boot (quiet chrome))
     = Throw "Unknown provider: unknown"
  /\ eval (ProviderRegistry.loadProvider "zxing") (boot (quiet chrome)) = Normal 0.
Proof.
  split; [apply boot_well_formed|]. split.
  - exact (proj1 (loadProvider_postconditions (boot (quiet chrome)) "unknown"
                    (boot_well_formed (quiet chrome)))).
  - exact (proj1 (proj2 (proj2 (loadProvider_postconditions (boot (quiet chrome)) "zxing"
                    (boot_well_formed (quiet chrome)))))).
Defined.

(** What destroy?.() leaves of an instance. *)
Definition after_destroy (o : Obj) : Obj :=
  match destroy (cls o) with
  | Some d => {| cls := cls o; field := d (field o) |}
  | None => o
  end.

Lemma call_destroy_allocated (w : World) (p : ref) (o : Obj) :
  heap w !! p = Some o ->
  call_destroy p w =
    (Normal tt,
     match destroy (cls o) with
     | Some d => set_heap (<[p := after_destroy o]> (heap w)) (record (Destroy p) w)
     | None => w
     end).
Proof.
  intros H. unfold call_destroy, after_destroy, deref, bind. rewrite H.
  destruct (destroy (cls o)) as [d|]; [|reflexivity].
  unfold set_field, perform, modify, deref, bind. simpl. now rewrite H.
Qed.

Lemma call_destroy_registry (p : ref) : preserves registry (call_destroy p).
Proof. unfold call_destroy, set_field, perform. frame. Qed.

Lemma call_destroy_scanner (p : ref) : preserves scanner (call_destroy p).
Proof. unfold call_destroy, set_field, perform. frame. Qed.

Lemma loadProvider_keeps_entry (w : World) (n n' : string) (p : ref) :
  JSMap.get n (loadedProviders (registry w)) = Some p ->
  JSMap.get n (loadedProviders (registry (exec (ProviderRegistry.loadProvider n') w)))
    = Some p.
Proof.
  intros H. unfold exec.
  destruct (JSMap.get n' (loadedProviders (registry w))) as [q|] eqn:Hc.
  { now rewrite (loadProvider_cached _ _ _ Hc). }
  destruct (JSMap.get n' (providers (registry w))) as [info|] eqn:Hcat.
  2: { now rewrite (loadProvider_unknown _ _ Hc Hcat). }
  destruct (loader info) as [c|e] eqn:Hl.
  2: { now rewrite (loadProvider_import_fails _ _ _ _ Hc Hcat Hl). }
  rewrite (loadProvider_fresh _ _ _ _ Hc Hcat Hl).
  destruct (fst (init c None)); simpl; [|exact H].
  rewrite JSMap_get_set_ne; [exact H|]. intros ->. congruence.
Qed.

(** setCurrentProvider never removes an entry from the load cache: whatever
    was cached under a name is still what a later load of that name returns,
    without any construction or init. *)
Lemma setCurrentProvider_keeps_entry (w : World) (n n' : string) (p : ref) :
  JSMap.get n (loadedProviders (registry w)) = Some p ->
  let w' := exec (ProviderRegistry.setCurrentProvider n') w in
  ProviderRegistry.loadProvider n w' = (Normal p, w').
Proof.
  intros H w'. apply loadProvider_cached. subst w'.
  unfold exec, ProviderRegistry.setCurrentProvider.
  unfold bind at 1. unfold gets at 1. simpl.
  set (d := match currentProvider (registry w) with
            | Some q => call_destroy q
            | None => ret tt
            end).
  assert (Hd : registry (snd (d w)) = registry w).
  { subst d. destruct (currentProvider (registry w)); [apply call_destroy_registry|reflexivity]. }
  unfold bind at 1. destruct (d w) as [[[]|e] w1]; simpl in *; [|now rewrite Hd].
  assert (H1 : JSMap.get n (loadedProviders (registry w1)) = Some p) by now rewrite Hd.
  pose proof (loadProvider_keeps_entry w1 n n' p H1) as H2. unfold exec in H2.
  unfold bind at 1.
  destruct (ProviderRegistry.loadProvider n' w1) as [[q|e] w2]; simpl in *; [|exact H2].
  unfold bind, modify, try_catch, ProviderRegistry.setItem. simpl.
  destruct (accessible (localStorage w2)); simpl; exact H2.
Qed.

Lemma setCurrentProvider_well_formed (w : World) (n : string) :
  well_formed w -> well_formed (exec (ProviderRegistry.setCurrentProvider n) w).
Proof.
  intros Hwf. unfold exec, ProviderRegistry.setCurrentProvider.
  unfold bind at 1. unfold gets at 1. simpl.
  set (d := match currentProvider (registry w) with
            | Some q => call_destroy q
            | None => ret tt
            end).
  assert (Hd : well_formed (snd (d w))).
  { subst d. destruct (currentProvider (registry w)) as [q|] eqn:Hq; [|exact Hwf].
    pose proof Hwf as (H1 & H2).
    destruct (lookup_lt_is_Some_2 _ _ (H2 q Hq)) as [o Ho].
    rewrite (call_destroy_allocated _ _ _ Ho). simpl.
    destruct (destroy (cls o)); [|exact Hwf].
    apply (well_formed_grow w); try reflexivity; [|exact Hwf].
    simpl. now rewrite length_insert. }
  unfold bind at 1. destruct (d w) as [[[]|e] w1]; simpl in *; [|exact Hd].
  destruct (loadProvider_well_formed w1 n Hd) as [Hl Hp]. unfold exec, eval in *.
  unfold bind at 1.
  destruct (ProviderRegistry.loadProvider n w1) as [[q|e] w2]; simpl in *; [|exact Hl].
  specialize (Hp q eq_refl).
  assert (Hcur : well_formed (ProviderRegistry.set_currentProvider (Some q) w2)).
  { destruct Hl as (H1 & H2). split; simpl.
    - exact H1.
    - intros p [= <-]. exact Hp. }
  unfold bind, modify, try_catch, ProviderRegistry.setItem. simpl.
  destruct (accessible (localStorage w2)); simpl; [|exact Hcur].
  now apply (well_formed_grow (ProviderRegistry.set_currentProvider (Some q) w2)).
Qed.

(** The world in which 'zxing' was made current and then replaced by
    'zxing-wasm'. *)
Definition zxing_current : World :=
  exec (ProviderRegistry.setCurrentProvider "zxing") (boot (quiet chrome)).

Definition switched_to_wasm : World :=
  exec (ProviderRegistry.setCurrentProvider "zxing-wasm") zxing_current.

(** C1 (evaluation at the failing input). After setCurrentProvider('zxing')
    and setCurrentProvider('zxing-wasm'), the instance first loaded under
    'zxing' has been destroyed, yet loadProvider('zxing') returns that very
    instance, constructs nothing and calls no init; and making 'zxing'
    current again yields an instance whose scans throw the not-initialized
    error. *)
Theorem load_after_switch_returns_destroyed_instance :
  eval (ProviderRegistry.setCurrentProvider "zxing") (boot (quiet chrome)) = Normal 0
  /\ field <$> heap zxing_current !! 0 = Some (Some EngineHandle)
  /\ field <$> heap switched_to_wasm !! 0 = Some None
  /\ ProviderRegistry.loadProvider "zxing" switched_to_wasm
     = (Normal 0, switched_to_wasm)
  /\ eval (let* p := ProviderRegistry.setCurrentProvider "zxing" in
           call_scanImage p (HTMLCanvasElement (qr "x"))) switched_to_wasm
     = Throw "ZXing provider not initialized".
Proof.
  split; [reflexivity|]. split; [reflexivity|]. split; [reflexivity|].
  split; [|reflexivity].
  apply (setCurrentProvider_keeps_entry zxing_current "zxing" "zxing-wasm" 0).
  reflexivity.
Qed.

(** The claim of C2 at one world and name: the call fails with the
    unknown-provider error, the current-provider reference is as before and
    the instance it refers to is as before. *)
Definition setCurrent_unknown_is_atomic (w : World) (u : string) : Prop :=
  let w' := exec (ProviderRegistry.setCurrentProvider u) w in
  eval (ProviderRegistry.setCurrentProvider u) w = Throw ("Unknown provider: " +:+ u)
  /\ currentProvider (registry w') = currentProvider (registry w)
  /\ forall p, currentProvider (registry w) = Some p -> heap w' !! p = heap w !! p.

(** C2 (counterexample). With 'zxing' current, setCurrentProvider('unknown')
    fails with the unknown-provider error, but the current instance has been
    destroyed on the way. *)
Lemma setCurrentProvider_unknown_not_atomic :
  ~ setCurrent_unknown_is_atomic zxing_current "unknown".
Proof.
  intros (_ & _ & H). specialize (H 0 eq_refl).
  apply (f_equal (fmap field)) in H. vm_compute in H. discriminate.
Qed.

(** C2 (amended). For a name outside the catalog, setCurrentProvider, from a
    well-formed world, fails with the unknown-provider error; the
    current-provider reference and the load cache are as before; the
    instance that reference names, if any, has had its destroy called when
    its class has one, and every other instance is untouched. *)
Theorem setCurrentProvider_unknown (w : World) (u : string) :
  well_formed w ->
  JSMap.get u (providers (registry w)) = None ->
  let w' := exec (ProviderRegistry.setCurrentProvider u) w in
  eval (ProviderRegistry.setCurrentProvider u) w = Throw ("Unknown provider: " +:+ u)
  /\ currentProvider (registry w') = currentProvider (registry w)
  /\ loadedProviders (registry w') = loadedProviders (registry w)
  /\ match currentProvider (registry w) with
     | None => w' = w
     | Some p =>
         exists o, heap w !! p = Some o
           /\ heap w' = <[p := after_destroy o]> (heap w)
           /\ heap w' !! p = Some (after_destroy o)
           /\ trace w' = trace w ++ match destroy (cls o) with
                                    | Some _ => [Destroy p]
                                    | None => []
                                    end
     end.
Proof.
  intros (Hcache & Hcur) Hcat.
  assert (Hc : JSMap.get u (loadedProviders (registry w)) = None).
  { destruct (JSMap.get u (loadedProviders (registry w))) as [q|] eqn:Hq; [|reflexivity].
    destruct (Hcache _ _ Hq) as [[info Hinfo] _]. congruence. }
  assert (Hrun : ProviderRegistry.setCurrentProvider u w =
            (Throw ("Unknown provider: " +:+ u),
             match currentProvider (registry w) with
             | Some p =>
                 match heap w !! p with
                 | Some o =>
                     match destroy (cls o) with
                     | Some d =>
                         set_heap (<[p := after_destroy o]> (heap w)) (record (Destroy p) w)
                     | None => w
                     end
                 | None => w
                 end
             | None => w
             end)).
  { unfold ProviderRegistry.setCurrentProvider.
    unfold bind at 1. unfold gets at 1. simpl.
    destruct (currentProvider (registry w)) as [p|] eqn:Hp.
    - destruct (lookup_lt_is_Some_2 _ _ (Hcur p eq_refl)) as [o Ho].
      unfold bind. rewrite (call_destroy_allocated _ _ _ Ho). rewrite Ho.
      destruct (destroy (cls o)) as [d|];
        now rewrite loadProvider_unknown by assumption.
    - unfold bind, ret. now rewrite loadProvider_unknown by assumption. }
  unfold exec, eval. cbv zeta. rewrite Hrun. simpl.
  destruct (currentProvider (registry w)) as [p|] eqn:Hp.
  - pose proof (Hcur p eq_refl) as Hlt.
    destruct (lookup_lt_is_Some_2 _ _ Hlt) as [o Ho]. rewrite Ho.
    split; [reflexivity|].
    split; [now destruct (destroy (cls o))|].
    split; [now destruct (destroy (cls o))|].
    exists o. split; [reflexivity|].
    unfold after_destroy. destruct (destroy (cls o)) as [d|]; simpl.
    + split; [reflexivity|]. split; [|reflexivity].
      now apply list_lookup_insert_eq.
    + rewrite list_insert_id by assumption.
      split; [reflexivity|]. split; [assumption|]. now rewrite app_nil_r.
  - repeat split; first [reflexivity|assumption].
Qed.

Lemma zxing_current_well_formed : well_formed zxing_current.
Proof. apply setCurrentProvider_well_formed, boot_well_formed. Qed.

(** C2 (amended) at the registry whose current provider is 'zxing'. *)
Lemma setCurrentProvider_unknown_witness :
  eval (ProviderRegistry.setCurrentProvider "unknown") zxing_current
    = Throw "Unknown provider: unknown"
  /\ currentProvider (registry (exec (ProviderRegistry.setCurrentProvider "unknown")
                                  zxing_current)) = Some 0.
Proof.
  pose proof (setCurrentProvider_unknown zxing_current "unknown"
                zxing_current_well_formed eq_refl) as H.
  split; [exact (proj1 H)|exact (proj1 (proj2 H))].
Defined.

(** ** Benchmark reports *)

(** The step of the reduction that picks the fastest result. *)
Definition faster (fastest current : BenchmarkResult) : BenchmarkResult :=
  if BenchmarkRunner.Qltb (duration current) (duration fastest) then current else fastest.

(** [r] is one of [l] and none of [l] took less time. *)
Definition fastest_of (r : BenchmarkResult) (l : list BenchmarkResult) : Prop :=
  In r l /\ forall r', In r' l -> (duration r <= duration r')%Q.

Lemma Qltb_lt (x y : Q) : BenchmarkRunner.Qltb x y = true <-> (x < y)%Q.
Proof.
  unfold BenchmarkRunner.Qltb. rewrite negb_true_iff.
  split.
  - intros H. apply Qnot_le_lt. intros Hle.
    apply Qle_bool_iff in Hle. congruence.
  - intros H. destruct (Qle_bool y x) eqn:E; [|reflexivity].
    apply Qle_bool_iff in E. exfalso. exact (Qlt_not_le _ _ H E).
Qed.

Lemma Qltb_ge (x y : Q) : BenchmarkRunner.Qltb x y = false -> (y <= x)%Q.
Proof.
  unfold BenchmarkRunner.Qltb. rewrite negb_false_iff. apply Qle_bool_iff.
Qed.

Lemma faster_cases (x a : BenchmarkResult) :
  (faster x a = x \/ faster x a = a)
  /\ (duration (faster x a) <= duration x)%Q
  /\ (duration (faster x a) <= duration a)%Q.
Proof.
  unfold faster.
  destruct (BenchmarkRunner.Qltb (duration a) (duration x)) eqn:E.
  - apply Qltb_lt in E. repeat split.
    + now right.
    + now apply Qlt_le_weak.
    + apply Qle_refl.
  - apply Qltb_ge in E. repeat split.
    + now left.
    + apply Qle_refl.
    + exact E.
Qed.

Lemma fold_faster_spec (l : list BenchmarkResult) (x : BenchmarkResult) :
  fastest_of (fold_left faster l x) (x :: l).
Proof.
  revert x. induction l as [|a l IH]; intros x; simpl.
  - split; [now left|]. intros r' [<-|[]]. apply Qle_refl.
  - destruct (IH (faster x a)) as [Hin Hmin].
    destruct (faster_cases x a) as (Hc & Hx & Ha).
    split.
    + destruct Hin as [Hin|Hin].
      * destruct Hc as [Hc|Hc]; [left|right; left];
          (transitivity (faster x a); [symmetry; exact Hc|exact Hin]).
      * right; now right.
    + intros r' [<-|[<-|Hr]].
      * eapply Qle_trans; [apply Hmin; now left|exact Hx].
      * eapply Qle_trans; [apply Hmin; now left|exact Ha].
      * apply Hmin. now right.
Qed.

(** A registry with two providers: A decodes every image, B's scanImage
    throws. *)
Definition providerA : IBarcodeProvider :=
  {| name := "A";
     init := fun _ => (Normal tt, Some EngineHandle);
     scanVideoFrame := fun _ _ => Normal (Some "decoded by A");
     scanImage := fun _ _ => Normal (Some "decoded by A");
     destroy := Some (fun _ => None) |}.

Definition providerB : IBarcodeProvider :=
  {| name := "B";
     init := fun _ => (Normal tt, Some EngineHandle);
     scanVideoFrame := fun _ _ => Throw "B cannot decode";
     scanImage := fun _ _ => Throw "B cannot decode";
     destroy := Some (fun _ => None) |}.

Definition catalogAB : JSMap.t ProviderInfo :=
  JSMap.set "B" {| info_name := "B"; displayName := "B";
                   description := "always throws"; loader := Normal providerB |}
  (JSMap.set "A" {| info_name := "A"; displayName := "A";
                    description := "always decodes"; loader := Normal providerA |}
   JSMap.empty).

Definition worldAB (E : Env) : World :=
  set_registry {| providers := catalogAB;
                  loadedProviders := JSMap.empty;
                  currentProvider := None |} (boot E).

(** Every call is instantaneous, except that a scanImage call takes 10 ms. *)
Definition scan_takes_10ms : Env :=
  {| browser := chrome;
     latency := fun c => match c with ScanImage _ => 10%Q | _ => 0%Q end;
     preview := fun _ => still blank;
     getUserMedia := Normal tt;
     play := Normal tt;
     toDataURL := fun _ => "data:image/jpeg;base64," |}.

(** Importing a provider module takes 30 ms, init 20 ms and scanImage
    10 ms. *)
Definition slow_loading : Env :=
  {| browser := chrome;
     latency := fun c => match c with
                         | ImportModule _ => 30%Q
                         | Init _ => 20%Q
                         | ScanImage _ => 10%Q
                         | _ => 0%Q
                         end;
     preview := fun _ => still blank;
     getUserMedia := Normal tt;
     play := Normal tt;
     toDataURL := fun _ => "data:image/jpeg;base64," |}.

Definition photo : File :=
  {| file_name := "code.png"; file_type := "image/png"; content := Picture (qr "x") |}.

(** C6 (evaluation at the failing input).  generateReport names as
    fastestProvider a successful result that no successful result beats in
    duration, and null when nothing succeeded; averageDuration is 0 when
    nothing succeeded and successRate is 0 for an empty list.  But the
    scenario of the claim does not come out: with providers A, whose
    scanImage decodes in 10 ms, and B, whose scanImage throws, on a registry
    that has loaded neither, where importing a module takes 30 ms and init
    20 ms, benchmarkImageScan reports successRate 1/2, fastestProvider "A"
    and a failed entry for B with its error, yet averageDuration 60: the
    duration recorded for A includes the loading.  The averageDuration 10 of
    the claim is reported by a second run, which finds A in the load cache,
    and where loading takes no time. *)
Theorem benchmarkImageScan_average_includes_loading :
  (forall (testName : string) (results : list BenchmarkResult),
     let report := BenchmarkRunner.generateReport testName results in
     let successful := List.filter success results in
     match successful with
     | [] =>
         fastestProvider (summary report) = None
         /\ averageDuration (summary report) = Number.zero
     | _ :: _ =>
         exists r, fastest_of r successful
                   /\ fastestProvider (summary report) = Some (providerName r)
     end
     /\ (results = [] -> successRate (summary report) = Number.zero))
  /\ match (let* first := BenchmarkRunner.benchmarkImageScan photo in
            let* second := BenchmarkRunner.benchmarkImageScan photo in
            ret (first, second)) (worldAB slow_loading) with
     | (Normal (first, second), _) =>
         successRate (summary first) = Number.of_Q (1 # 2)
         /\ fastestProvider (summary first) = Some "A"
         /\ averageDuration (summary first) = Number.of_Q 60
         /\ averageDuration (summary first) <> Number.of_Q 10
         /\ match results first with
            | [a; b] =>
                providerName a = "A" /\ success a = true /\ (duration a == 60)%Q
                /\ providerName b = "B" /\ success b = false
                /\ error b = Some "B cannot decode"
            | _ => False
            end
         /\ successRate (summary second) = Number.of_Q (1 # 2)
         /\ fastestProvider (summary second) = Some "A"
         /\ averageDuration (summary second) = Number.of_Q 10
     | _ => False
     end
  /\ match eval (BenchmarkRunner.benchmarkImageScan photo) (worldAB scan_takes_10ms) with
     | Throw _ => False
     | Normal report =>
         successRate (summary report) = Number.of_Q (1 # 2)
         /\ fastestProvider (summary report) = Some "A"
         /\ averageDuration (summary report) = Number.of_Q 10
         /\ match results report with
            | [a; b] =>
                providerName a = "A" /\ success a = true /\ (duration a == 10)%Q
                /\ providerName b = "B" /\ success b = false
                /\ error b = Some "B cannot decode"
            | _ => False
            end
     end.
Proof.
  split; [|split].
  - intros testName results report successful.
    subst report. unfold BenchmarkRunner.generateReport. simpl.
    fold successful. split.
    + destruct successful as [|x l] eqn:Hs; simpl.
      * split; reflexivity.
      * exists (fold_left faster l x). split; [apply fold_faster_spec|reflexivity].
    + intros ->. reflexivity.
  - vm_compute. repeat split; try reflexivity. discriminate.
  - vm_compute. repeat split; reflexivity.
Qed.

(** Numbers round and overflow: one success out of three gives the double
    nearest to 1/3 as success rate, and durations whose sum is beyond the
    largest double give Infinity as average. *)
Lemma summary_numbers_are_doubles :
  successRate
    (summary
       (BenchmarkRunner.generateReport "one of three"
          [ {| providerName := "A"; success := true; duration := 10;
               error := None; result := Some "x" |};
            {| providerName := "B"; success := false; duration := 0;
               error := Some "B cannot decode"; result := None |};
            {| providerName := "C"; success := false; duration := 0;
               error := Some "C cannot decode"; result := None |} ]))
  = S754_finite false 6004799503160661 (-54)
  /\ averageDuration
       (summary
          (BenchmarkRunner.generateReport "overflow"
             [ {| providerName := "A"; success := true;
                  duration := inject_Z (2 ^ 1023);
                  error := None; result := Some "x" |};
               {| providerName := "B"; success := true;
                  duration := inject_Z (2 ^ 1023);
                  error := None; result := Some "x" |} ]))
     = S754_infinity false.
Proof. split; vm_compute; reflexivity. Qed.

(** C7 (evaluation at the failing input). With a provider that takes 30 ms
    to import, 20 ms to initialize and 10 ms to scan, the first
    benchmarkImageScan records 60 ms for it: loading and initializing are
    inside the measured interval.  A second run, which finds the instance in
    the load cache, records the 10 ms of the scan. *)
Theorem benchmarkImageScan_duration_includes_loading :
  match (let* first := BenchmarkRunner.benchmarkImageScan photo in
         let* second := BenchmarkRunner.benchmarkImageScan photo in
         ret (results first, results second)) (worldAB slow_loading) with
  | (Normal (a1 :: _, a2 :: _), _) =>
      providerName a1 = "A" /\ success a1 = true /\ (duration a1 == 60)%Q
      /\ providerName a2 = "A" /\ success a2 = true /\ (duration a2 == 10)%Q
  | _ => False
  end.
Proof. vm_compute. repeat split; reflexivity. Qed.

(** ** The sampling loop *)

(** The world after one scanVideoFrame call on instance [p]. *)
Definition sampled_world (p : ref) (w : World) : World :=
  record (ScanVideoFrame p) (set_sampled (S (sampled w)) w).

(** What the decode attempt on the [i]-th next sample of the preview
    yields, for the provider the scan engine holds. *)
Definition attempt (w : World) (i : nat) : completion (option string) :=
  match scanner_currentProvider (scanner w) with
  | None => Throw "No provider initialized"
  | Some p =>
      match heap w !! p with
      | None => Throw "dangling reference"
      | Some o => scanVideoFrame (cls o) (field o) (preview (env w) (sampled w + i))
      end
  end.

(** An attempt that makes the loop emit a result: it returns text that is
    not empty. *)
Definition decodes (c : completion (option string)) : bool :=
  match c with
  | Normal r => truthy_result r
  | Throw _ => false
  end.

Definition is_scan (c : Call) : bool :=
  match c with
  | ScanVideoFrame _ => true
  | _ => false
  end.

Definition is_success_event (c : Call) : bool :=
  match c with
  | Emit EvSuccess _ => true
  | _ => false
  end.

(** Number of scanVideoFrame calls, and of emitted success events, in a
    trace. *)
Definition scans (l : list Call) : nat := length (List.filter is_scan l).

Definition success_events (l : list Call) : nat :=
  length (List.filter is_success_event l).

(** The snapshot emitted with a result found in world [w]. *)
Definition snapshot (w : World) : string :=
  toDataURL (env w) (videoFrame (preview (env w) (sampled w))).

Lemma scans_app (l l' : list Call) : scans (l ++ l') = scans l + scans l'.
Proof. unfold scans. now rewrite List.filter_app, length_app. Qed.

Lemma success_events_app (l l' : list Call) :
  success_events (l ++ l') = success_events l + success_events l'.
Proof. unfold success_events. now rewrite List.filter_app, length_app. Qed.

Lemma scanFrame_no_provider (w : World) :
  scanner_currentProvider (scanner w) = None ->
  BarcodeScanner.scanFrame w = (Throw "No provider initialized", w).
Proof.
  intros H. unfold BarcodeScanner.scanFrame, bind, gets. simpl. now rewrite H.
Qed.

Lemma scanFrame_dangling (w : World) (p : ref) :
  scanner_currentProvider (scanner w) = Some p -> heap w !! p = None ->
  BarcodeScanner.scanFrame w = (Throw "dangling reference", w).
Proof.
  intros H1 H2. unfold BarcodeScanner.scanFrame, bind, gets. simpl. rewrite H1.
  unfold call_scanVideoFrame, deref, bind. now rewrite H2.
Qed.

Lemma scanFrame_call (w : World) (p : ref) (o : Obj) :
  scanner_currentProvider (scanner w) = Some p -> heap w !! p = Some o ->
  BarcodeScanner.scanFrame w =
    (scanVideoFrame (cls o) (field o) (preview (env w) (sampled w)), sampled_world p w).
Proof.
  intros H1 H2. unfold BarcodeScanner.scanFrame, bind, gets. simpl. rewrite H1.
  unfold call_scanVideoFrame, deref, bind, gets, perform, modify, lift. now rewrite H2.
Qed.

Lemma scanFrame_attempt (w : World) : eval BarcodeScanner.scanFrame w = attempt w 0.
Proof.
  unfold eval, attempt. rewrite Nat.add_0_r.
  destruct (scanner_currentProvider (scanner w)) as [p|] eqn:Hp.
  - destruct (heap w !! p) as [o|] eqn:Ho.
    + now rewrite (scanFrame_call _ _ _ Hp Ho).
    + now rewrite (scanFrame_dangling _ _ Hp Ho).
  - now rewrite (scanFrame_no_provider _ Hp).
Qed.

(** Delivering an event to callbacks changes nothing in the world. *)
Lemma deliver_world (d : EventData) (l : list Listener) (w : World) :
  snd (forEach (fun callback => lift (callback d)) l w) = w.
Proof.
  revert w. induction l as [|c l IH]; intros w; simpl; [reflexivity|].
  unfold bind, lift. destruct (c d); simpl; [apply IH|reflexivity].
Qed.

Lemma deliver_all_return (d : EventData) (l : list Listener) (w : World) :
  Forall (fun callback : Listener => forall d', callback d' = Normal tt) l ->
  forEach (fun callback => lift (callback d)) l w = (Normal tt, w).
Proof.
  intros H. revert w. induction H as [|c l Hc _ IH]; intros w; simpl; [reflexivity|].
  unfold bind, lift. rewrite Hc. apply IH.
Qed.

Lemma emit_world (ev : ScannerEventType) (d : EventData) (w : World) :
  snd (BarcodeScanner.emit ev d w) = record (Emit ev d) w.
Proof.
  unfold BarcodeScanner.emit, bind, perform, modify, gets. simpl.
  pose proof (deliver_world d (eventListeners (scanner w) ev) (record (Emit ev d) w)) as H.
  simpl in H.
  destruct (forEach _ _ _) as [[u|e] w']; simpl in *; exact H.
Qed.

Lemma emit_all_return (ev : ScannerEventType) (d : EventData) (w : World) :
  Forall (fun callback : Listener => forall d', callback d' = Normal tt)
    (eventListeners (scanner w) ev) ->
  BarcodeScanner.emit ev d w = (Normal tt, record (Emit ev d) w).
Proof.
  intros H. unfold BarcodeScanner.emit, bind, perform, modify, gets. simpl.
  now rewrite (deliver_all_return d _ (record (Emit ev d) w) H).
Qed.

(** One invocation of startScanningLoop while scanning, in terms of the
    decode attempt it makes. *)
Lemma startScanningLoop_scanning (w : World) :
  isScanning (scanner w) = true ->
  BarcodeScanner.startScanningLoop w =
    let w1 := exec BarcodeScanner.scanFrame w in
    match eval BarcodeScanner.scanFrame w with
    | Normal (Some t) =>
        if truthy t then
          if canvas2d (browser (env w1)) then
            let d := ResultData {| text := t; imageData := snapshot w1 |} in
            (match eval (BarcodeScanner.emit EvSuccess d) w1 with
             | Normal _ => Normal BarcodeScanner.Ended
             | Throw _ => Normal BarcodeScanner.Rescheduled
             end, record (Emit EvSuccess d) w1)
          else (Normal BarcodeScanner.Rescheduled, w1)
        else (Normal BarcodeScanner.Rescheduled, w1)
    | _ => (Normal BarcodeScanner.Rescheduled, w1)
    end.
Proof.
  intros Hs. unfold BarcodeScanner.startScanningLoop, exec, eval.
  unfold bind at 1. unfold gets at 1. simpl. rewrite Hs. simpl.
  unfold try_catch, bind at 1.
  destruct (BarcodeScanner.scanFrame w) as [[[t|]|e] w1]; simpl; try reflexivity.
  destruct (truthy t); simpl; [|reflexivity].
  unfold BarcodeScanner.captureFrame, bind, gets. simpl.
  destruct (canvas2d (browser (env w1))); simpl; [|reflexivity].
  pose proof (emit_world EvSuccess
                (ResultData {| text := t; imageData := snapshot w1 |}) w1) as Hw.
  unfold snapshot in *.
  destruct (BarcodeScanner.emit _ _ w1) as [[u|e] w2]; simpl in *; now subst w2.
Qed.

Lemma attempt_provider (w : World) (i : nat) (r : option string) :
  attempt w i = Normal r ->
  exists p o, scanner_currentProvider (scanner w) = Some p /\ heap w !! p = Some o.
Proof.
  unfold attempt. intros H.
  destruct (scanner_currentProvider (scanner w)) as [p|]; [|discriminate].
  destruct (heap w !! p) as [o|] eqn:Ho; [|discriminate].
  exists p, o. split; [reflexivity|exact Ho].
Qed.

Lemma attempt_shift (w : World) (p : ref) (i : nat) :
  attempt (record (Delay 100) (sampled_world p w)) i = attempt w (S i).
Proof. unfold attempt. simpl. now rewrite Nat.add_succ_r. Qed.

Definition listeners_return (w : World) : Prop :=
  Forall (fun callback : Listener => forall d, callback d = Normal tt)
    (eventListeners (scanner w) EvSuccess).

(** An invocation whose attempt does not decode reschedules itself, having
    made one scanVideoFrame call and emitted nothing. *)
Lemma startScanningLoop_no_decode (w : World) (p : ref) (o : Obj) :
  isScanning (scanner w) = true ->
  scanner_currentProvider (scanner w) = Some p -> heap w !! p = Some o ->
  decodes (attempt w 0) = false ->
  BarcodeScanner.startScanningLoop w
    = (Normal BarcodeScanner.Rescheduled, sampled_world p w).
Proof.
  intros Hs Hp Ho Hd. rewrite (startScanningLoop_scanning _ Hs).
  rewrite <- scanFrame_attempt in Hd. unfold exec, eval in *.
  rewrite (scanFrame_call _ _ _ Hp Ho) in *. simpl in *.
  destruct (scanVideoFrame (cls o) (field o) (preview (env w) (sampled w)))
    as [[t|]|e]; simpl in *; try reflexivity.
  now rewrite Hd.
Qed.

(** An invocation whose attempt returns non-empty text emits one success
    event and ends the loop, when the snapshot can be taken and the listeners
    return. *)
Lemma startScanningLoop_decode (w : World) (p : ref) (o : Obj) (t : string) :
  isScanning (scanner w) = true ->
  canvas2d (browser (env w)) = true ->
  listeners_return w ->
  scanner_currentProvider (scanner w) = Some p -> heap w !! p = Some o ->
  attempt w 0 = Normal (Some t) -> truthy t = true ->
  BarcodeScanner.startScanningLoop w
    = (Normal BarcodeScanner.Ended,
       record (Emit EvSuccess
                 (ResultData {| text := t; imageData := snapshot (sampled_world p w) |}))
         (sampled_world p w)).
Proof.
  intros Hs Hc Hl Hp Ho Ha Ht. rewrite (startScanningLoop_scanning _ Hs).
  rewrite <- scanFrame_attempt in Ha. unfold exec, eval in *.
  rewrite (scanFrame_call _ _ _ Hp Ho) in *. simpl in *.
  rewrite Ha, Ht. simpl. rewrite Hc.
  now rewrite emit_all_return.
Qed.

Lemma runLoop_unfold (timers : nat) :
  BarcodeScanner.runLoop timers =
    (let* state := BarcodeScanner.startScanningLoop in
     match state with
     | BarcodeScanner.Ended => ret BarcodeScanner.Ended
     | BarcodeScanner.Rescheduled =>
         match timers with
         | O => ret BarcodeScanner.Rescheduled
         | S n => perform (Delay 100) >> BarcodeScanner.runLoop n
         end
     end).
Proof. destruct timers; reflexivity. Qed.

Lemma runLoop_until_decode (n : nat) :
  forall (w : World) (t : string) (timers : nat),
    isScanning (scanner w) = true ->
    canvas2d (browser (env w)) = true ->
    listeners_return w ->
    forallb (fun i => negb (decodes (attempt w i))) (seq 0 n) = true ->
    attempt w n = Normal (Some t) -> truthy t = true ->
    n <= timers ->
    let w' := exec (BarcodeScanner.runLoop timers) w in
    eval (BarcodeScanner.runLoop timers) w = Normal BarcodeScanner.Ended
    /\ scans (trace w') = scans (trace w) + S n
    /\ success_events (trace w') = success_events (trace w) + 1.
Proof.
  induction n as [|n IH]; intros w t timers Hs Hc Hl Hnone Ha Ht Hle;
    destruct (attempt_provider _ _ _ Ha) as (p & o & Hp & Ho);
    unfold exec, eval; cbv zeta; rewrite runLoop_unfold; unfold bind at 1 3 5.
  - rewrite (startScanningLoop_decode w p o t) by assumption. simpl.
    rewrite !scans_app, !success_events_app. simpl.
    repeat split; unfold scans, success_events; simpl; lia.
  - simpl in Hnone. apply andb_true_iff in Hnone as [H0 Hrest].
    apply negb_true_iff in H0.
    rewrite (startScanningLoop_no_decode w p o) by assumption.
    destruct timers as [|m]; [lia|].
    unfold bind, perform, modify. simpl.
    set (w2 := record (Delay 100) (sampled_world p w)).
    assert (Hnone2 : forallb (fun i => negb (decodes (attempt w2 i))) (seq 0 n) = true).
    { apply forallb_forall. intros i Hi. subst w2. rewrite attempt_shift.
      rewrite forallb_forall in Hrest. apply (Hrest (S i)).
      rewrite <- seq_shift. now apply in_map. }
    assert (Ha2 : attempt w2 n = Normal (Some t)) by (subst w2; now rewrite attempt_shift).
    destruct (IH w2 t m Hs Hc Hl Hnone2 Ha2 Ht ltac:(lia)) as (He & Hsc & Hev).
    unfold exec, eval in *. rewrite He. split; [reflexivity|].
    rewrite Hsc, Hev. subst w2. simpl.
    rewrite !scans_app, !success_events_app. simpl.
    split; unfold scans, success_events; simpl; lia.
Qed.

(** The scenario of C8 at one world: when the fifth sampled frame, and no
    other, yields non-null text, the loop ends having made exactly five
    scanVideoFrame calls and emitted exactly one success event. *)
Definition fifth_frame_scenario (w : World) : Prop :=
  (forall i, i <> 4 -> attempt w i = Normal None) ->
  (exists t, attempt w 4 = Normal (Some t)) ->
  forall timers, 4 <= timers ->
    let w' := exec (BarcodeScanner.runLoop timers) w in
    eval (BarcodeScanner.runLoop timers) w = Normal BarcodeScanner.Ended
    /\ scans (trace w') = scans (trace w) + 5
    /\ success_events (trace w') = success_events (trace w) + 1.

(** The camera shows, in its fifth sample only, a code whose text is the
    empty string. *)
Definition fifth_sample_empty_code : Env :=
  {| browser := chrome;
     latency := fun _ => 0%Q;
     preview := fun i => if (i =? 4)%nat then still (qr "") else still blank;
     getUserMedia := Normal tt;
     play := Normal tt;
     toDataURL := fun _ => "data:image/jpeg;base64," |}.

Definition scanning_empty_code : World :=
  exec BarcodeScanner.start (boot fifth_sample_empty_code).

(** The camera shows a code in its fifth sample only. *)
Definition fifth_sample_decodes : Env :=
  {| browser := chrome;
     latency := fun _ => 0%Q;
     preview := fun i => if (i =? 4)%nat then still (qr "https://example.com")
                         else still blank;
     getUserMedia := Normal tt;
     play := Normal tt;
     toDataURL := fun _ => "data:image/jpeg;base64," |}.

Definition scanning_fifth : World :=
  exec (BarcodeScanner.on EvSuccess (fun _ => Normal tt) >> BarcodeScanner.start)
    (boot fifth_sample_decodes).

(** C8 (counterexample). Only the fifth sampled frame yields non-null text,
    the empty string; the loop does not end there: with its timer allowed to
    fire ten times it has made eleven scanVideoFrame calls, is still
    rescheduled and has emitted no success event. *)
Lemma loop_continues_on_empty_text :
  ~ fifth_frame_scenario scanning_empty_code
  /\ attempt scanning_empty_code 4 = Normal (Some "")
  /\ eval (BarcodeScanner.runLoop 10) scanning_empty_code
     = Normal BarcodeScanner.Rescheduled
  /\ scans (trace (exec (BarcodeScanner.runLoop 10) scanning_empty_code)) = 11
  /\ success_events (trace (exec (BarcodeScanner.runLoop 10) scanning_empty_code)) = 0.
Proof.
  split; [|repeat split].
  intros H.
  assert (Hothers : forall i, i <> 4 -> attempt scanning_empty_code i = Normal None).
  { intros i Hi.
    do 5 (destruct i as [|i]; [first [reflexivity|congruence]|]). reflexivity. }
  destruct (H Hothers (ex_intro _ "" eq_refl) 10 ltac:(lia)) as [H1 _].
  vm_compute in H1. discriminate.
Qed.

(** C8 (amended). An invocation of the loop after stop() makes no call and
    ends the loop.  While scanning, an attempt that throws never ends it: the
    invocation reschedules itself.  The loop ends only when scanning was
    stopped or when the attempt returned text that is not empty, and then
    exactly one success event, carrying that text, was emitted by the
    invocation.  And when the snapshot can be taken and the success listeners
    return, if the first [n] attempts throw, return null or return the empty
    string and the next one returns non-empty text, then the loop, however
    many more times its timer may fire, ends having made exactly [n + 1]
    scanVideoFrame calls and emitted exactly one success event. *)
Theorem sampling_loop_termination :
  (forall w, BarcodeScanner.startScanningLoop (exec BarcodeScanner.stop w)
             = (Normal BarcodeScanner.Ended, exec BarcodeScanner.stop w))
  /\ (forall w e,
        isScanning (scanner w) = true ->
        eval BarcodeScanner.scanFrame w = Throw e ->
        BarcodeScanner.startScanningLoop w
        = (Normal BarcodeScanner.Rescheduled, exec BarcodeScanner.scanFrame w))
  /\ (forall w,
        eval BarcodeScanner.startScanningLoop w = Normal BarcodeScanner.Ended ->
        isScanning (scanner w) = false
        \/ exists t imageData,
             eval BarcodeScanner.scanFrame w = Normal (Some t)
             /\ truthy t = true
             /\ trace (exec BarcodeScanner.startScanningLoop w)
                = trace (exec BarcodeScanner.scanFrame w)
                  ++ [Emit EvSuccess (ResultData {| text := t; imageData := imageData |})])
  /\ (forall n w t timers,
        isScanning (scanner w) = true ->
        canvas2d (browser (env w)) = true ->
        listeners_return w ->
        forallb (fun i => negb (decodes (attempt w i))) (seq 0 n) = true ->
        attempt w n = Normal (Some t) -> truthy t = true ->
        n <= timers ->
        let w' := exec (BarcodeScanner.runLoop timers) w in
        eval (BarcodeScanner.runLoop timers) w = Normal BarcodeScanner.Ended
        /\ scans (trace w') = scans (trace w) + S n
        /\ success_events (trace w') = success_events (trace w) + 1).
Proof.
  split; [|split; [|split]].
  - intros w. reflexivity.
  - intros w e Hs He. rewrite (startScanningLoop_scanning _ Hs). now rewrite He.
  - intros w H. destruct (isScanning (scanner w)) eqn:Hs; [right|now left].
    unfold eval, exec in *. rewrite (startScanningLoop_scanning _ Hs) in *.
    unfold eval, exec in *. cbv zeta in *.
    destruct (BarcodeScanner.scanFrame w) as [[[t|]|e] w1]; simpl in *;
      try discriminate.
    destruct (truthy t) eqn:Ht; [|discriminate].
    destruct (canvas2d (browser (env w1))); [|discriminate].
    exists t, (snapshot w1). repeat split. exact Ht.
  - intros n. apply (runLoop_until_decode n).
Qed.

(** C8 (amended) at an engine that has a success listener and whose camera
    shows a code in the fifth sample only: five scanVideoFrame calls, one
    success event. *)
Lemma sampling_loop_termination_witness :
  eval (BarcodeScanner.runLoop 10) scanning_fifth = Normal BarcodeScanner.Ended
  /\ scans (trace (exec (BarcodeScanner.runLoop 10) scanning_fifth))
     = scans (trace scanning_fifth) + 5
  /\ success_events (trace (exec (BarcodeScanner.runLoop 10) scanning_fifth))
     = success_events (trace scanning_fifth) + 1.
Proof.
  apply (proj2 (proj2 (proj2 sampling_loop_termination))
           4 scanning_fifth "https://example.com" 10).
  - reflexivity.
  - reflexivity.
  - apply List.Forall_cons; [intros d; reflexivity|apply List.Forall_nil].
  - reflexivity.
  - reflexivity.
  - reflexivity.
  - lia.
Defined.

(** ** Scanning an uploaded file *)

Definition invalidImageFile : string := "Please select a valid image file.".

Definition noCodeFound : string :=
  "No barcode found in the image. Please try another image.".

Lemma call_scanImage_allocated (w : World) (p : ref) (o : Obj) (image : ImageSource) :
  heap w !! p = Some o ->
  call_scanImage p image w = (scanImage (cls o) (field o) image, record (ScanImage p) w).
Proof.
  intros H. unfold call_scanImage, deref, bind, perform, modify, lift. now rewrite H.
Qed.

Lemma scanImageFile_null_held
    (file : File) (w : World) (b : Bitmap) (p : ref) (o : Obj) :
  String.prefix "image/" (file_type file) = true ->
  canvas2d (browser (env w)) = true ->
  content file = Picture b ->
  scanner_currentProvider (scanner w) = Some p ->
  heap w !! p = Some o ->
  scanImage (cls o) (field o) (HTMLImageElement b) = Normal None ->
  BarcodeScanner.scanImageFile file w
    = (Throw noCodeFound, record (ScanImage p) (record NewImage w)).
Proof.
  intros Ht Hc Hb Hp Ho Hscan.
  unfold BarcodeScanner.scanImageFile. rewrite Ht. simpl.
  unfold bind, try_catch, gets, perform, modify, lift, ret, throw. simpl.
  rewrite Hc. simpl. rewrite Hb. simpl. rewrite Hp. simpl.
  rewrite (call_scanImage_allocated (record NewImage w) p o) by exact Ho.
  now rewrite Hscan.
Qed.

Lemma scanImageFile_null_default
    (file : File) (w w1 : World) (b : Bitmap) (p : ref) (o : Obj) :
  String.prefix "image/" (file_type file) = true ->
  canvas2d (browser (env w)) = true ->
  content file = Picture b ->
  scanner_currentProvider (scanner w) = None ->
  ProviderRegistry.initializeDefaultProvider (record NewImage w) = (Normal p, w1) ->
  heap w1 !! p = Some o ->
  scanImage (cls o) (field o) (HTMLImageElement b) = Normal None ->
  BarcodeScanner.scanImageFile file w
    = (Throw noCodeFound,
       record (ScanImage p) (BarcodeScanner.set_currentProvider (Some p) w1)).
Proof.
  intros Ht Hc Hb Hp Hinit Ho Hscan.
  unfold BarcodeScanner.scanImageFile. rewrite Ht. simpl.
  unfold bind, try_catch, gets, perform, modify, lift, ret, throw. simpl.
  rewrite Hc. simpl. rewrite Hb. simpl. rewrite Hp. simpl. rewrite Hinit.
  rewrite (call_scanImage_allocated _ p o) by exact Ho.
  now rewrite Hscan.
Qed.

(** C9. scanImageFile on a file whose type does not start with 'image/'
    rejects with the invalid-image-file error and leaves the world as it was:
    no image element is constructed and no provider is looked up or called.
    On a file of an image type that loads as an image, when the scan engine's
    provider (the one it already holds, or else the default one it
    initializes first) returns null from scanImage, it rejects with the
    no-code-found error; and the two errors have different messages. *)
Theorem scanImageFile_failures :
  (forall (file : File) (w : World),
     String.prefix "image/" (file_type file) = false ->
     BarcodeScanner.scanImageFile file w = (Throw invalidImageFile, w))
  /\ (forall (file : File) (w : World) (b : Bitmap) (p : ref) (o : Obj),
        String.prefix "image/" (file_type file) = true ->
        canvas2d (browser (env w)) = true ->
        content file = Picture b ->
        scanner_currentProvider (scanner w) = Some p ->
        heap w !! p = Some o ->
        scanImage (cls o) (field o) (HTMLImageElement b) = Normal None ->
        eval (BarcodeScanner.scanImageFile file) w = Throw noCodeFound
        /\ trace (exec (BarcodeScanner.scanImageFile file) w)
           = trace w ++ [NewImage; ScanImage p])
  /\ (forall (file : File) (w w1 : World) (b : Bitmap) (p : ref) (o : Obj),
        String.prefix "image/" (file_type file) = true ->
        canvas2d (browser (env w)) = true ->
        content file = Picture b ->
        scanner_currentProvider (scanner w) = None ->
        ProviderRegistry.initializeDefaultProvider (record NewImage w) = (Normal p, w1) ->
        heap w1 !! p = Some o ->
        scanImage (cls o) (field o) (HTMLImageElement b) = Normal None ->
        eval (BarcodeScanner.scanImageFile file) w = Throw noCodeFound
        /\ trace (exec (BarcodeScanner.scanImageFile file) w)
           = trace w1 ++ [ScanImage p])
  /\ invalidImageFile <> noCodeFound.
Proof.
  split; [|split; [|split]].
  - intros file w Ht. unfold BarcodeScanner.scanImageFile. now rewrite Ht.
  - intros file w b p o Ht Hc Hb Hp Ho Hscan. unfold eval, exec.
    rewrite (scanImageFile_null_held file w b p o) by assumption. simpl.
    rewrite <- app_assoc. split; reflexivity.
  - intros file w w1 b p o Ht Hc Hb Hp Hinit Ho Hscan. unfold eval, exec.
    rewrite (scanImageFile_null_default file w w1 b p o) by assumption.
    split; reflexivity.
  - discriminate.
Qed.

(** The scan engine after a successful start() in a browser where nothing is
    in front of the camera. *)
Definition zxing_ready : World := exec BarcodeScanner.start (boot (quiet chrome)).

Definition text_file : File :=
  {| file_name := "notes.txt"; file_type := "text/plain"; content := NotAnImage |}.

Definition blank_photo : File :=
  {| file_name := "wall.png"; file_type := "image/png"; content := Picture blank |}.

(** C9 on a text file, and on a picture without a code, with a provider held
    by the engine and without one. *)
Lemma scanImageFile_failures_witness :
  BarcodeScanner.scanImageFile text_file (boot (quiet chrome))
    = (Throw invalidImageFile, boot (quiet chrome))
  /\ eval (BarcodeScanner.scanImageFile blank_photo) zxing_ready = Throw noCodeFound
  /\ eval (BarcodeScanner.scanImageFile blank_photo) (boot (quiet chrome))
     = Throw noCodeFound.
Proof.
  split; [|split].
  - apply (proj1 scanImageFile_failures text_file (boot (quiet chrome))). reflexivity.
  - apply (proj1 (proj2 scanImageFile_failures) blank_photo zxing_ready blank 0
             {| cls := ZXingProvider_class chrome; field := Some EngineHandle |});
      vm_compute; reflexivity.
  - apply (proj1 (proj2 (proj2 scanImageFile_failures))
             blank_photo (boot (quiet chrome))
             (exec ProviderRegistry.initializeDefaultProvider
                (record NewImage (boot (quiet chrome))))
             blank 0
             {| cls := ZXingProvider_class chrome; field := Some EngineHandle |});
      vm_compute; reflexivity.
Defined.

(** ** The scan engine's own reference to the provider *)

Definition engine_current (w : World) : option ref :=
  scanner_currentProvider (scanner w).

Lemma preserves_setItem {X : Type} (f : World -> X) (value : string) :
  (forall s w, f (set_localStorage s w) = f w) ->
  preserves f (ProviderRegistry.setItem value).
Proof.
  intros H w. unfold ProviderRegistry.setItem.
  destruct (accessible (localStorage w)); simpl; [apply H|reflexivity].
Qed.

Lemma preserves_getItem {X : Type} (f : World -> X) :
  preserves f ProviderRegistry.getItem.
Proof.
  intros w. unfold ProviderRegistry.getItem.
  now destruct (accessible (localStorage w)).
Qed.

Ltac frame_storage :=
  repeat first
    [ frame_step
    | apply preserves_getItem
    | apply preserves_setItem; intros ? ?; reflexivity ].

Lemma loadProvider_engine (n : string) :
  preserves engine_current (ProviderRegistry.loadProvider n).
Proof. unfold ProviderRegistry.loadProvider. frame. Qed.

Lemma setCurrentProvider_engine (n : string) :
  preserves engine_current (ProviderRegistry.setCurrentProvider n).
Proof. unfold ProviderRegistry.setCurrentProvider. frame_storage. Qed.

Lemma initializeDefaultProvider_engine :
  preserves engine_current ProviderRegistry.initializeDefaultProvider.
Proof.
  unfold ProviderRegistry.initializeDefaultProvider.
  apply preserves_bind; [|intros n; apply setCurrentProvider_engine].
  unfold ProviderRegistry.getPreferredProvider. frame_storage.
Qed.

Lemma registry_cleanup_engine : preserves engine_current ProviderRegistry.cleanup.
Proof. unfold ProviderRegistry.cleanup. frame. Qed.

Lemma emit_engine (ev : ScannerEventType) (d : EventData) :
  preserves engine_current (BarcodeScanner.emit ev d).
Proof. unfold BarcodeScanner.emit. frame. Qed.

Lemma scanFrame_engine : preserves engine_current BarcodeScanner.scanFrame.
Proof. unfold BarcodeScanner.scanFrame. frame. Qed.

Lemma startScanningLoop_engine :
  preserves engine_current BarcodeScanner.startScanningLoop.
Proof.
  unfold BarcodeScanner.startScanningLoop.
  apply preserves_bind; [frame|intros scanning].
  destruct (negb scanning); [frame|].
  apply preserves_try_catch; [|intros e; frame].
  apply preserves_bind; [apply scanFrame_engine|intros r].
  destruct r as [t|]; [|frame]. destruct (truthy t); [|frame].
  apply preserves_bind; [unfold BarcodeScanner.captureFrame; frame|intros url].
  apply preserves_bind; [apply emit_engine|intros u; frame].
Qed.

Lemma runLoop_engine (timers : nat) :
  preserves engine_current (BarcodeScanner.runLoop timers).
Proof.
  induction timers as [|n IH]; simpl.
  - apply preserves_bind; [apply startScanningLoop_engine|intros [|]; frame].
  - apply preserves_bind; [apply startScanningLoop_engine|intros [|]]; [|frame].
    apply preserves_bind; [frame|intros u; apply IH].
Qed.

(** start() and scanImageFile() leave the reference alone once it is set. *)
Lemma start_engine_set (w : World) (p : ref) :
  engine_current w = Some p -> engine_current (exec BarcodeScanner.start w) = Some p.
Proof.
  intros Hp. unfold exec, BarcodeScanner.start.
  unfold bind at 1. unfold gets at 1. simpl.
  destruct (isScanning (scanner w)); [exact Hp|].
  unfold try_catch. unfold bind at 1. unfold bind at 1. unfold gets at 1. simpl.
  unfold engine_current in Hp. rewrite Hp. unfold ret at 1.
  set (rest := bind (perform GetUserMedia) _).
  assert (Hrest : preserves engine_current rest) by (subst rest; frame).
  specialize (Hrest w). unfold engine_current in *.
  destruct (rest w) as [[u|e] w1]; simpl in *; [now rewrite Hrest|].
  pose proof (emit_engine EvError (ErrorData e) w1) as He.
  unfold bind, throw, engine_current in *.
  destruct (BarcodeScanner.emit EvError (ErrorData e) w1) as [[u|e'] w2];
    simpl in *; congruence.
Qed.

Lemma scanImageFile_engine_set (file : File) (w : World) (p : ref) :
  engine_current w = Some p ->
  engine_current (exec (BarcodeScanner.scanImageFile file) w) = Some p.
Proof.
  intros Hp. unfold exec, BarcodeScanner.scanImageFile.
  destruct (negb (String.prefix "image/" (file_type file))); [exact Hp|].
  unfold bind at 1. unfold perform, modify. simpl.
  unfold bind at 1. unfold gets at 1. simpl.
  destruct (negb (canvas2d (browser (env w)))); [exact Hp|].
  destruct (content file) as [| |b]; try exact Hp.
  unfold bind at 1. unfold try_catch. unfold bind at 1. unfold gets at 1. simpl.
  unfold engine_current in Hp. rewrite Hp. unfold bind at 1. unfold ret at 1.
  set (rest := bind (call_scanImage p (HTMLImageElement b)) _).
  assert (Hrest : preserves engine_current rest)
    by (subst rest; unfold call_scanImage; frame).
  specialize (Hrest (record NewImage w)). unfold engine_current in *. simpl in Hrest.
  destruct (rest (record NewImage w)) as [[[r|e]|e] w1]; simpl in *; congruence.
Qed.

Lemma loadProvider_heap_lookup (w : World) (n : string) (p : ref) :
  p < length (heap w) ->
  heap (exec (ProviderRegistry.loadProvider n) w) !! p = heap w !! p.
Proof.
  intros Hlt. unfold exec.
  destruct (JSMap.get n (loadedProviders (registry w))) as [q|] eqn:Hc.
  { now rewrite (loadProvider_cached _ _ _ Hc). }
  destruct (JSMap.get n (providers (registry w))) as [info|] eqn:Hcat.
  2: { now rewrite (loadProvider_unknown _ _ Hc Hcat). }
  destruct (loader info) as [c|e] eqn:Hl.
  2: { now rewrite (loadProvider_import_fails _ _ _ _ Hc Hcat Hl). }
  rewrite (loadProvider_fresh _ _ _ _ Hc Hcat Hl).
  destruct (fst (init c None)); simpl; now apply lookup_app_l.
Qed.

Lemma setCurrentProvider_heap_lookup (w : World) (n : string) (p : ref) (o : Obj) :
  currentProvider (registry w) = Some p ->
  heap w !! p = Some o ->
  heap (exec (ProviderRegistry.setCurrentProvider n) w) !! p = Some (after_destroy o).
Proof.
  intros Hcur Ho. unfold exec, ProviderRegistry.setCurrentProvider.
  unfold bind at 1. unfold gets at 1. simpl. rewrite Hcur.
  unfold bind at 1. rewrite (call_destroy_allocated _ _ _ Ho).
  set (w1 := match destroy (cls o) with
             | Some _ => set_heap (<[p := after_destroy o]> (heap w)) (record (Destroy p) w)
             | None => w
             end).
  assert (Hlt : p < length (heap w)) by (apply lookup_lt_is_Some; eauto).
  assert (H1 : heap w1 !! p = Some (after_destroy o) /\ p < length (heap w1)).
  { subst w1. unfold after_destroy. destruct (destroy (cls o)) as [d|]; simpl.
    - rewrite length_insert. split; [now apply list_lookup_insert_eq|exact Hlt].
    - split; assumption. }
  destruct H1 as [H1 Hlt1].
  pose proof (loadProvider_heap_lookup w1 n p Hlt1) as H2. unfold exec in H2.
  unfold bind at 1.
  destruct (ProviderRegistry.loadProvider n w1) as [[q|e] w2]; simpl in *;
    [|now rewrite H2].
  unfold bind, modify, try_catch, ProviderRegistry.setItem. simpl.
  destruct (accessible (localStorage w2)); simpl; now rewrite H2.
Qed.

(** scanImageFile on an engine that holds a provider: the image is scanned
    by the instance the engine's reference names, and nothing else happens. *)
Lemma scanImageFile_held
    (file : File) (w : World) (b : Bitmap) (p : ref) (o : Obj) :
  String.prefix "image/" (file_type file) = true ->
  canvas2d (browser (env w)) = true ->
  content file = Picture b ->
  scanner_currentProvider (scanner w) = Some p ->
  heap w !! p = Some o ->
  BarcodeScanner.scanImageFile file w
    = (match scanImage (cls o) (field o) (HTMLImageElement b) with
       | Normal (Some t) =>
           if truthy t
           then Normal {| text := t; imageData := toDataURL (env w) b |}
           else Throw noCodeFound
       | _ => Throw noCodeFound
       end,
       record (ScanImage p) (record NewImage w)).
Proof.
  intros Ht Hc Hb Hp Ho.
  unfold BarcodeScanner.scanImageFile. rewrite Ht. simpl.
  unfold bind, try_catch, gets, perform, modify, lift, ret, throw. simpl.
  rewrite Hc. simpl. rewrite Hb. simpl. rewrite Hp. simpl.
  rewrite (call_scanImage_allocated (record NewImage w) p o) by exact Ho.
  destruct (scanImage (cls o) (field o) (HTMLImageElement b)) as [[t|]|e];
    try reflexivity.
  destruct (truthy t); reflexivity.
Qed.

(** scanImageFile on an engine that holds no provider yet: the default
    provider is initialized, stored in the engine's field, and scans the
    image. *)
Lemma scanImageFile_default
    (file : File) (w w1 : World) (b : Bitmap) (p : ref) (o : Obj) :
  String.prefix "image/" (file_type file) = true ->
  canvas2d (browser (env w)) = true ->
  content file = Picture b ->
  scanner_currentProvider (scanner w) = None ->
  ProviderRegistry.initializeDefaultProvider (record NewImage w) = (Normal p, w1) ->
  heap w1 !! p = Some o ->
  BarcodeScanner.scanImageFile file w
    = (match scanImage (cls o) (field o) (HTMLImageElement b) with
       | Normal (Some t) =>
           if truthy t
           then Normal {| text := t; imageData := toDataURL (env w1) b |}
           else Throw noCodeFound
       | _ => Throw noCodeFound
       end,
       record (ScanImage p) (BarcodeScanner.set_currentProvider (Some p) w1)).
Proof.
  intros Ht Hc Hb Hp Hinit Ho.
  unfold BarcodeScanner.scanImageFile. rewrite Ht. simpl.
  unfold bind, try_catch, gets, perform, modify, lift, ret, throw. simpl.
  rewrite Hc. simpl. rewrite Hb. simpl. rewrite Hp. simpl. rewrite Hinit.
  rewrite (call_scanImage_allocated _ p o) by exact Ho.
  destruct (scanImage (cls o) (field o) (HTMLImageElement b)) as [[t|]|e];
    try reflexivity.
  destruct (truthy t); reflexivity.
Qed.

(** The claim of C10 on who sets the scan engine's reference, for one
    operation of the engine other than start() and setProvider(): the
    operation leaves the reference as it was. *)
Definition leaves_engine_provider {A : Type} (m : M A) (w : World) : Prop :=
  engine_current (exec m w) = engine_current w.

(** C10 (counterexample). scanImageFile, on an engine that holds no provider
    yet, initializes the default provider and stores it in the engine's
    field. *)
Lemma scanImageFile_sets_engine_provider :
  ~ leaves_engine_provider (BarcodeScanner.scanImageFile photo) (boot (quiet chrome)).
Proof. unfold leaves_engine_provider. vm_compute. discriminate. Qed.

(** C10 (amended). The scan engine's reference to its provider is written by
    start() and scanImageFile(), which initialize the default provider only
    when the engine holds none, and by setProvider(); every other operation
    of the engine and of the registry leaves it as it was.  A frame scan calls
    the instance that reference names, without asking the registry, and so
    does an image scan: scanImageFile calls scanImage on that instance (on
    the default provider it has just stored in the reference, when the engine
    held none), its outcome is what that instance answers, and it does
    nothing else.  So after
    setCurrentProvider is called on the registry directly, while the engine
    and the registry held the same instance, the engine still reports that
    instance, the instance has been destroyed, and the next frame scan and the
    next image scan call it; for the four catalog classes the frame scan
    throws the not-initialized error, the loop, if scanning, reschedules
    itself, and the image scan rejects with the no-code-found error. *)
Theorem engine_uses_its_own_provider :
  ((forall ev callback, preserves engine_current (BarcodeScanner.on ev callback))
   /\ (forall ev d, preserves engine_current (BarcodeScanner.emit ev d))
   /\ preserves engine_current BarcodeScanner.stop
   /\ preserves engine_current BarcodeScanner.scanFrame
   /\ preserves engine_current BarcodeScanner.captureFrame
   /\ (forall timers, preserves engine_current (BarcodeScanner.runLoop timers))
   /\ preserves engine_current BarcodeScanner.startScanningLoop
   /\ preserves engine_current BarcodeScanner.getCurrentProvider
   /\ preserves engine_current BarcodeScanner.getAvailableProviders
   /\ preserves engine_current BarcodeScanner.cleanup
   /\ (forall n, preserves engine_current (ProviderRegistry.loadProvider n))
   /\ (forall n, preserves engine_current (ProviderRegistry.setCurrentProvider n))
   /\ preserves engine_current ProviderRegistry.initializeDefaultProvider
   /\ preserves engine_current ProviderRegistry.cleanup)
  /\ (forall w p file,
        engine_current w = Some p ->
        engine_current (exec BarcodeScanner.start w) = Some p
        /\ engine_current (exec (BarcodeScanner.scanImageFile file) w) = Some p)
  /\ (forall w p o,
        engine_current w = Some p -> heap w !! p = Some o ->
        BarcodeScanner.scanFrame w
        = (scanVideoFrame (cls o) (field o) (preview (env w) (sampled w)),
           sampled_world p w))
  /\ (forall w file b p o,
        engine_current w = Some p -> heap w !! p = Some o ->
        String.prefix "image/" (file_type file) = true ->
        canvas2d (browser (env w)) = true ->
        content file = Picture b ->
        BarcodeScanner.scanImageFile file w
        = (match scanImage (cls o) (field o) (HTMLImageElement b) with
           | Normal (Some t) =>
               if truthy t
               then Normal {| text := t; imageData := toDataURL (env w) b |}
               else Throw noCodeFound
           | _ => Throw noCodeFound
           end,
           record (ScanImage p) (record NewImage w)))
  /\ (forall w w1 file b p o,
        engine_current w = None ->
        ProviderRegistry.initializeDefaultProvider (record NewImage w) = (Normal p, w1) ->
        heap w1 !! p = Some o ->
        String.prefix "image/" (file_type file) = true ->
        canvas2d (browser (env w)) = true ->
        content file = Picture b ->
        BarcodeScanner.scanImageFile file w
        = (match scanImage (cls o) (field o) (HTMLImageElement b) with
           | Normal (Some t) =>
               if truthy t
               then Normal {| text := t; imageData := toDataURL (env w1) b |}
               else Throw noCodeFound
           | _ => Throw noCodeFound
           end,
           record (ScanImage p) (BarcodeScanner.set_currentProvider (Some p) w1)))
  /\ (forall w n p o,
        engine_current w = Some p ->
        currentProvider (registry w) = Some p ->
        heap w !! p = Some o ->
        let w' := exec (ProviderRegistry.setCurrentProvider n) w in
        eval BarcodeScanner.getCurrentProvider w' = Normal (Some p)
        /\ heap w' !! p = Some (after_destroy o)
        /\ trace (exec BarcodeScanner.scanFrame w') = trace w' ++ [ScanVideoFrame p]
        /\ (forall file b,
              String.prefix "image/" (file_type file) = true ->
              canvas2d (browser (env w')) = true ->
              content file = Picture b ->
              trace (exec (BarcodeScanner.scanImageFile file) w')
              = trace w' ++ [NewImage; ScanImage p])
        /\ forall B, In (cls o) (catalogClasses B) ->
             field (after_destroy o) = None
             /\ (exists e, eval BarcodeScanner.scanFrame w' = Throw e
                           /\ isNotInitializedError e = true)
             /\ (isScanning (scanner w') = true ->
                 eval BarcodeScanner.startScanningLoop w'
                 = Normal BarcodeScanner.Rescheduled)
             /\ (forall file b,
                   String.prefix "image/" (file_type file) = true ->
                   canvas2d (browser (env w')) = true ->
                   content file = Picture b ->
                   eval (BarcodeScanner.scanImageFile file) w' = Throw noCodeFound)).
Proof.
  split; [|split; [|split; [|split; [|split]]]].
  - repeat match goal with |- _ /\ _ => split end; intros;
      first [ apply emit_engine | apply scanFrame_engine | apply runLoop_engine
            | apply startScanningLoop_engine | apply loadProvider_engine
            | apply setCurrentProvider_engine | apply initializeDefaultProvider_engine
            | apply registry_cleanup_engine
            | unfold BarcodeScanner.cleanup;
              apply preserves_bind;
              [unfold BarcodeScanner.stop; solve [frame]
              |intros u; apply registry_cleanup_engine]
            | unfold BarcodeScanner.on, BarcodeScanner.stop, BarcodeScanner.captureFrame,
                BarcodeScanner.getCurrentProvider, BarcodeScanner.getAvailableProviders,
                ProviderRegistry.getAvailableProviders;
              solve [frame] ].
  - intros w p file Hp. split.
    + now apply start_engine_set.
    + now apply scanImageFile_engine_set.
  - intros w p o Hp Ho. now apply scanFrame_call.
  - intros w file b p o Hp Ho Ht Hc Hb. now apply scanImageFile_held.
  - intros w w1 file b p o Hp Hinit Ho Ht Hc Hb. now apply scanImageFile_default.
  - intros w n p o Hp Hcur Ho w'.
    assert (He : engine_current w' = Some p).
    { subst w'. unfold exec. now rewrite setCurrentProvider_engine. }
    assert (Hh : heap w' !! p = Some (after_destroy o)).
    { subst w'. now apply setCurrentProvider_heap_lookup. }
    assert (Hscan : BarcodeScanner.scanFrame w'
                    = (scanVideoFrame (cls (after_destroy o)) (field (after_destroy o))
                         (preview (env w') (sampled w')), sampled_world p w')).
    { now apply scanFrame_call. }
    split; [|split; [|split; [|split]]].
    + unfold eval, BarcodeScanner.getCurrentProvider, gets. simpl.
      now f_equal.
    + exact Hh.
    + unfold exec. now rewrite Hscan.
    + intros file b Ht Hc Hb. unfold exec.
      rewrite (scanImageFile_held file w' b p (after_destroy o) Ht Hc Hb He Hh).
      simpl. now rewrite <- app_assoc.
    + intros B Hin.
      destruct (catalog_destroy_nulls B (cls o) (field o) Hin) as (d & Hd & Hnull).
      assert (Hf : field (after_destroy o) = None).
      { unfold after_destroy. now rewrite Hd. }
      assert (Hc : cls (after_destroy o) = cls o).
      { unfold after_destroy. now rewrite Hd. }
      destruct (catalog_scanVideoFrame_uninitialized B (cls o)
                  (preview (env w') (sampled w')) Hin) as (e & Hthrow & Hni).
      assert (Hev : eval BarcodeScanner.scanFrame w' = Throw e).
      { unfold eval. rewrite Hscan, Hc, Hf. exact Hthrow. }
      split; [exact Hf|]. split; [now exists e|]. split.
      * intros Hs. unfold eval. rewrite (startScanningLoop_scanning _ Hs).
        now rewrite Hev.
      * intros file b Ht Hcv Hb. unfold eval.
        rewrite (scanImageFile_held file w' b p (after_destroy o) Ht Hcv Hb He Hh).
        rewrite Hc, Hf.
        destruct (catalog_scanImage_uninitialized B (cls o) (HTMLImageElement b) Hin)
          as (e' & -> & _).
        reflexivity.
Qed.

(** C10 (amended) at an engine started on 'zxing', after the registry was
    switched to 'zxing-wasm' directly: the engine still reports the first
    instance, which is destroyed, while the registry's current one is the
    second; and an image scan calls the first instance, not the second. *)
Lemma engine_uses_its_own_provider_witness :
  eval BarcodeScanner.getCurrentProvider
    (exec (ProviderRegistry.setCurrentProvider "zxing-wasm") zxing_ready)
  = Normal (Some 0)
  /\ field <$> heap (exec (ProviderRegistry.setCurrentProvider "zxing-wasm") zxing_ready) !! 0
     = Some None
  /\ currentProvider (registry (exec (ProviderRegistry.setCurrentProvider "zxing-wasm")
                                  zxing_ready)) = Some 1
  /\ trace (exec (BarcodeScanner.scanImageFile photo)
              (exec (ProviderRegistry.setCurrentProvider "zxing-wasm") zxing_ready))
     = trace (exec (ProviderRegistry.setCurrentProvider "zxing-wasm") zxing_ready)
       ++ [NewImage; ScanImage 0]
  /\ eval (BarcodeScanner.scanImageFile photo)
       (exec (ProviderRegistry.setCurrentProvider "zxing-wasm") zxing_ready)
     = Throw noCodeFound.
Proof.
  pose proof (proj2 (proj2 (proj2 (proj2 (proj2 engine_uses_its_own_provider))))
                zxing_ready "zxing-wasm" 0
                {| cls := ZXingProvider_class chrome; field := Some EngineHandle |}
                eq_refl eq_refl eq_refl) as H.
  cbv zeta in H. destruct H as (H1 & H2 & _ & H4 & H5).
  split; [exact H1|]. split; [rewrite H2; reflexivity|]. split; [reflexivity|].
  split.
  - exact (H4 photo (qr "x") eq_refl eq_refl eq_refl).
  - destruct (H5 chrome (or_introl eq_refl)) as (_ & _ & _ & H6).
    exact (H6 photo (qr "x") eq_refl eq_refl eq_refl).
Defined.
(** ** Well-formedness is kept by every operation *)

Definition keeps {A : Type} (P : World -> Prop) (m : M A) : Prop :=
  forall w, P w -> P (snd (m w)).

Section Keeps.
Context (P : World -> Prop).

Lemma keeps_ret {A : Type} (a : A) : keeps P (ret a).
Proof. now intros w. Qed.

Lemma keeps_throw {A : Type} (e : string) : keeps P (@throw A e).
Proof. now intros w. Qed.

Lemma keeps_gets {A : Type} (g : World -> A) : keeps P (gets g).
Proof. now intros w. Qed.

Lemma keeps_lift {A : Type} (c : completion A) : keeps P (lift c).
Proof. now intros w. Qed.

Lemma keeps_modify (g : World -> World) :
  (forall w, P w -> P (g w)) -> keeps P (modify g).
Proof. intros H w. apply H. Qed.

Lemma keeps_bind {A B : Type} (m : M A) (k : A -> M B) :
  keeps P m -> (forall a, keeps P (k a)) -> keeps P (bind m k).
Proof.
  intros Hm Hk w Hw. unfold bind. specialize (Hm w Hw).
  destruct (m w) as [[a|e] w']; simpl in *; [now apply Hk|exact Hm].
Qed.

Lemma keeps_try_catch {A : Type} (m : M A) (h : string -> M A) :
  keeps P m -> (forall e, keeps P (h e)) -> keeps P (try_catch m h).
Proof.
  intros Hm Hh w Hw. unfold try_catch. specialize (Hm w Hw).
  destruct (m w) as [[a|e] w']; simpl in *; [exact Hm|now apply Hh].
Qed.

Lemma keeps_forEach {A : Type} (body : A -> M unit) (l : list A) :
  (forall a, keeps P (body a)) -> keeps P (forEach body l).
Proof.
  intros Hb. induction l as [|x l IH]; simpl; [apply keeps_ret|].
  apply keeps_bind; auto.
Qed.

Lemma keeps_collect {A B : Type} (body : A -> M B) (l : list A) :
  (forall a, keeps P (body a)) -> keeps P (BenchmarkRunner.collect body l).
Proof.
  intros Hb. induction l as [|x l IH]; simpl; [apply keeps_ret|].
  apply keeps_bind; [apply Hb|intros r].
  apply keeps_bind; [apply IH|intros rs; apply keeps_ret].
Qed.

Lemma keeps_iterate {B : Type} (body : M B) (n : nat) :
  keeps P body -> keeps P (BenchmarkRunner.iterate n body).
Proof.
  intros Hb. induction n as [|n IH]; simpl; [apply keeps_ret|].
  apply keeps_bind; [apply Hb|intros r].
  apply keeps_bind; [apply IH|intros rs; apply keeps_ret].
Qed.

End Keeps.

Lemma well_formed_same (w w' : World) :
  registry w' = registry w -> heap w' = heap w -> well_formed w -> well_formed w'.
Proof.
  intros Hr Hh. apply well_formed_grow; [exact Hr|]. now rewrite Hh.
Qed.

Lemma call_destroy_well_formed (p : ref) : keeps well_formed (call_destroy p).
Proof.
  intros w Hwf. destruct (heap w !! p) as [o|] eqn:Ho.
  - rewrite (call_destroy_allocated _ _ _ Ho). simpl.
    destruct (destroy (cls o)); [|exact Hwf].
    apply (well_formed_grow w); [reflexivity| |exact Hwf].
    simpl. now rewrite length_insert.
  - unfold call_destroy, deref, bind. now rewrite Ho.
Qed.

Lemma setItem_well_formed (value : string) :
  keeps well_formed (ProviderRegistry.setItem value).
Proof.
  intros w Hwf. unfold ProviderRegistry.setItem.
  destruct (accessible (localStorage w)); simpl; [|exact Hwf].
  now apply (well_formed_same w).
Qed.

Lemma getItem_well_formed : keeps well_formed ProviderRegistry.getItem.
Proof.
  intros w Hwf. unfold ProviderRegistry.getItem.
  now destruct (accessible (localStorage w)).
Qed.

Lemma deref_well_formed (p : ref) : keeps well_formed (deref p).
Proof. intros w Hwf. unfold deref. now destruct (heap w !! p). Qed.

(** Decompose a computation along its syntax; the state updates left are
    those that touch neither the registry nor the heap. *)
Ltac keep_step :=
  first
    [ apply keeps_ret | apply keeps_throw | apply keeps_gets | apply keeps_lift
    | apply deref_well_formed | apply getItem_well_formed | apply setItem_well_formed
    | apply call_destroy_well_formed
    | apply keeps_bind; [|intros ?]
    | apply keeps_try_catch; [|intros ?]
    | apply keeps_forEach; intros ?
    | apply keeps_modify; intros ? ?; eapply well_formed_same;
      [reflexivity|reflexivity|eassumption]
    | match goal with
      | |- keeps _ (match ?x with _ => _ end) => destruct x
      end ].

Ltac keep := repeat keep_step.

Lemma loadProvider_keeps (n : string) :
  keeps well_formed (ProviderRegistry.loadProvider n).
Proof. intros w Hwf. now apply loadProvider_well_formed. Qed.

Lemma setCurrentProvider_keeps (n : string) :
  keeps well_formed (ProviderRegistry.setCurrentProvider n).
Proof. intros w Hwf. now apply setCurrentProvider_well_formed. Qed.

Lemma initializeDefaultProvider_keeps :
  keeps well_formed ProviderRegistry.initializeDefaultProvider.
Proof.
  unfold ProviderRegistry.initializeDefaultProvider.
  apply keeps_bind; [|intros n; apply setCurrentProvider_keeps].
  unfold ProviderRegistry.getPreferredProvider. keep.
Qed.

Lemma registry_cleanup_keeps : keeps well_formed ProviderRegistry.cleanup.
Proof.
  unfold ProviderRegistry.cleanup.
  apply keeps_bind; [keep|intros current].
  apply keeps_bind.
  { destruct current as [p|]; [|keep].
    apply keeps_bind; [apply call_destroy_well_formed|intros u].
    apply keeps_modify. intros w (H1 & H2). split; [exact H1|]. intros q H. discriminate. }
  intros u. apply keeps_bind; [keep|intros loaded].
  apply keeps_bind; [keep|intros u'].
  apply keeps_modify. intros w (H1 & H2). split; [|exact H2].
  intros n p H. discriminate.
Qed.

Lemma call_scanImage_keeps (p : ref) (image : ImageSource) :
  keeps well_formed (call_scanImage p image).
Proof. unfold call_scanImage, perform. keep. Qed.

Lemma call_scanVideoFrame_keeps (p : ref) :
  keeps well_formed (call_scanVideoFrame p).
Proof. unfold call_scanVideoFrame, perform. keep. Qed.

Lemma emit_keeps (ev : ScannerEventType) (d : EventData) :
  keeps well_formed (BarcodeScanner.emit ev d).
Proof. unfold BarcodeScanner.emit, perform. keep. Qed.

(** The same, stopping at the operations already shown to keep the
    invariant. *)
Ltac keep_ops :=
  repeat first
    [ apply loadProvider_keeps | apply setCurrentProvider_keeps
    | apply initializeDefaultProvider_keeps | apply registry_cleanup_keeps
    | apply call_scanImage_keeps | apply call_scanVideoFrame_keeps
    | apply emit_keeps
    | keep_step ].

Lemma start_keeps : keeps well_formed BarcodeScanner.start.
Proof. unfold BarcodeScanner.start, perform. keep_ops. Qed.

Lemma stop_keeps : keeps well_formed BarcodeScanner.stop.
Proof. unfold BarcodeScanner.stop. keep. Qed.

Lemma startScanningLoop_keeps : keeps well_formed BarcodeScanner.startScanningLoop.
Proof.
  unfold BarcodeScanner.startScanningLoop, BarcodeScanner.scanFrame,
    BarcodeScanner.captureFrame.
  keep_ops.
Qed.

Lemma runLoop_keeps (timers : nat) : keeps well_formed (BarcodeScanner.runLoop timers).
Proof.
  induction timers as [|n IH]; simpl.
  - apply keeps_bind; [apply startScanningLoop_keeps|intros [|]; keep].
  - apply keeps_bind; [apply startScanningLoop_keeps|intros [|]]; [|keep].
    apply keeps_bind; [unfold perform; keep|intros u; apply IH].
Qed.

Lemma scanImageFile_keeps (file : File) :
  keeps well_formed (BarcodeScanner.scanImageFile file).
Proof. unfold BarcodeScanner.scanImageFile, perform. keep_ops. Qed.

Lemma setProvider_keeps (n : string) : keeps well_formed (BarcodeScanner.setProvider n).
Proof.
  unfold BarcodeScanner.setProvider.
  apply keeps_bind; [keep|intros wasScanning].
  apply keeps_bind; [destruct wasScanning; [apply stop_keeps|keep]|intros u].
  apply keeps_bind; [apply setCurrentProvider_keeps|intros p].
  apply keeps_bind; [keep|intros u'].
  destruct wasScanning; [apply start_keeps|keep].
Qed.

Lemma scanner_cleanup_keeps : keeps well_formed BarcodeScanner.cleanup.
Proof.
  unfold BarcodeScanner.cleanup.
  apply keeps_bind; [apply stop_keeps|intros u; apply registry_cleanup_keeps].
Qed.

Lemma benchmarkImageScan_keeps (file : File) :
  keeps well_formed (BenchmarkRunner.benchmarkImageScan file).
Proof.
  unfold BenchmarkRunner.benchmarkImageScan.
  apply keeps_bind; [unfold ProviderRegistry.getAvailableProviders; keep|intros providers].
  apply keeps_bind; [unfold BenchmarkRunner.loadImage, perform; keep|intros img].
  apply keeps_bind; [|intros rs; keep].
  apply keeps_collect. intros info. unfold BenchmarkRunner.imageScanAttempt.
  keep_ops.
Qed.

Lemma benchmarkVideoFrame_keeps (iterations : nat) :
  keeps well_formed (BenchmarkRunner.benchmarkVideoFrame iterations).
Proof.
  unfold BenchmarkRunner.benchmarkVideoFrame.
  apply keeps_bind; [unfold ProviderRegistry.getAvailableProviders; keep|intros providers].
  apply keeps_bind; [|intros rs; keep].
  apply keeps_collect. intros info. unfold BenchmarkRunner.videoFrameProvider.
  apply keeps_try_catch; [|intros e; keep].
  apply keeps_bind; [apply loadProvider_keeps|intros p].
  apply keeps_bind; [|intros rs; keep].
  apply keeps_iterate. unfold BenchmarkRunner.videoFrameAttempt, perform.
  keep_ops.
Qed.

(** * Further properties of the registry *)

Lemma loadProvider_caches (w : World) (n : string) (p : ref) :
  eval (ProviderRegistry.loadProvider n) w = Normal p ->
  JSMap.get n (loadedProviders (registry (exec (ProviderRegistry.loadProvider n) w)))
    = Some p.
Proof.
  unfold eval, exec.
  destruct (JSMap.get n (loadedProviders (registry w))) as [q|] eqn:Hc.
  { rewrite (loadProvider_cached _ _ _ Hc). simpl. now intros [= <-]. }
  destruct (JSMap.get n (providers (registry w))) as [info|] eqn:Hcat.
  2: { rewrite (loadProvider_unknown _ _ Hc Hcat). discriminate. }
  destruct (loader info) as [c|e] eqn:Hl.
  2: { rewrite (loadProvider_import_fails _ _ _ _ Hc Hcat Hl). discriminate. }
  rewrite (loadProvider_fresh _ _ _ _ Hc Hcat Hl).
  destruct (fst (init c None)); simpl; [|discriminate].
  intros [= <-]. apply JSMap_get_set_eq.
Qed.

(** A provider that loaded is served from the cache afterwards: a second
    load of the same name returns the same instance and does nothing else
    (no import, no construction, no init). *)
Theorem loadProvider_twice (w : World) (n : string) (p : ref) :
  eval (ProviderRegistry.loadProvider n) w = Normal p ->
  let w' := exec (ProviderRegistry.loadProvider n) w in
  ProviderRegistry.loadProvider n w' = (Normal p, w').
Proof.
  intros H w'. apply loadProvider_cached. now apply loadProvider_caches.
Qed.

(** Two loads of 'zxing' on a fresh registry. *)
Lemma loadProvider_twice_witness :
  ProviderRegistry.loadProvider "zxing"
    (exec (ProviderRegistry.loadProvider "zxing") (boot (quiet chrome)))
  = (Normal 0, exec (ProviderRegistry.loadProvider "zxing") (boot (quiet chrome))).
Proof. exact (loadProvider_twice (boot (quiet chrome)) "zxing" 0 eq_refl). Defined.

(** The first step of setCurrentProvider: destroy the current provider, if
    there is one. *)
Definition destroy_current : M unit :=
  fun w =>
    match currentProvider (registry w) with
    | Some q => call_destroy q w
    | None => (Normal tt, w)
    end.

(** Its last step: write the preference, ignoring a storage failure. *)
Definition persist (n : string) (w : World) : World :=
  if accessible (localStorage w)
  then set_localStorage {| accessible := true; item := Some n |} w
  else w.

Lemma setCurrentProvider_run (w : World) (n : string) :
  ProviderRegistry.setCurrentProvider n w =
    match destroy_current w with
    | (Throw e, w1) => (Throw e, w1)
    | (Normal _, w1) =>
        match ProviderRegistry.loadProvider n w1 with
        | (Throw e, w2) => (Throw e, w2)
        | (Normal p, w2) =>
            (Normal p, persist n (ProviderRegistry.set_currentProvider (Some p) w2))
        end
    end.
Proof.
  unfold ProviderRegistry.setCurrentProvider, destroy_current.
  unfold bind at 1. unfold gets at 1. simpl.
  unfold bind at 1.
  destruct (currentProvider (registry w)) as [q|].
  - destruct (call_destroy q w) as [[[]|e] w1]; [|reflexivity].
    unfold bind at 1.
    destruct (ProviderRegistry.loadProvider n w1) as [[p|e] w2]; [|reflexivity].
    unfold bind, modify, try_catch, ProviderRegistry.setItem, persist, ret. simpl.
    now destruct (accessible (localStorage w2)).
  - unfold ret at 1. unfold bind at 1.
    destruct (ProviderRegistry.loadProvider n w) as [[p|e] w2]; [|reflexivity].
    unfold bind, modify, try_catch, ProviderRegistry.setItem, persist, ret. simpl.
    now destruct (accessible (localStorage w2)).
Qed.

Lemma destroy_current_localStorage : preserves localStorage destroy_current.
Proof.
  intros w. unfold destroy_current.
  destruct (currentProvider (registry w)) as [q|]; [|reflexivity].
  revert w. change (preserves localStorage (call_destroy q)).
  unfold call_destroy, set_field, perform. frame.
Qed.

Lemma loadProvider_localStorage (n : string) :
  preserves localStorage (ProviderRegistry.loadProvider n).
Proof. unfold ProviderRegistry.loadProvider. frame. Qed.

Lemma setCurrentProvider_success_facts (w : World) (n : string) (p : ref) :
  eval (ProviderRegistry.setCurrentProvider n) w = Normal p ->
  let w' := exec (ProviderRegistry.setCurrentProvider n) w in
  currentProvider (registry w') = Some p
  /\ JSMap.get n (loadedProviders (registry w')) = Some p
  /\ localStorage w'
     = if accessible (localStorage w)
       then {| accessible := true; item := Some n |}
       else localStorage w.
Proof.
  unfold eval, exec. cbv zeta. rewrite setCurrentProvider_run.
  pose proof (destroy_current_localStorage w) as Hd.
  destruct (destroy_current w) as [[[]|e] w1]; simpl in *; [|discriminate].
  pose proof (loadProvider_localStorage n w1) as Hl.
  pose proof (loadProvider_caches w1 n) as Hc. unfold eval, exec in Hc.
  destruct (ProviderRegistry.loadProvider n w1) as [[q|e] w2]; simpl in *;
    [|discriminate].
  intros [= <-]. specialize (Hc q eq_refl).
  rewrite <- Hd, <- Hl. unfold persist. simpl.
  destruct (accessible (localStorage w2)); simpl;
    repeat split; first [reflexivity|assumption].
Qed.

(** A successful setCurrentProvider returns the instance that is now current
    and cached under the name.  The name is stored as the preference when
    storage is accessible; when it is not, the call succeeds all the same and
    storage is as before. *)
Theorem setCurrentProvider_success (w : World) (n : string) (p : ref) :
  eval (ProviderRegistry.setCurrentProvider n) w = Normal p ->
  let w' := exec (ProviderRegistry.setCurrentProvider n) w in
  currentProvider (registry w') = Some p
  /\ JSMap.get n (loadedProviders (registry w')) = Some p
  /\ localStorage w'
     = if accessible (localStorage w)
       then {| accessible := true; item := Some n |}
       else localStorage w.
Proof. apply setCurrentProvider_success_facts. Qed.

(** In a browser whose storage throws, 'zxing' still becomes current. *)
Definition storage_blocked : World :=
  set_localStorage {| accessible := false; item := None |} (boot (quiet chrome)).

Lemma setCurrentProvider_success_witness :
  currentProvider (registry (exec (ProviderRegistry.setCurrentProvider "zxing")
                              storage_blocked)) = Some 0
  /\ JSMap.get "zxing"
       (loadedProviders (registry (exec (ProviderRegistry.setCurrentProvider "zxing")
                                     storage_blocked))) = Some 0
  /\ localStorage (exec (ProviderRegistry.setCurrentProvider "zxing") storage_blocked)
     = {| accessible := false; item := None |}.
Proof. exact (setCurrentProvider_success storage_blocked "zxing" 0 eq_refl). Defined.

Lemma getPreferredProvider_run (w : World) :
  ProviderRegistry.getPreferredProvider w =
    (Normal (if accessible (localStorage w)
             then match item (localStorage w) with
                  | Some s => if truthy s then s else "zxing"
                  | None => "zxing"
                  end
             else "zxing"), w).
Proof.
  unfold ProviderRegistry.getPreferredProvider, try_catch, bind,
    ProviderRegistry.getItem.
  destruct (accessible (localStorage w)); [|reflexivity].
  destruct (item (localStorage w)) as [s|]; [|reflexivity].
  now destruct (truthy s).
Qed.

(** The preference written by a successful setCurrentProvider is the one
    getPreferredProvider reads back, when storage is accessible. *)
Theorem preference_round_trip (w : World) (n : string) (p : ref) :
  eval (ProviderRegistry.setCurrentProvider n) w = Normal p ->
  accessible (localStorage w) = true ->
  truthy n = true ->
  let w' := exec (ProviderRegistry.setCurrentProvider n) w in
  ProviderRegistry.getPreferredProvider w' = (Normal n, w').
Proof.
  intros H Ha Ht w'. rewrite getPreferredProvider_run.
  destruct (setCurrentProvider_success_facts w n p H) as (_ & _ & Hs).
  fold w' in Hs. rewrite Hs, Ha. simpl. now rewrite Ht.
Qed.

Lemma preference_round_trip_witness :
  ProviderRegistry.getPreferredProvider
    (exec (ProviderRegistry.setCurrentProvider "zxing-wasm") (boot (quiet chrome)))
  = (Normal "zxing-wasm",
     exec (ProviderRegistry.setCurrentProvider "zxing-wasm") (boot (quiet chrome))).
Proof.
  exact (preference_round_trip (boot (quiet chrome)) "zxing-wasm" 0
           eq_refl eq_refl eq_refl).
Defined.

(** * Further properties of the scan engine *)

(** The two halves of the try block of start(): make sure the engine holds a
    provider, then open the camera and mark the engine as scanning. *)
Definition ensure_provider : M unit :=
  let* current := gets (fun w => scanner_currentProvider (scanner w)) in
  match current with
  | Some _ => ret tt
  | None =>
      let* provider := ProviderRegistry.initializeDefaultProvider in
      modify (BarcodeScanner.set_currentProvider (Some provider))
  end.

Definition acquire_camera : M unit :=
  perform GetUserMedia >>
  let* media := gets (fun w => getUserMedia (env w)) in
  lift media >>
  modify (BarcodeScanner.set_stream true) >>
  let* played := gets (fun w => play (env w)) in
  lift played >>
  modify (BarcodeScanner.set_isScanning true).

(** The catch block of start(). *)
Definition report_failure (e : string) : M unit :=
  BarcodeScanner.emit EvError (ErrorData e) >> throw e.

Lemma start_run (w : World) :
  isScanning (scanner w) = false ->
  BarcodeScanner.start w =
    match ensure_provider w with
    | (Throw e, w1) => report_failure e w1
    | (Normal _, w1) =>
        match acquire_camera w1 with
        | (Throw e, w2) => report_failure e w2
        | (Normal _, w2) => (Normal tt, w2)
        end
    end.
Proof.
  intros Hs.
  unfold BarcodeScanner.start, ensure_provider, acquire_camera, report_failure,
    bind, try_catch, gets, ret, modify, perform, lift.
  simpl. rewrite Hs.
  destruct (scanner_currentProvider (scanner w)) as [p|].
  - simpl. destruct (getUserMedia (env w)) as [[]|e]; [|reflexivity].
    destruct (play (env w)) as [[]|e]; reflexivity.
  - destruct (ProviderRegistry.initializeDefaultProvider w) as [[p|e] w1];
      [|reflexivity].
    simpl. destruct (getUserMedia (env w1)) as [[]|e]; [|reflexivity].
    destruct (play (env w1)) as [[]|e]; reflexivity.
Qed.

Lemma acquire_camera_run (w : World) :
  acquire_camera w =
    match getUserMedia (env w) with
    | Throw e => (Throw e, record GetUserMedia w)
    | Normal _ =>
        match play (env w) with
        | Throw e => (Throw e, BarcodeScanner.set_stream true (record GetUserMedia w))
        | Normal _ =>
            (Normal tt,
             BarcodeScanner.set_isScanning true
               (BarcodeScanner.set_stream true (record GetUserMedia w)))
        end
    end.
Proof.
  unfold acquire_camera, bind, perform, modify, gets, lift. simpl.
  destruct (getUserMedia (env w)) as [[]|e]; [|reflexivity].
  destruct (play (env w)) as [[]|e]; reflexivity.
Qed.

Definition error_listeners_return (w : World) : Prop :=
  Forall (fun callback : Listener => forall d, callback d = Normal tt)
    (eventListeners (scanner w) EvError).

Lemma report_failure_run (e : string) (w : World) :
  exists e', report_failure e w = (Throw e', record (Emit EvError (ErrorData e)) w)
             /\ (error_listeners_return w -> e' = e).
Proof.
  unfold report_failure, bind.
  pose proof (emit_world EvError (ErrorData e) w) as Hw.
  destruct (BarcodeScanner.emit EvError (ErrorData e) w) as [[[]|e'] w1] eqn:E;
    simpl in Hw; subst w1.
  - exists e. split; reflexivity.
  - exists e'. split; [reflexivity|]. intros Hl.
    rewrite (emit_all_return EvError (ErrorData e) w Hl) in E. discriminate.
Qed.

Lemma ensure_provider_isScanning :
  preserves (fun w => isScanning (scanner w)) ensure_provider.
Proof. unfold ensure_provider. frame_storage. Qed.

Lemma ensure_provider_listeners :
  preserves (fun w => eventListeners (scanner w)) ensure_provider.
Proof. unfold ensure_provider. frame_storage. Qed.

Lemma ensure_provider_stream :
  preserves (fun w => stream (scanner w)) ensure_provider.
Proof. unfold ensure_provider. frame_storage. Qed.

(** A start() that succeeds leaves the engine scanning with the camera
    stream held, and a second start() then does nothing at all: no second
    camera request, no provider call. *)
Theorem start_twice (w : World) :
  isScanning (scanner w) = false ->
  eval BarcodeScanner.start w = Normal tt ->
  let w1 := exec BarcodeScanner.start w in
  isScanning (scanner w1) = true
  /\ stream (scanner w1) = true
  /\ BarcodeScanner.start w1 = (Normal tt, w1).
Proof.
  intros Hs. unfold eval, exec. cbv zeta. rewrite (start_run _ Hs).
  destruct (ensure_provider w) as [[[]|e] w1].
  2: { destruct (report_failure_run e w1) as (e' & -> & _). discriminate. }
  rewrite acquire_camera_run.
  destruct (getUserMedia (env w1)) as [[]|e].
  2: { destruct (report_failure_run e (record GetUserMedia w1)) as (e' & -> & _).
       discriminate. }
  destruct (play (env w1)) as [[]|e].
  2: { destruct (report_failure_run e
                   (BarcodeScanner.set_stream true (record GetUserMedia w1)))
         as (e' & -> & _). discriminate. }
  intros _. simpl. repeat split.
Qed.

Lemma start_twice_witness :
  isScanning (scanner zxing_ready) = true
  /\ stream (scanner zxing_ready) = true
  /\ BarcodeScanner.start zxing_ready = (Normal tt, zxing_ready).
Proof. exact (start_twice (boot (quiet chrome)) eq_refl eq_refl). Defined.

(** A start() that fails, for whatever reason, leaves the engine not
    scanning, and the last thing it did was to emit an 'error' event; when the
    error listeners return, the event carries the very error start() throws. *)
Theorem start_failure (w : World) (e : string) :
  isScanning (scanner w) = false ->
  eval BarcodeScanner.start w = Throw e ->
  let w' := exec BarcodeScanner.start w in
  isScanning (scanner w') = false
  /\ exists e0 w0,
       w' = record (Emit EvError (ErrorData e0)) w0
       /\ (error_listeners_return w -> e0 = e).
Proof.
  intros Hs. unfold eval, exec. cbv zeta. rewrite (start_run _ Hs).
  pose proof (ensure_provider_isScanning w) as H1.
  pose proof (ensure_provider_listeners w) as H2.
  destruct (ensure_provider w) as [[[]|e1] w1]; simpl in H1, H2.
  - rewrite acquire_camera_run.
    destruct (getUserMedia (env w1)) as [[]|e2].
    + destruct (play (env w1)) as [[]|e3]; [discriminate|].
      destruct (report_failure_run e3
                  (BarcodeScanner.set_stream true (record GetUserMedia w1)))
        as (e' & -> & He).
      simpl. intros [= <-]. split; [congruence|].
      eexists _, _. split; [reflexivity|]. intros Hl. symmetry. apply He.
      unfold error_listeners_return in *. simpl. now rewrite H2.
    + destruct (report_failure_run e2 (record GetUserMedia w1)) as (e' & -> & He).
      simpl. intros [= <-]. split; [congruence|].
      eexists _, _. split; [reflexivity|]. intros Hl. symmetry. apply He.
      unfold error_listeners_return in *. simpl. now rewrite H2.
  - destruct (report_failure_run e1 w1) as (e' & -> & He).
    simpl. intros [= <-]. split; [congruence|].
    eexists _, _. split; [reflexivity|]. intros Hl. symmetry. apply He.
    unfold error_listeners_return in *. now rewrite H2.
Qed.

(** A browser in which the user denies camera access. *)
Definition camera_denied : Env :=
  {| browser := chrome;
     latency := fun _ => 0%Q;
     preview := fun _ => still blank;
     getUserMedia := Throw "Permission denied";
     play := Normal tt;
     toDataURL := fun _ => "data:image/jpeg;base64," |}.

Lemma start_failure_witness :
  isScanning (scanner (exec BarcodeScanner.start (boot camera_denied))) = false
  /\ exists e0 w0,
       exec BarcodeScanner.start (boot camera_denied)
       = record (Emit EvError (ErrorData e0)) w0
       /\ (error_listeners_return (boot camera_denied) -> e0 = "Permission denied").
Proof. exact (start_failure (boot camera_denied) "Permission denied" eq_refl eq_refl). Defined.

(** When the camera opens but the preview cannot be played, start() fails
    and the engine is not scanning, yet it keeps holding the stream it
    obtained; a stop() releases it. *)
Theorem start_play_failure_keeps_stream (w : World) (p : ref) (e : string) :
  isScanning (scanner w) = false ->
  scanner_currentProvider (scanner w) = Some p ->
  getUserMedia (env w) = Normal tt ->
  play (env w) = Throw e ->
  let w' := exec BarcodeScanner.start w in
  (exists e', eval BarcodeScanner.start w = Throw e')
  /\ isScanning (scanner w') = false
  /\ stream (scanner w') = true
  /\ stream (scanner (exec BarcodeScanner.stop w')) = false.
Proof.
  intros Hs Hp Hm Hpl. unfold eval, exec. cbv zeta. rewrite (start_run _ Hs).
  unfold ensure_provider, bind, gets. simpl. rewrite Hp. unfold ret.
  rewrite acquire_camera_run, Hm, Hpl.
  destruct (report_failure_run e (BarcodeScanner.set_stream true (record GetUserMedia w)))
    as (e' & -> & _).
  simpl. split; [now exists e'|]. repeat split. exact Hs.
Qed.

Definition preview_blocked : Env :=
  {| browser := chrome;
     latency := fun _ => 0%Q;
     preview := fun _ => still blank;
     getUserMedia := Normal tt;
     play := Throw "play() was interrupted";
     toDataURL := fun _ => "data:image/jpeg;base64," |}.

(** An engine that already holds a provider, in a browser that cannot play
    the preview. *)
Definition holding_provider : World :=
  exec (BarcodeScanner.setProvider "zxing") (boot preview_blocked).

Lemma start_play_failure_keeps_stream_witness :
  (exists e', eval BarcodeScanner.start holding_provider = Throw e')
  /\ isScanning (scanner (exec BarcodeScanner.start holding_provider)) = false
  /\ stream (scanner (exec BarcodeScanner.start holding_provider)) = true
  /\ stream (scanner (exec BarcodeScanner.stop
                        (exec BarcodeScanner.start holding_provider))) = false.
Proof.
  exact (start_play_failure_keeps_stream holding_provider 0 "play() was interrupted"
           eq_refl eq_refl eq_refl eq_refl).
Defined.

Definition is_camera_request (c : Call) : bool :=
  match c with
  | GetUserMedia => true
  | _ => false
  end.

(** Number of getUserMedia requests in a trace. *)
Definition camera_requests (l : list Call) : nat :=
  length (List.filter is_camera_request l).

Lemma camera_requests_app (l l' : list Call) :
  camera_requests (l ++ l') = camera_requests l + camera_requests l'.
Proof. unfold camera_requests. now rewrite List.filter_app, length_app. Qed.

Lemma destroy_current_well_formed (w : World) :
  well_formed w ->
  exists w1,
    destroy_current w = (Normal tt, w1)
    /\ registry w1 = registry w /\ scanner w1 = scanner w
    /\ localStorage w1 = localStorage w /\ env w1 = env w
    /\ length (heap w1) = length (heap w)
    /\ camera_requests (trace w1) = camera_requests (trace w).
Proof.
  intros (_ & Hcur). unfold destroy_current.
  destruct (currentProvider (registry w)) as [q|] eqn:Hq.
  - destruct (lookup_lt_is_Some_2 _ _ (Hcur q eq_refl)) as [o Ho].
    rewrite (call_destroy_allocated _ _ _ Ho).
    destruct (destroy (cls o)).
    + eexists. split; [reflexivity|]. simpl. rewrite length_insert.
      repeat split. rewrite camera_requests_app. simpl. unfold camera_requests. simpl. lia.
    + exists w. repeat split.
  - exists w. repeat split.
Qed.

Lemma setCurrentProvider_unknown_throws (w : World) (u : string) :
  well_formed w ->
  JSMap.get u (providers (registry w)) = None ->
  exists w1,
    ProviderRegistry.setCurrentProvider u w = (Throw ("Unknown provider: " +:+ u), w1)
    /\ registry w1 = registry w /\ scanner w1 = scanner w
    /\ localStorage w1 = localStorage w
    /\ camera_requests (trace w1) = camera_requests (trace w).
Proof.
  intros Hwf Hcat.
  assert (Hc : JSMap.get u (loadedProviders (registry w)) = None).
  { destruct (JSMap.get u (loadedProviders (registry w))) as [q|] eqn:Hq; [|reflexivity].
    destruct Hwf as (H1 & _). destruct (H1 _ _ Hq) as [[info Hinfo] _]. congruence. }
  destruct (destroy_current_well_formed w Hwf) as (w1 & Hd & Hr & Hs & Hl & _ & _ & Ht).
  rewrite setCurrentProvider_run, Hd.
  rewrite loadProvider_unknown by (rewrite Hr; assumption).
  exists w1. repeat split; assumption.
Qed.

(** A stored preference that names no catalog entry (left by another version
    of the application, say) is not replaced by the default: default
    initialization fails with the unknown-provider error, and start() on a
    freshly constructed engine fails with it without requesting the camera,
    leaving the engine as it was. *)
Theorem stale_preference_blocks_start (w : World) (s : string) :
  well_formed w ->
  accessible (localStorage w) = true ->
  item (localStorage w) = Some s ->
  truthy s = true ->
  JSMap.get s (providers (registry w)) = None ->
  isScanning (scanner w) = false ->
  scanner_currentProvider (scanner w) = None ->
  error_listeners_return w ->
  let w' := exec BarcodeScanner.start w in
  eval ProviderRegistry.initializeDefaultProvider w = Throw ("Unknown provider: " +:+ s)
  /\ eval BarcodeScanner.start w = Throw ("Unknown provider: " +:+ s)
  /\ scanner w' = scanner w
  /\ camera_requests (trace w') = camera_requests (trace w).
Proof.
  intros Hwf Ha Hi Ht Hcat Hs Hp Hl.
  destruct (setCurrentProvider_unknown_throws w s Hwf Hcat) as (w1 & Hrun & _ & Hsc & _ & Hcam).
  assert (Hinit : ProviderRegistry.initializeDefaultProvider w
                  = (Throw ("Unknown provider: " +:+ s), w1)).
  { unfold ProviderRegistry.initializeDefaultProvider, bind.
    rewrite getPreferredProvider_run, Ha, Hi, Ht. exact Hrun. }
  unfold eval, exec. cbv zeta. rewrite Hinit. split; [reflexivity|].
  rewrite (start_run _ Hs). unfold ensure_provider, bind, gets. simpl.
  rewrite Hp, Hinit.
  destruct (report_failure_run ("Unknown provider: " +:+ s) w1) as (e' & -> & He).
  assert (Hl1 : error_listeners_return w1).
  { unfold error_listeners_return in *. now rewrite Hsc. }
  rewrite (He Hl1). simpl. repeat split; [exact Hsc|].
  rewrite camera_requests_app. simpl. unfold camera_requests at 2. simpl. lia.
Qed.

(** A page load where storage still holds 'quagga2', a provider that is not
    registered. *)
Definition stale_preference : World :=
  set_localStorage {| accessible := true; item := Some "quagga2" |} (boot (quiet chrome)).

Lemma stale_preference_blocks_start_witness :
  eval ProviderRegistry.initializeDefaultProvider stale_preference
    = Throw "Unknown provider: quagga2"
  /\ eval BarcodeScanner.start stale_preference = Throw "Unknown provider: quagga2"
  /\ scanner (exec BarcodeScanner.start stale_preference) = scanner stale_preference
  /\ camera_requests (trace (exec BarcodeScanner.start stale_preference))
     = camera_requests (trace stale_preference).
Proof.
  exact (stale_preference_blocks_start stale_preference "quagga2"
           (boot_well_formed (quiet chrome)) eq_refl eq_refl eq_refl eq_refl
           eq_refl eq_refl (List.Forall_nil _)).
Defined.

Lemma setProvider_run (w : World) (n : string) :
  BarcodeScanner.setProvider n w =
    let w0 := if isScanning (scanner w) then exec BarcodeScanner.stop w else w in
    match ProviderRegistry.setCurrentProvider n w0 with
    | (Throw e, w1) => (Throw e, w1)
    | (Normal p, w1) =>
        if isScanning (scanner w)
        then BarcodeScanner.start (BarcodeScanner.set_currentProvider (Some p) w1)
        else (Normal tt, BarcodeScanner.set_currentProvider (Some p) w1)
    end.
Proof.
  unfold BarcodeScanner.setProvider, exec.
  unfold bind at 1. unfold gets at 1. simpl.
  destruct (isScanning (scanner w)); cbv zeta.
  - unfold bind at 1. unfold BarcodeScanner.stop at 1. unfold bind at 1.
    unfold modify at 1 2. unfold bind at 1.
    unfold BarcodeScanner.stop, bind, modify. simpl.
    destruct (ProviderRegistry.setCurrentProvider n _) as [[p|e] w1]; reflexivity.
  - unfold bind at 1. unfold ret at 1. unfold bind at 1.
    destruct (ProviderRegistry.setCurrentProvider n w) as [[p|e] w1]; [|reflexivity].
    reflexivity.
Qed.

(** start() on an engine that holds a provider never goes to the registry:
    the registry and the engine's reference are as before, and if it
    succeeds the engine is scanning. *)
Lemma start_with_provider (w : World) (p : ref) :
  isScanning (scanner w) = false ->
  scanner_currentProvider (scanner w) = Some p ->
  let w' := exec BarcodeScanner.start w in
  registry w' = registry w
  /\ heap w' = heap w
  /\ scanner_currentProvider (scanner w') = Some p
  /\ (eval BarcodeScanner.start w = Normal tt -> isScanning (scanner w') = true).
Proof.
  intros Hs Hp. unfold eval, exec. cbv zeta. rewrite (start_run _ Hs).
  unfold ensure_provider, bind, gets. simpl. rewrite Hp. unfold ret.
  rewrite acquire_camera_run.
  destruct (getUserMedia (env w)) as [[]|e].
  - destruct (play (env w)) as [[]|e].
    + simpl. repeat split. exact Hp.
    + destruct (report_failure_run e
                  (BarcodeScanner.set_stream true (record GetUserMedia w)))
        as (e' & -> & _).
      simpl. repeat split; [exact Hp|discriminate].
  - destruct (report_failure_run e (record GetUserMedia w)) as (e' & -> & _).
    simpl. repeat split; [exact Hp|discriminate].
Qed.

(** After a successful setProvider the engine and the registry hold the same
    instance, the one cached under the requested name, and the engine is
    scanning exactly if it was scanning before. *)
Theorem setProvider_success (w : World) (n : string) :
  eval (BarcodeScanner.setProvider n) w = Normal tt ->
  let w' := exec (BarcodeScanner.setProvider n) w in
  (exists p, scanner_currentProvider (scanner w') = Some p
             /\ currentProvider (registry w') = Some p
             /\ JSMap.get n (loadedProviders (registry w')) = Some p)
  /\ isScanning (scanner w') = isScanning (scanner w).
Proof.
  unfold eval, exec. cbv zeta. rewrite setProvider_run. cbv zeta.
  set (w0 := if isScanning (scanner w) then exec BarcodeScanner.stop w else w).
  assert (Hw0 : isScanning (scanner w0) = false).
  { subst w0. destruct (isScanning (scanner w)) eqn:E; [reflexivity|exact E]. }
  pose proof (setCurrentProvider_success_facts w0 n) as Hok.
  pose proof (setCurrentProvider_engine n w0) as He.
  assert (Hsc : isScanning (scanner (snd (ProviderRegistry.setCurrentProvider n w0)))
                = isScanning (scanner w0)).
  { assert (H : preserves (fun w => isScanning (scanner w))
                  (ProviderRegistry.setCurrentProvider n))
      by (unfold ProviderRegistry.setCurrentProvider; frame_storage).
    apply H. }
  unfold eval, exec, engine_current in *.
  destruct (ProviderRegistry.setCurrentProvider n w0) as [[p|e] w1]; simpl in *;
    [|discriminate].
  destruct (Hok p eq_refl) as (Hcur & Hcache & _).
  destruct (isScanning (scanner w)) eqn:Hs.
  - set (w2 := BarcodeScanner.set_currentProvider (Some p) w1).
    assert (Hs2 : isScanning (scanner w2) = false) by (subst w2; simpl; congruence).
    destruct (start_with_provider w2 p Hs2 eq_refl) as (Hr & _ & Hp & Hsuc).
    unfold eval, exec in *. intros Hn. rewrite Hr, Hp. split.
    + exists p. repeat split; assumption.
    + now apply Hsuc.
  - intros _. simpl. split; [|congruence].
    exists p. repeat split; assumption.
Qed.

Lemma setProvider_success_witness :
  (exists p,
     scanner_currentProvider
       (scanner (exec (BarcodeScanner.setProvider "zxing-wasm") zxing_ready)) = Some p
     /\ currentProvider
          (registry (exec (BarcodeScanner.setProvider "zxing-wasm") zxing_ready)) = Some p
     /\ JSMap.get "zxing-wasm"
          (loadedProviders
             (registry (exec (BarcodeScanner.setProvider "zxing-wasm") zxing_ready)))
        = Some p)
  /\ isScanning (scanner (exec (BarcodeScanner.setProvider "zxing-wasm") zxing_ready))
     = isScanning (scanner zxing_ready).
Proof. exact (setProvider_success zxing_ready "zxing-wasm" eq_refl). Defined.

(** setProvider with a name outside the catalog, on a scanning engine: the
    call fails with the unknown-provider error after scanning was stopped, and
    scanning is not resumed; the engine keeps the reference it had, and the
    registry's fields are as before. *)
Theorem setProvider_unknown_while_scanning (w : World) (u : string) :
  well_formed w ->
  isScanning (scanner w) = true ->
  JSMap.get u (providers (registry w)) = None ->
  let w' := exec (BarcodeScanner.setProvider u) w in
  eval (BarcodeScanner.setProvider u) w = Throw ("Unknown provider: " +:+ u)
  /\ isScanning (scanner w') = false
  /\ stream (scanner w') = false
  /\ scanner_currentProvider (scanner w') = scanner_currentProvider (scanner w)
  /\ registry w' = registry w.
Proof.
  intros Hwf Hs Hcat. unfold eval, exec. cbv zeta.
  rewrite setProvider_run, Hs. cbv zeta.
  assert (Hwf0 : well_formed (exec BarcodeScanner.stop w)) by now apply stop_keeps.
  destruct (setCurrentProvider_unknown_throws (exec BarcodeScanner.stop w) u Hwf0 Hcat)
    as (w1 & -> & Hr & Hsc & _).
  simpl. rewrite Hsc, Hr. repeat split.
Qed.

Lemma setProvider_unknown_while_scanning_witness :
  eval (BarcodeScanner.setProvider "quagga2") zxing_ready
    = Throw "Unknown provider: quagga2"
  /\ isScanning (scanner (exec (BarcodeScanner.setProvider "quagga2") zxing_ready)) = false
  /\ stream (scanner (exec (BarcodeScanner.setProvider "quagga2") zxing_ready)) = false
  /\ scanner_currentProvider
       (scanner (exec (BarcodeScanner.setProvider "quagga2") zxing_ready))
     = scanner_currentProvider (scanner zxing_ready)
  /\ registry (exec (BarcodeScanner.setProvider "quagga2") zxing_ready)
     = registry zxing_ready.
Proof.
  exact (setProvider_unknown_while_scanning zxing_ready "quagga2"
           (start_keeps _ (boot_well_formed (quiet chrome))) eq_refl eq_refl).
Defined.

(** * Further properties of the providers *)

Lemma find_first {A : Type} (f : A -> bool) (before after : list A) (x : A) :
  Forall (fun y => f y = false) before -> f x = true ->
  List.find f (before ++ x :: after) = Some x.
Proof.
  intros H Hx. induction H as [|y l Hy _ IH]; simpl.
  - now rewrite Hx.
  - now rewrite Hy.
Qed.

Lemma find_none {A : Type} (f : A -> bool) (l : list A) :
  Forall (fun y => f y = false) l -> List.find f l = None.
Proof.
  intros H. induction H as [|y l Hy _ IH]; simpl; [reflexivity|now rewrite Hy].
Qed.

(** DynamsoftProvider reports by format, not by position: a PDF417 result is
    returned even when results of other formats, QR codes included, come
    before it in what the SDK captured. *)
Theorem dynamsoft_prefers_pdf417
    (B : Browser) (h : handle) (image : ImageSource)
    (before after : list BarcodeResultItem) (code : BarcodeResultItem) :
  canvas2d B = true ->
  capture (picture_of image) = Normal (before ++ code :: after) ->
  formatString code = "PDF417" ->
  Forall (fun item => formatString item <> "PDF417") before ->
  scanImage (DynamsoftProvider_class B) (Some h) image = Normal (Some (item_text code)).
Proof.
  intros Hc Hcap Hf Hb. simpl. unfold DynamsoftProvider.scanImage.
  assert (Hd : DynamsoftProvider.decodeCanvas (Some h) (picture_of image)
               = Normal (Some (item_text code))).
  { unfold DynamsoftProvider.decodeCanvas, DynamsoftProvider.find_format.
    rewrite Hcap, (find_first _ before after code); [reflexivity| |].
    - eapply List.Forall_impl; [|exact Hb]. intros item Hi. now apply String.eqb_neq.
    - now apply String.eqb_eq. }
  destruct image as [b|b]; simpl in *; [rewrite Hc; simpl|]; exact Hd.
Qed.

(** A picture in which the SDK finds a QR code first and a PDF417 code
    second. *)
Definition qr_then_pdf417 : Bitmap :=
  {| detect := Normal [];
     decodeFromCanvas := Throw "NotFoundException";
     readBarcodes := Normal [];
     capture := Normal [ {| formatString := "QRCode"; item_text := "https://example.com" |};
                         {| formatString := "PDF417"; item_text := "BOARDING PASS" |} ] |}.

Lemma dynamsoft_prefers_pdf417_witness :
  scanImage (DynamsoftProvider_class chrome) (Some EngineHandle)
    (HTMLImageElement qr_then_pdf417)
  = Normal (Some "BOARDING PASS").
Proof.
  apply (dynamsoft_prefers_pdf417 chrome EngineHandle (HTMLImageElement qr_then_pdf417)
           [ {| formatString := "QRCode"; item_text := "https://example.com" |} ] []
           {| formatString := "PDF417"; item_text := "BOARDING PASS" |}).
  - reflexivity.
  - reflexivity.
  - reflexivity.
  - apply List.Forall_cons; [discriminate|apply List.Forall_nil].
Defined.

(** DynamsoftProvider reports only PDF417 and QR codes: when the SDK finds
    codes of other formats only, scanImage and scanVideoFrame return null. *)
Theorem dynamsoft_drops_other_formats
    (B : Browser) (h : handle) (video : HTMLVideoElement)
    (items : list BarcodeResultItem) :
  canvas2d B = true ->
  capture (videoFrame video) = Normal items ->
  Forall (fun item => formatString item <> "PDF417" /\ formatString item <> "QRCode")
    items ->
  scanImage (DynamsoftProvider_class B) (Some h) (HTMLImageElement (videoFrame video))
    = Normal None
  /\ scanVideoFrame (DynamsoftProvider_class B) (Some h) video = Normal None.
Proof.
  intros Hc Hcap Hf.
  assert (Hd : DynamsoftProvider.decodeCanvas (Some h) (videoFrame video) = Normal None).
  { unfold DynamsoftProvider.decodeCanvas, DynamsoftProvider.find_format.
    rewrite Hcap, !find_none; [reflexivity| |].
    - eapply List.Forall_impl; [|exact Hf]. intros item [_ Hi]. now apply String.eqb_neq.
    - eapply List.Forall_impl; [|exact Hf]. intros item [Hi _]. now apply String.eqb_neq. }
  cbn [scanImage scanVideoFrame DynamsoftProvider_class].
  unfold DynamsoftProvider.scanImage, DynamsoftProvider.scanVideoFrame.
  rewrite Hc, Hd. simpl. split; [reflexivity|].
  now destruct (videoWidth video =? 0)%N.
Qed.

(** A picture of a Code 128 label. *)
Definition code128_label : Bitmap :=
  {| detect := Normal [ {| rawValue := "0012345"; format := "code_128" |} ];
     decodeFromCanvas := Normal "0012345";
     readBarcodes := Normal [];
     capture := Normal [ {| formatString := "Code 128"; item_text := "0012345" |} ] |}.

Lemma dynamsoft_drops_other_formats_witness :
  scanImage (DynamsoftProvider_class chrome) (Some EngineHandle)
    (HTMLImageElement (videoFrame (still code128_label))) = Normal None
  /\ scanVideoFrame (DynamsoftProvider_class chrome) (Some EngineHandle)
       (still code128_label) = Normal None.
Proof.
  apply (dynamsoft_drops_other_formats chrome EngineHandle (still code128_label)
           [ {| formatString := "Code 128"; item_text := "0012345" |} ]).
  - reflexivity.
  - reflexivity.
  - apply List.Forall_cons; [split; discriminate|apply List.Forall_nil].
Defined.

(** What a failing decoder leads to depends on the class: an initialized
    BarcodeDetectorProvider, ZXingProvider or ZXingWasmProvider answers null
    from scanImage, an initialized DynamsoftProvider lets the error through. *)
Theorem decoder_failure_by_class
    (B : Browser) (h : handle) (image : ImageSource) (e : string) :
  canvas2d B = true ->
  detect (picture_of image) = Throw e ->
  decodeFromCanvas (picture_of image) = Throw e ->
  readBarcodes (picture_of image) = Throw e ->
  capture (picture_of image) = Throw e ->
  scanImage (BarcodeDetectorProvider_class B) (Some h) image = Normal None
  /\ scanImage (ZXingProvider_class B) (Some h) image = Normal None
  /\ scanImage (ZXingWasmProvider_class B) (Some h) image = Normal None
  /\ scanImage (DynamsoftProvider_class B) (Some h) image = Throw e.
Proof.
  intros Hc H1 H2 H3 H4. simpl.
  unfold BarcodeDetectorProvider.scanImage, ZXingProvider.scanImage,
    ZXingWasmProvider.scanImage, DynamsoftProvider.scanImage,
    DynamsoftProvider.decodeCanvas.
  destruct image as [b|b]; simpl in *; rewrite Hc, ?H1, ?H2, ?H3, ?H4; simpl;
    repeat split.
Qed.

(** A picture on which every decoder fails. *)
Definition corrupt : Bitmap :=
  {| detect := Throw "decode failed";
     decodeFromCanvas := Throw "decode failed";
     readBarcodes := Throw "decode failed";
     capture := Throw "decode failed" |}.

Lemma decoder_failure_by_class_witness :
  scanImage (BarcodeDetectorProvider_class chrome) (Some EngineHandle)
    (HTMLCanvasElement corrupt) = Normal None
  /\ scanImage (ZXingProvider_class chrome) (Some EngineHandle)
       (HTMLCanvasElement corrupt) = Normal None
  /\ scanImage (ZXingWasmProvider_class chrome) (Some EngineHandle)
       (HTMLCanvasElement corrupt) = Normal None
  /\ scanImage (DynamsoftProvider_class chrome) (Some EngineHandle)
       (HTMLCanvasElement corrupt) = Throw "decode failed".
Proof.
  exact (decoder_failure_by_class chrome EngineHandle (HTMLCanvasElement corrupt)
           "decode failed" eq_refl eq_refl eq_refl eq_refl eq_refl).
Defined.

(** ZXingWasmProvider.scanImage never answers the empty string: what it
    returns is null or text that is not empty. *)
Theorem zxing_wasm_scanImage_text_not_empty
    (B : Browser) (readFn : option handle) (image : ImageSource) (t : string) :
  scanImage (ZXingWasmProvider_class B) readFn image = Normal (Some t) ->
  truthy t = true.
Proof.
  simpl. unfold ZXingWasmProvider.scanImage.
  destruct readFn; [|discriminate].
  destruct (canvas2d B); simpl; [|destruct image; discriminate].
  destruct (readBarcodes (picture_of image)) as [[|t' l]|e]; try discriminate.
  destruct (truthy t') eqn:Ht; [|discriminate].
  now intros [= <-].
Qed.

Lemma zxing_wasm_scanImage_text_not_empty_witness :
  scanImage (ZXingWasmProvider_class chrome) (Some EngineHandle)
    (HTMLImageElement (qr "x")) = Normal (Some "x")
  /\ truthy "x" = true.
Proof.
  split; [reflexivity|].
  exact (zxing_wasm_scanImage_text_not_empty chrome (Some EngineHandle)
           (HTMLImageElement (qr "x")) "x" eq_refl).
Defined.

(** * Cleaning up *)

(** A class whose destroy() exists and resets the private field. *)
Definition nulling (c : IBarcodeProvider) : Prop :=
  exists d, destroy c = Some d /\ forall h, d h = None.

Lemma catalog_nulling (B : Browser) (c : IBarcodeProvider) :
  In c (catalogClasses B) -> nulling c.
Proof.
  unfold catalogClasses. simpl.
  intros [<-|[<-|[<-|[<-|[]]]]]; eexists; (split; [reflexivity|reflexivity]).
Qed.

(** An instance after destroy() of a nulling class. *)
Definition destroyed (o : Obj) : Obj := {| cls := cls o; field := None |}.

Lemma after_destroy_nulling (o : Obj) :
  nulling (cls o) -> after_destroy o = destroyed o.
Proof.
  intros (d & Hd & Hn). unfold after_destroy, destroyed. now rewrite Hd, Hn.
Qed.

(** Every reference the registry holds points into the heap. *)
Definition registry_allocated (w : World) : Prop :=
  Forall (fun p => p < length (heap w)) (JSMap.values (loadedProviders (registry w)))
  /\ (forall p, currentProvider (registry w) = Some p -> p < length (heap w)).

Lemma boot_registry_allocated (E : Env) : registry_allocated (boot E).
Proof. split; [apply List.Forall_nil|discriminate]. Qed.

Lemma registry_allocated_grow (w w' : World) :
  registry w' = registry w -> length (heap w) <= length (heap w') ->
  registry_allocated w -> registry_allocated w'.
Proof.
  intros Hr Hl (H1 & H2). unfold registry_allocated. rewrite Hr. split.
  - eapply List.Forall_impl; [|exact H1]. simpl. intros p Hp. lia.
  - intros p Hp. specialize (H2 p Hp). lia.
Qed.

Lemma JSMap_values_set {V : Type} (P : V -> Prop) (k : string) (v : V) (m : JSMap.t V) :
  P v -> Forall P (JSMap.values m) -> Forall P (JSMap.values (JSMap.set k v m)).
Proof.
  intros Hv. unfold JSMap.values.
  induction m as [|[k' v'] m IH]; simpl; intros H.
  - apply List.Forall_cons; [exact Hv|apply List.Forall_nil].
  - inversion H as [|? ? Hv' Hm]; subst.
    destruct (k' =? k); simpl; apply List.Forall_cons; auto.
Qed.

Lemma call_destroy_run (w : World) (p : ref) :
  p < length (heap w) ->
  let w' := exec (call_destroy p) w in
  eval (call_destroy p) w = Normal tt
  /\ registry w' = registry w
  /\ scanner w' = scanner w
  /\ length (heap w') = length (heap w)
  /\ (forall q, q <> p -> heap w' !! q = heap w !! q)
  /\ (forall o, heap w !! p = Some o -> heap w' !! p = Some (after_destroy o)).
Proof.
  intros Hp. destruct (lookup_lt_is_Some_2 _ _ Hp) as [o Ho].
  unfold exec, eval. cbv zeta. rewrite (call_destroy_allocated _ _ _ Ho). simpl.
  unfold after_destroy.
  destruct (destroy (cls o)) as [d|] eqn:Hd; simpl.
  - repeat match goal with |- _ /\ _ => split end; try reflexivity.
    + now rewrite length_insert.
    + intros q Hq. now rewrite list_lookup_insert_ne by congruence.
    + intros o' Ho'. rewrite Ho in Ho'. injection Ho' as <-. rewrite Hd.
      now rewrite list_lookup_insert_eq.
  - repeat match goal with |- _ /\ _ => split end; try reflexivity.
    intros o' Ho'. rewrite Ho in Ho'. injection Ho' as <-. now rewrite Hd.
Qed.

Lemma loadProvider_registry_allocated (n : string) :
  keeps registry_allocated (ProviderRegistry.loadProvider n).
Proof.
  intros w Ha.
  destruct (JSMap.get n (loadedProviders (registry w))) as [q|] eqn:Hc.
  { now rewrite (loadProvider_cached _ _ _ Hc). }
  destruct (JSMap.get n (providers (registry w))) as [info|] eqn:Hcat.
  2: { now rewrite (loadProvider_unknown _ _ Hc Hcat). }
  destruct (loader info) as [c|e] eqn:Hl.
  2: { rewrite (loadProvider_import_fails _ _ _ _ Hc Hcat Hl). simpl.
       now apply (registry_allocated_grow w). }
  rewrite (loadProvider_fresh _ _ _ _ Hc Hcat Hl).
  assert (Hfresh : registry_allocated (fresh_world n c w)).
  { apply (registry_allocated_grow w); try reflexivity; [|exact Ha].
    unfold fresh_world. simpl. rewrite length_app. lia. }
  destruct (fst (init c None)); simpl; [|exact Hfresh].
  destruct Hfresh as (H1 & H2). split; simpl; [|exact H2].
  apply JSMap_values_set; [|exact H1]. rewrite length_app. simpl. lia.
Qed.

Lemma setCurrentProvider_registry_allocated (n : string) :
  keeps registry_allocated (ProviderRegistry.setCurrentProvider n).
Proof.
  intros w Ha. rewrite setCurrentProvider_run.
  assert (Hd : registry_allocated (snd (destroy_current w))).
  { unfold destroy_current.
    destruct (currentProvider (registry w)) as [q|] eqn:Hq; [|exact Ha].
    destruct (call_destroy_run w q (proj2 Ha q Hq)) as (_ & Hr & _ & Hl & _).
    apply (registry_allocated_grow w); [exact Hr| |exact Ha].
    unfold exec in Hl. lia. }
  destruct (destroy_current w) as [[[]|e] w1]; simpl in *; [|exact Hd].
  pose proof (loadProvider_registry_allocated n w1 Hd) as Hl.
  pose proof (loadProvider_caches w1 n) as Hc. unfold eval, exec in Hc.
  destruct (ProviderRegistry.loadProvider n w1) as [[p|e] w2]; simpl in *;
    [|exact Hl].
  specialize (Hc p eq_refl).
  assert (Hp : p < length (heap w2)).
  { destruct Hl as (H1 & _). revert Hc H1. unfold JSMap.values.
    generalize (loadedProviders (registry w2)). intros m.
    induction m as [|[k v] m IH]; simpl; [discriminate|].
    intros Hg Hf. inversion Hf as [|? ? Hv Hm]; subst.
    destruct (k =? n); [now injection Hg as <-|now apply IH]. }
  unfold persist. simpl.
  destruct (accessible (localStorage w2)); simpl;
    (split; [exact (proj1 Hl)|intros q [= <-]; exact Hp]).
Qed.

(** Destroying a list of allocated instances one after the other. *)
Lemma forEach_destroy_run (l : list ref) :
  forall w : World,
    Forall (fun p => p < length (heap w)) l ->
    let w' := exec (forEach call_destroy l) w in
    eval (forEach call_destroy l) w = Normal tt
    /\ registry w' = registry w
    /\ scanner w' = scanner w
    /\ length (heap w') = length (heap w)
    /\ (forall q, ~ In q l -> heap w' !! q = heap w !! q)
    /\ (forall q o, heap w !! q = Some o -> nulling (cls o) ->
          In q l \/ field o = None -> heap w' !! q = Some (destroyed o)).
Proof.
  induction l as [|p l IH]; intros w Hall; cbv zeta.
  - unfold exec, eval. simpl.
    repeat match goal with |- _ /\ _ => split end; try reflexivity.
    intros q o Ho _ [[]|Hf]. rewrite Ho. unfold destroyed. destruct o; simpl in *.
    now subst.
  - inversion Hall as [|? ? Hp Hl]; subst.
    destruct (call_destroy_run w p Hp) as (He & Hr & Hs & Hlen & Hother & Hsame).
    unfold exec, eval in *. simpl. unfold bind.
    destruct (call_destroy p w) as [[[]|e] w1]; simpl in *; [|discriminate].
    assert (Hl1 : Forall (fun p => p < length (heap w1)) l) by now rewrite Hlen.
    destruct (IH w1 Hl1) as (He' & Hr' & Hs' & Hlen' & Hother' & Hnull').
    unfold exec, eval in *.
    repeat match goal with |- _ /\ _ => split end.
    + exact He'.
    + congruence.
    + congruence.
    + congruence.
    + intros q Hq. rewrite Hother' by tauto. apply Hother. intros ->. tauto.
    + intros q o Ho Hn Hcase. destruct (Nat.eq_dec q p) as [->|Hne].
      * specialize (Hsame o Ho). rewrite (after_destroy_nulling o Hn) in Hsame.
        apply (Hnull' p (destroyed o) Hsame Hn). now right.
      * rewrite <- (Hother q Hne) in Ho. apply (Hnull' q o Ho Hn).
        destruct Hcase as [[Heq|Hin]|Hf]; [congruence|now left|now right].
Qed.

Lemma registry_cleanup_run (w : World) :
  ProviderRegistry.cleanup w =
    match
      match currentProvider (registry w) with
      | Some p =>
          match call_destroy p w with
          | (Normal _, w0) => (Normal tt, ProviderRegistry.set_currentProvider None w0)
          | (Throw e, w0) => (Throw e, w0)
          end
      | None => (Normal tt, w)
      end
    with
    | (Throw e, w1) => (Throw e, w1)
    | (Normal _, w1) =>
        match forEach call_destroy (JSMap.values (loadedProviders (registry w1))) w1 with
        | (Throw e, w2) => (Throw e, w2)
        | (Normal _, w2) =>
            (Normal tt, ProviderRegistry.set_loadedProviders JSMap.empty w2)
        end
    end.
Proof.
  unfold ProviderRegistry.cleanup.
  unfold bind at 1. unfold gets at 1. simpl.
  unfold bind at 1.
  destruct (currentProvider (registry w)) as [c|].
  - unfold bind at 1.
    destruct (call_destroy c w) as [[[]|e] w0]; [|reflexivity].
    unfold modify at 1. unfold bind at 1. unfold gets at 1. simpl.
    unfold bind at 1.
    destruct (forEach call_destroy _ _) as [[[]|e] w2]; reflexivity.
  - unfold ret at 1. unfold bind at 1. unfold gets at 1. simpl.
    unfold bind at 1.
    destruct (forEach call_destroy _ _) as [[[]|e] w2]; reflexivity.
Qed.

Lemma registry_cleanup_facts (w : World) :
  registry_allocated w ->
  let w' := exec ProviderRegistry.cleanup w in
  eval ProviderRegistry.cleanup w = Normal tt
  /\ currentProvider (registry w') = None
  /\ loadedProviders (registry w') = JSMap.empty
  /\ providers (registry w') = providers (registry w)
  /\ length (heap w') = length (heap w)
  /\ (forall p o, heap w !! p = Some o -> nulling (cls o) ->
        currentProvider (registry w) = Some p
        \/ In p (JSMap.values (loadedProviders (registry w))) ->
        heap w' !! p = Some (destroyed o))
  /\ (forall p, currentProvider (registry w) <> Some p ->
        ~ In p (JSMap.values (loadedProviders (registry w))) ->
        heap w' !! p = heap w !! p).
Proof.
  intros (Hvals & Hcur). unfold exec, eval. cbv zeta.
  rewrite registry_cleanup_run.
  destruct (currentProvider (registry w)) as [c|] eqn:Hc.
  - destruct (call_destroy_run w c (Hcur c eq_refl))
      as (He & Hr & Hs & Hlen & Hother & Hsame).
    unfold exec, eval in *.
    destruct (call_destroy c w) as [[[]|e] w1]; simpl in *; [|discriminate].
    rewrite Hr.
    assert (Hl2 : Forall (fun p => p < length (heap (ProviderRegistry.set_currentProvider None w1)))
                    (JSMap.values (loadedProviders (registry w)))).
    { simpl. now rewrite Hlen. }
    destruct (forEach_destroy_run _ _ Hl2) as (He' & Hr' & Hs' & Hlen' & Hother' & Hnull').
    unfold exec, eval in *.
    destruct (forEach call_destroy _ _) as [[[]|e] w3]; simpl in *; [|discriminate].
    rewrite Hr'. simpl. rewrite Hr.
    repeat match goal with |- _ /\ _ => split end; try reflexivity.
    + congruence.
    + intros p o Ho Hn Hcase. destruct (Nat.eq_dec p c) as [->|Hne].
      * specialize (Hsame o Ho). rewrite (after_destroy_nulling o Hn) in Hsame.
        apply (Hnull' c (destroyed o) Hsame Hn). now right.
      * rewrite <- (Hother p Hne) in Ho. apply (Hnull' p o Ho Hn).
        destruct Hcase as [[= ->]|Hin]; [congruence|]. now left.
    + intros p Hp Hnin. rewrite Hother' by exact Hnin. apply Hother. congruence.
  - destruct (forEach_destroy_run _ w Hvals) as (He' & Hr' & Hs' & Hlen' & Hother' & Hnull').
    unfold exec, eval in *.
    destruct (forEach call_destroy _ w) as [[[]|e] w3]; simpl in *; [|discriminate].
    rewrite Hr', Hc.
    repeat match goal with |- _ /\ _ => split end; try reflexivity.
    + exact Hlen'.
    + intros p o Ho Hn [Hcase|Hcase]; [discriminate|]. apply Hnull'; auto.
    + intros p _ Hnin. now apply Hother'.
Qed.

(** cleanup(), from a registry whose references are allocated: it returns,
    the registry has no current provider and an empty cache, the catalog is
    as before, and every instance the registry held, whether current or
    cached, has been destroyed (for a class whose destroy resets the field,
    the field is null); instances the registry did not hold are untouched. *)
Theorem registry_cleanup_postconditions (w : World) :
  registry_allocated w ->
  let w' := exec ProviderRegistry.cleanup w in
  eval ProviderRegistry.cleanup w = Normal tt
  /\ currentProvider (registry w') = None
  /\ loadedProviders (registry w') = JSMap.empty
  /\ providers (registry w') = providers (registry w)
  /\ length (heap w') = length (heap w)
  /\ (forall p o, heap w !! p = Some o -> nulling (cls o) ->
        currentProvider (registry w) = Some p
        \/ In p (JSMap.values (loadedProviders (registry w))) ->
        heap w' !! p = Some (destroyed o))
  /\ (forall p, currentProvider (registry w) <> Some p ->
        ~ In p (JSMap.values (loadedProviders (registry w))) ->
        heap w' !! p = heap w !! p).
Proof. apply registry_cleanup_facts. Qed.

Lemma switched_to_wasm_allocated : registry_allocated switched_to_wasm.
Proof.
  apply setCurrentProvider_registry_allocated, setCurrentProvider_registry_allocated,
    boot_registry_allocated.
Qed.

(** cleanup() after 'zxing' and then 'zxing-wasm' were made current: both
    instances end up destroyed and the registry is empty. *)
Lemma registry_cleanup_postconditions_witness :
  eval ProviderRegistry.cleanup switched_to_wasm = Normal tt
  /\ currentProvider (registry (exec ProviderRegistry.cleanup switched_to_wasm)) = None
  /\ loadedProviders (registry (exec ProviderRegistry.cleanup switched_to_wasm))
     = JSMap.empty
  /\ heap (exec ProviderRegistry.cleanup switched_to_wasm) !! 1
     = Some {| cls := ZXingWasmProvider_class chrome; field := None |}.
Proof.
  pose proof (registry_cleanup_postconditions switched_to_wasm switched_to_wasm_allocated)
    as H.
  split; [exact (proj1 H)|].
  split; [exact (proj1 (proj2 H))|].
  split; [exact (proj1 (proj2 (proj2 H)))|].
  apply (proj1 (proj2 (proj2 (proj2 (proj2 (proj2 H))))) 1
           {| cls := ZXingWasmProvider_class chrome; field := Some EngineHandle |}).
  - reflexivity.
  - apply (catalog_nulling chrome). simpl. tauto.
  - left. reflexivity.
Defined.

(** After cleanup() the cache is empty, so a load constructs and initializes
    a new instance: the reference returned is none of those that existed
    before, and the instance is the one its init left. *)
Theorem load_after_cleanup_is_fresh
    (w : World) (n : string) (info : ProviderInfo) (c : IBarcodeProvider) :
  registry_allocated w ->
  JSMap.get n (providers (registry w)) = Some info ->
  loader info = Normal c ->
  fst (init c None) = Normal tt ->
  let w1 := exec ProviderRegistry.cleanup w in
  let w2 := exec (ProviderRegistry.loadProvider n) w1 in
  eval (ProviderRegistry.loadProvider n) w1 = Normal (length (heap w))
  /\ heap w !! length (heap w) = None
  /\ heap w2 !! length (heap w) = Some {| cls := c; field := snd (init c None) |}
  /\ trace w2 = trace w1 ++ [ImportModule n; New (length (heap w)); Init (length (heap w))].
Proof.
  intros Ha Hcat Hl Hi.
  destruct (registry_cleanup_facts w Ha) as (_ & _ & Hcache & Hprov & Hlen & _).
  cbv zeta in *. unfold exec, eval in *.
  set (w1 := snd (ProviderRegistry.cleanup w)) in *.
  assert (Hc1 : JSMap.get n (loadedProviders (registry w1)) = None)
    by now rewrite Hcache.
  assert (Hcat1 : JSMap.get n (providers (registry w1)) = Some info)
    by now rewrite Hprov.
  rewrite (loadProvider_fresh w1 n info c Hc1 Hcat1 Hl), Hi. simpl. rewrite Hlen.
  repeat match goal with |- _ /\ _ => split end.
  - reflexivity.
  - apply lookup_ge_None_2. lia.
  - rewrite <- Hlen. now rewrite list_lookup_middle.
  - now rewrite <- !app_assoc.
Qed.

Lemma load_after_cleanup_is_fresh_witness :
  eval (ProviderRegistry.loadProvider "zxing")
    (exec ProviderRegistry.cleanup switched_to_wasm) = Normal 2
  /\ heap switched_to_wasm !! 2 = None
  /\ heap (exec (ProviderRegistry.loadProvider "zxing")
             (exec ProviderRegistry.cleanup switched_to_wasm)) !! 2
     = Some {| cls := ZXingProvider_class chrome; field := Some EngineHandle |}
  /\ trace (exec (ProviderRegistry.loadProvider "zxing")
              (exec ProviderRegistry.cleanup switched_to_wasm))
     = trace (exec ProviderRegistry.cleanup switched_to_wasm)
       ++ [ImportModule "zxing"; New 2; Init 2].
Proof.
  exact (load_after_cleanup_is_fresh switched_to_wasm "zxing"
           {| info_name := "zxing";
              displayName := "ZXing";
              description := "Fast and reliable barcode scanner supporting QR codes and PDF417";
              loader := Normal (ZXingProvider_class chrome) |}
           (ZXingProvider_class chrome)
           switched_to_wasm_allocated eq_refl eq_refl eq_refl).
Defined.

(** * The sampling loop without a decode *)

(** As long as no attempt decodes, the loop keeps itself scheduled: however
    many times its timer has fired, it has made one scanVideoFrame call per
    invocation, emitted no success event, and the engine is still
    scanning. *)
Lemma runLoop_no_decode (timers : nat) :
  forall (w : World) (p : ref) (o : Obj),
    isScanning (scanner w) = true ->
    scanner_currentProvider (scanner w) = Some p -> heap w !! p = Some o ->
    (forall i, i <= timers -> decodes (attempt w i) = false) ->
    exists w',
      BarcodeScanner.runLoop timers w = (Normal BarcodeScanner.Rescheduled, w')
      /\ scans (trace w') = scans (trace w) + S timers
      /\ success_events (trace w') = success_events (trace w)
      /\ isScanning (scanner w') = true.
Proof.
  induction timers as [|n IH]; intros w p o Hs Hp Ho Hnone;
    rewrite runLoop_unfold; unfold bind at 1;
    rewrite (startScanningLoop_no_decode w p o Hs Hp Ho (Hnone 0 ltac:(lia))).
  - exists (sampled_world p w). split; [reflexivity|]. simpl.
    rewrite scans_app, success_events_app.
    repeat match goal with |- _ /\ _ => split end;
      unfold scans, success_events; simpl; first [exact Hs|lia].
  - unfold bind at 1. unfold perform, modify.
    set (w2 := record (Delay 100) (sampled_world p w)).
    assert (Hnone2 : forall i, i <= n -> decodes (attempt w2 i) = false).
    { intros i Hi. subst w2. rewrite attempt_shift. apply Hnone. lia. }
    destruct (IH w2 p o Hs Hp Ho Hnone2) as (w' & He & Hsc & Hev & Hstill).
    exists w'. split; [exact He|]. rewrite Hsc, Hev. subst w2. simpl.
    rewrite !scans_app, !success_events_app.
    repeat match goal with |- _ /\ _ => split end;
      unfold scans, success_events; simpl; first [exact Hstill|lia].
Qed.

(** A camera that never shows a code: the loop polls without end. *)
Theorem sampling_loop_keeps_polling
    (w : World) (p : ref) (o : Obj) (timers : nat) :
  isScanning (scanner w) = true ->
  scanner_currentProvider (scanner w) = Some p -> heap w !! p = Some o ->
  (forall i, i <= timers -> decodes (attempt w i) = false) ->
  let w' := exec (BarcodeScanner.runLoop timers) w in
  eval (BarcodeScanner.runLoop timers) w = Normal BarcodeScanner.Rescheduled
  /\ scans (trace w') = scans (trace w) + S timers
  /\ success_events (trace w') = success_events (trace w)
  /\ isScanning (scanner w') = true.
Proof.
  intros Hs Hp Ho Hnone.
  destruct (runLoop_no_decode timers w p o Hs Hp Ho Hnone) as (w' & He & H).
  unfold exec, eval. cbv zeta. rewrite He. split; [reflexivity|exact H].
Qed.

Lemma sampling_loop_keeps_polling_witness :
  eval (BarcodeScanner.runLoop 3) zxing_ready = Normal BarcodeScanner.Rescheduled
  /\ scans (trace (exec (BarcodeScanner.runLoop 3) zxing_ready))
     = scans (trace zxing_ready) + 4
  /\ success_events (trace (exec (BarcodeScanner.runLoop 3) zxing_ready))
     = success_events (trace zxing_ready)
  /\ isScanning (scanner (exec (BarcodeScanner.runLoop 3) zxing_ready)) = true.
Proof.
  apply (sampling_loop_keeps_polling zxing_ready 0
           {| cls := ZXingProvider_class chrome; field := Some EngineHandle |} 3).
  - reflexivity.
  - reflexivity.
  - reflexivity.
  - intros i _. reflexivity.
Defined.

(** * The scan engine after cleanup() *)

Lemma scanner_cleanup_run (w : World) :
  BarcodeScanner.cleanup w = ProviderRegistry.cleanup (exec BarcodeScanner.stop w).
Proof. reflexivity. Qed.

Lemma registry_cleanup_scanner : preserves scanner ProviderRegistry.cleanup.
Proof. unfold ProviderRegistry.cleanup. frame. Qed.

Lemma registry_cleanup_env : preserves env ProviderRegistry.cleanup.
Proof. unfold ProviderRegistry.cleanup. frame. Qed.

(** cleanup() destroys the provider but the engine keeps its reference to
    it.  A start() after cleanup() therefore does not ask the registry for a
    provider: it opens the camera and succeeds, and from then on every
    scanFrame throws the not-initialized error, which the loop swallows, so
    the loop polls without ever emitting a result. *)
Theorem start_after_cleanup_never_decodes
    (B : Browser) (w : World) (p : ref) (o : Obj) (timers : nat) :
  registry_allocated w ->
  scanner_currentProvider (scanner w) = Some p ->
  currentProvider (registry w) = Some p ->
  heap w !! p = Some o ->
  In (cls o) (catalogClasses B) ->
  getUserMedia (env w) = Normal tt ->
  play (env w) = Normal tt ->
  let w1 := exec BarcodeScanner.cleanup w in
  let w2 := exec BarcodeScanner.start w1 in
  let w3 := exec (BarcodeScanner.runLoop timers) w2 in
  eval BarcodeScanner.cleanup w = Normal tt
  /\ scanner_currentProvider (scanner w1) = Some p
  /\ heap w1 !! p = Some (destroyed o)
  /\ eval BarcodeScanner.start w1 = Normal tt
  /\ isScanning (scanner w2) = true
  /\ (exists e, eval BarcodeScanner.scanFrame w2 = Throw e
                /\ isNotInitializedError e = true)
  /\ eval (BarcodeScanner.runLoop timers) w2 = Normal BarcodeScanner.Rescheduled
  /\ success_events (trace w3) = success_events (trace w2).
Proof.
  intros Ha Hp Hcur Ho Hcat Hmedia Hplay.
  set (w0 := exec BarcodeScanner.stop w).
  assert (Ha0 : registry_allocated w0) by now apply (registry_allocated_grow w).
  destruct (registry_cleanup_facts w0 Ha0)
    as (He & _ & _ & _ & _ & Hnull & _).
  specialize (Hnull p o Ho (catalog_nulling B _ Hcat) (or_introl Hcur)).
  pose proof (registry_cleanup_scanner w0) as Hsc.
  pose proof (registry_cleanup_env w0) as Henv.
  cbv zeta in *. unfold exec, eval in He, Hnull, Hsc, Henv.
  set (w1 := snd (ProviderRegistry.cleanup w0)) in *.
  assert (Hclean : BarcodeScanner.cleanup w = (Normal tt, w1)).
  { rewrite scanner_cleanup_run. fold w0. subst w1.
    now destruct (ProviderRegistry.cleanup w0) as [r w']; simpl in *; subst r. }
  assert (Hp1 : scanner_currentProvider (scanner w1) = Some p) by now rewrite Hsc.
  assert (Hs1 : isScanning (scanner w1) = false) by now rewrite Hsc.
  set (w2 := BarcodeScanner.set_isScanning true
               (BarcodeScanner.set_stream true (record GetUserMedia w1))).
  assert (Hstart : BarcodeScanner.start w1 = (Normal tt, w2)).
  { rewrite (start_run w1 Hs1).
    unfold ensure_provider, bind, gets. simpl. rewrite Hp1. unfold ret.
    rewrite acquire_camera_run, Henv. simpl. now rewrite Hmedia, Hplay. }
  assert (Hattempt : forall i, exists e,
            attempt w2 i = Throw e /\ isNotInitializedError e = true).
  { intros i. unfold attempt. subst w2. simpl. rewrite Hp1, Hnull. simpl.
    apply (catalog_scanVideoFrame_uninitialized B). exact Hcat. }
  assert (Hnone : forall i, i <= timers -> decodes (attempt w2 i) = false).
  { intros i _. destruct (Hattempt i) as (e & -> & _). reflexivity. }
  destruct (runLoop_no_decode timers w2 p (destroyed o) eq_refl Hp1 Hnull Hnone)
    as (w3 & Hr & _ & Hev & _).
  unfold exec, eval. rewrite Hclean. simpl. rewrite Hstart. simpl. rewrite Hr. simpl.
  repeat match goal with |- _ /\ _ => split end;
    try first [exact Hp1|exact Hnull|reflexivity|exact Hev].
  destruct (Hattempt 0) as (e & Hat & Hni). exists e. split; [|exact Hni].
  rewrite <- Hat. apply scanFrame_attempt.
Qed.

Lemma start_after_cleanup_never_decodes_witness :
  eval BarcodeScanner.cleanup zxing_ready = Normal tt
  /\ scanner_currentProvider (scanner (exec BarcodeScanner.cleanup zxing_ready)) = Some 0
  /\ heap (exec BarcodeScanner.cleanup zxing_ready) !! 0
     = Some {| cls := ZXingProvider_class chrome; field := None |}
  /\ eval BarcodeScanner.start (exec BarcodeScanner.cleanup zxing_ready) = Normal tt
  /\ isScanning
       (scanner (exec BarcodeScanner.start (exec BarcodeScanner.cleanup zxing_ready)))
     = true
  /\ (exists e,
        eval BarcodeScanner.scanFrame
          (exec BarcodeScanner.start (exec BarcodeScanner.cleanup zxing_ready)) = Throw e
        /\ isNotInitializedError e = true)
  /\ eval (BarcodeScanner.runLoop 3)
       (exec BarcodeScanner.start (exec BarcodeScanner.cleanup zxing_ready))
     = Normal BarcodeScanner.Rescheduled
  /\ success_events
       (trace (exec (BarcodeScanner.runLoop 3)
                 (exec BarcodeScanner.start (exec BarcodeScanner.cleanup zxing_ready))))
     = success_events
         (trace (exec BarcodeScanner.start (exec BarcodeScanner.cleanup zxing_ready))).
Proof.
  apply (start_after_cleanup_never_decodes chrome zxing_ready 0
           {| cls := ZXingProvider_class chrome; field := Some EngineHandle |} 3).
  - split; [|intros p [= <-]; vm_compute; lia].
    apply List.Forall_cons; [vm_compute; lia|apply List.Forall_nil].
  - reflexivity.
  - reflexivity.
  - reflexivity.
  - simpl. tauto.
  - reflexivity.
  - reflexivity.
Defined.

(** * Outcomes of scanning an uploaded file *)

Lemma call_scanImage_env (p : ref) (image : ImageSource) :
  preserves env (call_scanImage p image).
Proof. unfold call_scanImage, perform. frame. Qed.

Lemma initializeDefaultProvider_env :
  preserves env ProviderRegistry.initializeDefaultProvider.
Proof.
  unfold ProviderRegistry.initializeDefaultProvider,
    ProviderRegistry.getPreferredProvider, ProviderRegistry.setCurrentProvider.
  frame_storage.
Qed.

(** The try block of img.onload once the engine holds provider [p]: scan
    the image and settle the promise. *)
Definition settle (B : Browser) (b : Bitmap) (p : ref) : M (completion ScanResult) :=
  let* result := call_scanImage p (HTMLImageElement b) in
  match result with
  | Some t =>
      if truthy t then
        if canvas2d B then
          let* url := gets (fun w => toDataURL (env w) b) in
          ret (Normal {| text := t; imageData := url |})
        else ret (Throw "Cannot create thumbnail")
      else throw "No barcode found in the image"
  | None => throw "No barcode found in the image"
  end.

Lemma scanImageFile_run (file : File) (w : World) (b : Bitmap) :
  String.prefix "image/" (file_type file) = true ->
  canvas2d (browser (env w)) = true ->
  content file = Picture b ->
  BarcodeScanner.scanImageFile file w =
    match
      match scanner_currentProvider (scanner w) with
      | Some p => settle (browser (env w)) b p (record NewImage w)
      | None =>
          match ProviderRegistry.initializeDefaultProvider (record NewImage w) with
          | (Normal p, w1) =>
              settle (browser (env w)) b p
                (BarcodeScanner.set_currentProvider (Some p) w1)
          | (Throw e, w1) => (Throw e, w1)
          end
      end
    with
    | (Normal settled, w2) => (settled, w2)
    | (Throw _, w2) => (Throw noCodeFound, w2)
    end.
Proof.
  intros Ht Hc Hb.
  unfold BarcodeScanner.scanImageFile. rewrite Ht. simpl.
  unfold settle, bind, try_catch, gets, perform, modify, lift, ret, throw. simpl.
  rewrite Hc. simpl. rewrite Hb. simpl.
  destruct (scanner_currentProvider (scanner w)) as [p|].
  - destruct (call_scanImage p (HTMLImageElement b) (record NewImage w))
      as [[[t|]|e] w2]; try reflexivity.
    destruct (truthy t); reflexivity.
  - destruct (ProviderRegistry.initializeDefaultProvider (record NewImage w))
      as [[p|e] w1]; [|reflexivity].
    destruct (call_scanImage p (HTMLImageElement b) _) as [[[t|]|e] w2];
      try reflexivity.
    destruct (truthy t); reflexivity.
Qed.

Lemma settle_cases (B : Browser) (b : Bitmap) (p : ref) (w : World) :
  canvas2d B = true ->
  (exists t w',
     settle B b p w
       = (Normal (Normal {| text := t; imageData := toDataURL (env w) b |}), w')
     /\ truthy t = true)
  \/ (exists e w', settle B b p w = (Throw e, w')).
Proof.
  intros Hc. unfold settle, bind, gets, ret, throw. rewrite Hc.
  pose proof (call_scanImage_env p (HTMLImageElement b) w) as Hs.
  destruct (call_scanImage p (HTMLImageElement b) w) as [[[t|]|e] w'];
    simpl in Hs; try (right; eexists; eexists; reflexivity).
  destruct (truthy t) eqn:Ht; [|right; eexists; eexists; reflexivity].
  left. exists t, w'. split; [|exact Ht]. simpl. now rewrite Hs.
Qed.

(** A file of an image type that loads as an image, where canvases have a 2D
    context: the scan either resolves, with text that is not empty and the
    thumbnail of the picture, or rejects with the no-code-found error.  No
    other error reaches the caller: an unknown stored preference, a failed
    import or init, a provider that was destroyed or that throws are all
    reported as no code found. *)
Theorem scanImageFile_outcomes (file : File) (w : World) (b : Bitmap) :
  String.prefix "image/" (file_type file) = true ->
  canvas2d (browser (env w)) = true ->
  content file = Picture b ->
  (exists t,
     eval (BarcodeScanner.scanImageFile file) w
       = Normal {| text := t; imageData := toDataURL (env w) b |}
     /\ truthy t = true)
  \/ eval (BarcodeScanner.scanImageFile file) w = Throw noCodeFound.
Proof.
  intros Ht Hc Hb. unfold eval. rewrite (scanImageFile_run file w b Ht Hc Hb).
  destruct (scanner_currentProvider (scanner w)) as [p|].
  - destruct (settle_cases (browser (env w)) b p (record NewImage w) Hc)
      as [(t & w' & -> & Htr)|(e & w' & ->)]; [left; now exists t|now right].
  - pose proof (initializeDefaultProvider_env (record NewImage w)) as Hi.
    destruct (ProviderRegistry.initializeDefaultProvider (record NewImage w))
      as [[p|e] w1]; simpl in Hi; [|now right].
    destruct (settle_cases (browser (env w)) b p
                (BarcodeScanner.set_currentProvider (Some p) w1) Hc)
      as [(t & w' & -> & Htr)|(e & w' & ->)]; [left|now right].
    exists t. simpl. rewrite Hi. now split.
Qed.

(** A failing decoder behind a DynamsoftProvider, and an engine with a
    destroyed provider, both come out as no code found. *)
Definition corrupt_photo : File :=
  {| file_name := "torn.png"; file_type := "image/png"; content := Picture corrupt |}.

Lemma scanImageFile_outcomes_witness :
  (exists t,
     eval (BarcodeScanner.scanImageFile corrupt_photo)
       (exec BarcodeScanner.cleanup zxing_ready)
       = Normal {| text := t;
                   imageData := toDataURL (env (exec BarcodeScanner.cleanup zxing_ready))
                                  corrupt |}
     /\ truthy t = true)
  \/ eval (BarcodeScanner.scanImageFile corrupt_photo)
       (exec BarcodeScanner.cleanup zxing_ready) = Throw noCodeFound.
Proof.
  exact (scanImageFile_outcomes corrupt_photo (exec BarcodeScanner.cleanup zxing_ready)
           corrupt eq_refl eq_refl eq_refl).
Defined.

(** Failures before the image has loaded touch no provider: without a 2D
    context, with a file that cannot be read, or with content that is not an
    image, the scan rejects with its own error, and the registry, the heap and
    the engine are as before; the only call made is the construction of the
    image element. *)
Theorem scanImageFile_early_failures (file : File) (w : World) :
  String.prefix "image/" (file_type file) = true ->
  canvas2d (browser (env w)) = false \/ content file = Unreadable
  \/ content file = NotAnImage ->
  let w' := exec (BarcodeScanner.scanImageFile file) w in
  eval (BarcodeScanner.scanImageFile file) w
    = Throw (if negb (canvas2d (browser (env w))) then "Cannot get canvas context"
             else match content file with
                  | Unreadable => "Failed to read file."
                  | _ => "Failed to load image. Please try another file."
                  end)
  /\ registry w' = registry w /\ heap w' = heap w /\ scanner w' = scanner w
  /\ trace w' = trace w ++ [NewImage].
Proof.
  intros Ht Hcase. unfold exec, eval, BarcodeScanner.scanImageFile. cbv zeta.
  rewrite Ht. simpl.
  unfold bind, gets, perform, modify, throw. simpl.
  destruct (canvas2d (browser (env w))); simpl.
  - destruct Hcase as [Hc|[-> | ->]]; [discriminate| |]; repeat split.
  - repeat split.
Qed.

Definition unreadable_photo : File :=
  {| file_name := "gone.png"; file_type := "image/png"; content := Unreadable |}.

Lemma scanImageFile_early_failures_witness :
  eval (BarcodeScanner.scanImageFile unreadable_photo) zxing_ready
    = Throw "Failed to read file."
  /\ registry (exec (BarcodeScanner.scanImageFile unreadable_photo) zxing_ready)
     = registry zxing_ready
  /\ heap (exec (BarcodeScanner.scanImageFile unreadable_photo) zxing_ready)
     = heap zxing_ready
  /\ scanner (exec (BarcodeScanner.scanImageFile unreadable_photo) zxing_ready)
     = scanner zxing_ready
  /\ trace (exec (BarcodeScanner.scanImageFile unreadable_photo) zxing_ready)
     = trace zxing_ready ++ [NewImage].
Proof.
  exact (scanImageFile_early_failures unreadable_photo zxing_ready eq_refl
           (or_intror (or_introl eq_refl))).
Defined.

(** * Benchmark runs *)

Lemma collect_total {A B : Type} (body : A -> M B) (P : A -> B -> Prop) (l : list A) :
  (forall x w, exists r, eval (body x) w = Normal r /\ P x r) ->
  forall w, exists rs,
    eval (BenchmarkRunner.collect body l) w = Normal rs /\ Forall2 P l rs.
Proof.
  intros Hbody. induction l as [|x l IH]; intros w.
  - exists []. split; [reflexivity|constructor].
  - destruct (Hbody x w) as (r & Hr & HP). unfold eval in *. simpl.
    unfold bind at 1. destruct (body x w) as [c w1]. simpl in Hr. subst c.
    destruct (IH w1) as (rs & Hrs & HF). unfold bind at 1.
    destruct (BenchmarkRunner.collect body l w1) as [c w2]. simpl in Hrs. subst c.
    exists (r :: rs). split; [reflexivity|now constructor].
Qed.

(** What an entry of an image benchmark can look like: with an error it is a
    failure without result; a result is text that is not empty and comes with
    success. *)
Definition image_entry_sound (r : BenchmarkResult) : Prop :=
  match error r with
  | Some _ => success r = false /\ result r = None
  | None =>
      match result r with
      | Some t => success r = true /\ truthy t = true
      | None => True
      end
  end.

Lemma imageScanAttempt_returns (img : Bitmap) (info : ProviderInfo) (w : World) :
  exists r, eval (BenchmarkRunner.imageScanAttempt img info) w = Normal r
            /\ (providerName r = displayName info /\ image_entry_sound r).
Proof.
  unfold eval, BenchmarkRunner.imageScanAttempt, try_catch, bind, gets, ret. simpl.
  destruct (ProviderRegistry.loadProvider (info_name info) w) as [[p|e] w1].
  - destruct (call_scanImage p (HTMLImageElement img) w1) as [[[t|]|e] w2]; simpl.
    + eexists. split; [reflexivity|]. split; [reflexivity|].
      unfold image_entry_sound, BenchmarkRunner.or_undefined. simpl.
      destruct (truthy t) eqn:Ht; simpl; auto.
    + eexists. split; [reflexivity|]. split; [reflexivity|exact I].
    + eexists. split; [reflexivity|]. split; [reflexivity|]. split; reflexivity.
  - simpl. eexists. split; [reflexivity|]. split; [reflexivity|]. split; reflexivity.
Qed.

Lemma benchmarkImageScan_run (imageFile : File) (w : World) :
  BenchmarkRunner.benchmarkImageScan imageFile w =
    match content imageFile with
    | Unreadable => (Throw "Failed to read file", record NewImage w)
    | NotAnImage => (Throw "Failed to load image", record NewImage w)
    | Picture b =>
        match BenchmarkRunner.collect (BenchmarkRunner.imageScanAttempt b)
                (JSMap.values (providers (registry w))) (record NewImage w) with
        | (Normal rs, w1) =>
            (Normal (BenchmarkRunner.generateReport
                       ("Image Scan - " +:+ file_name imageFile) rs), w1)
        | (Throw e, w1) => (Throw e, w1)
        end
    end.
Proof.
  unfold BenchmarkRunner.benchmarkImageScan, ProviderRegistry.getAvailableProviders,
    BenchmarkRunner.loadImage, bind, gets, perform, modify, ret, throw.
  simpl. destruct (content imageFile) as [| |b]; reflexivity.
Qed.

(** benchmarkImageScan stops only on a file it cannot load, and then before
    any provider is looked at.  Otherwise it returns a report with one entry
    per catalog provider, in catalog order and under the provider's display
    name, whether the provider loaded, scanned or failed; and every entry is
    sound. *)
Theorem benchmarkImageScan_report (imageFile : File) (w : World) :
  match content imageFile with
  | Unreadable =>
      BenchmarkRunner.benchmarkImageScan imageFile w
        = (Throw "Failed to read file", record NewImage w)
  | NotAnImage =>
      BenchmarkRunner.benchmarkImageScan imageFile w
        = (Throw "Failed to load image", record NewImage w)
  | Picture _ =>
      exists report,
        eval (BenchmarkRunner.benchmarkImageScan imageFile) w = Normal report
        /\ testName report = "Image Scan - " +:+ file_name imageFile
        /\ map providerName (results report)
           = map displayName (JSMap.values (providers (registry w)))
        /\ Forall image_entry_sound (results report)
  end.
Proof.
  unfold eval. rewrite benchmarkImageScan_run.
  destruct (content imageFile) as [| |b]; try reflexivity.
  destruct (collect_total (BenchmarkRunner.imageScanAttempt b)
              (fun info r => providerName r = displayName info /\ image_entry_sound r)
              (JSMap.values (providers (registry w)))
              (imageScanAttempt_returns b) (record NewImage w)) as (rs & Hrs & HF).
  unfold eval in Hrs.
  destruct (BenchmarkRunner.collect _ _ _) as [c w1]. simpl in Hrs. subst c.
  eexists. split; [reflexivity|]. simpl. split; [reflexivity|].
  clear -HF. induction HF as [|info r l rs [Hn Hs] _ [IH1 IH2]]; simpl.
  - split; [reflexivity|constructor].
  - split; [now rewrite Hn, IH1|now constructor].
Qed.

(** What an entry of a video benchmark looks like: a success with a result
    and no error, or a failure with an error, no result and duration 0. *)
Definition video_entry_sound (r : BenchmarkResult) : Prop :=
  (success r = true /\ error r = None /\ exists s, result r = Some s)
  \/ (success r = false /\ (exists e, error r = Some e) /\ result r = None
      /\ duration r = 0%Q).

Lemma videoFrameProvider_returns (iterations : nat) (info : ProviderInfo) (w : World) :
  exists r, eval (BenchmarkRunner.videoFrameProvider iterations info) w = Normal r
            /\ (providerName r = displayName info /\ video_entry_sound r
                /\ (iterations = 0 -> success r = false)).
Proof.
  unfold eval, BenchmarkRunner.videoFrameProvider, try_catch. unfold bind at 1.
  destruct (ProviderRegistry.loadProvider (info_name info) w) as [[p|e] w1].
  - unfold bind at 1.
    assert (Hzero : iterations = 0 ->
              fst (BenchmarkRunner.iterate iterations
                     (BenchmarkRunner.videoFrameAttempt info p) w1) = Normal []).
    { now intros ->. }
    destruct (BenchmarkRunner.iterate iterations _ w1) as [[rs|e] w2]; simpl in *.
    + unfold ret. simpl. eexists. split; [reflexivity|]. split; [reflexivity|].
      destruct (List.filter success rs) as [|x l] eqn:Hf; simpl.
      * split; [|reflexivity]. right. repeat split. now eexists.
      * split.
        -- left. repeat split. now eexists.
        -- intros Hz. specialize (Hzero Hz). injection Hzero as ->. discriminate.
    + unfold ret. eexists. split; [reflexivity|]. split; [reflexivity|].
      split; [|reflexivity]. right. repeat split. now eexists.
  - simpl. unfold ret. eexists. split; [reflexivity|]. split; [reflexivity|].
    split; [|reflexivity]. right. repeat split. now eexists.
Qed.

Lemma filter_none {A : Type} (f : A -> bool) (l : list A) :
  Forall (fun x => f x = false) l -> List.filter f l = [].
Proof.
  intros H. induction H as [|x l Hx _ IH]; simpl; [reflexivity|now rewrite Hx].
Qed.

Lemma benchmarkVideoFrame_run (iterations : nat) (w : World) :
  BenchmarkRunner.benchmarkVideoFrame iterations w =
    match BenchmarkRunner.collect (BenchmarkRunner.videoFrameProvider iterations)
            (JSMap.values (providers (registry w))) w with
    | (Normal rs, w1) =>
        (Normal (BenchmarkRunner.generateReport
                   ("Video Frame Scan (" +:+ pretty iterations +:+ " iterations)") rs),
         w1)
    | (Throw e, w1) => (Throw e, w1)
    end.
Proof.
  unfold BenchmarkRunner.benchmarkVideoFrame, ProviderRegistry.getAvailableProviders,
    bind, gets, ret.
  simpl. destruct (BenchmarkRunner.collect _ _ _) as [[rs|e] w1]; reflexivity.
Qed.

(** benchmarkVideoFrame never throws: it returns a report with one entry per
    catalog provider, in catalog order and under the provider's display name,
    and every entry is sound.  With zero iterations every entry is a failure,
    so the report names no fastest provider and its success rate is 0. *)
Theorem benchmarkVideoFrame_report (iterations : nat) (w : World) :
  exists report,
    eval (BenchmarkRunner.benchmarkVideoFrame iterations) w = Normal report
    /\ testName report = "Video Frame Scan (" +:+ pretty iterations +:+ " iterations)"
    /\ map providerName (results report)
       = map displayName (JSMap.values (providers (registry w)))
    /\ Forall video_entry_sound (results report)
    /\ (iterations = 0 ->
        Forall (fun r => success r = false) (results report)
        /\ fastestProvider (summary report) = None
        /\ successRate (summary report) = Number.zero).
Proof.
  unfold eval. rewrite benchmarkVideoFrame_run.
  destruct (collect_total (BenchmarkRunner.videoFrameProvider iterations)
              (fun info r => providerName r = displayName info /\ video_entry_sound r
                             /\ (iterations = 0 -> success r = false))
              (JSMap.values (providers (registry w)))
              (videoFrameProvider_returns iterations) w) as (rs & Hrs & HF).
  unfold eval in Hrs.
  destruct (BenchmarkRunner.collect _ _ _) as [c w1]. simpl in Hrs. subst c.
  eexists. split; [reflexivity|]. simpl. split; [reflexivity|].
  assert (H : map providerName rs
              = map displayName (JSMap.values (providers (registry w)))
              /\ Forall video_entry_sound rs
              /\ (iterations = 0 -> Forall (fun r => success r = false) rs)).
  { clear -HF. induction HF as [|info r l rs (Hn & Hs & Hz) _ (IH1 & IH2 & IH3)]; simpl.
    - repeat split; constructor.
    - split; [now rewrite Hn, IH1|]. split; [now constructor|].
      intros Hi. constructor; auto. }
  destruct H as (H1 & H2 & H3). split; [exact H1|]. split; [exact H2|].
  intros Hz. specialize (H3 Hz). split; [exact H3|].
  rewrite (filter_none _ _ H3). simpl. split; [reflexivity|].
  destruct rs; reflexivity.
Qed.

(** * Listeners that throw *)

Definition always_throws (callback : Listener) : Prop :=
  forall d, exists e, callback d = Throw e.

Lemma deliver_throws (d : EventData) (l : list Listener) (w : World) :
  Exists always_throws l ->
  exists e, forEach (fun callback => lift (callback d)) l w = (Throw e, w).
Proof.
  intros H. revert w. induction H as [c l Hc|c l _ IH]; intros w; simpl;
    unfold bind, lift.
  - destruct (Hc d) as [e ->]. now exists e.
  - destruct (c d) as [[]|e]; [apply IH|now exists e].
Qed.

(** emit() runs the callbacks inside the caller's control flow: when one of
    them throws, emit throws. *)
Lemma emit_throws (ev : ScannerEventType) (d : EventData) (w : World) :
  Exists always_throws (eventListeners (scanner w) ev) ->
  exists e, BarcodeScanner.emit ev d w = (Throw e, record (Emit ev d) w).
Proof.
  intros H. unfold BarcodeScanner.emit, bind, perform, modify, gets. simpl.
  destruct (deliver_throws d _ (record (Emit ev d) w) H) as [e He].
  exists e. simpl in He. now rewrite He.
Qed.

Lemma startScanningLoop_listener_throws (w : World) (p : ref) (o : Obj) :
  isScanning (scanner w) = true ->
  canvas2d (browser (env w)) = true ->
  Exists always_throws (eventListeners (scanner w) EvSuccess) ->
  scanner_currentProvider (scanner w) = Some p -> heap w !! p = Some o ->
  decodes (attempt w 0) = true ->
  exists d,
    BarcodeScanner.startScanningLoop w
      = (Normal BarcodeScanner.Rescheduled, record (Emit EvSuccess d) (sampled_world p w)).
Proof.
  intros Hs Hc Hl Hp Ho Hd. rewrite (startScanningLoop_scanning _ Hs).
  rewrite <- scanFrame_attempt in Hd. unfold exec, eval in *.
  rewrite (scanFrame_call _ _ _ Hp Ho) in *. simpl in *.
  destruct (scanVideoFrame (cls o) (field o) (preview (env w) (sampled w)))
    as [[t|]|e]; simpl in Hd; try discriminate.
  rewrite Hd. simpl. rewrite Hc.
  eexists.
  destruct (emit_throws EvSuccess
              (ResultData {| text := t; imageData := snapshot (sampled_world p w) |})
              (sampled_world p w) Hl) as [e ->].
  reflexivity.
Qed.

(** The success event is emitted inside the try block of the loop.  A
    success listener that throws therefore keeps the loop going: with a code
    in view, every invocation scans, emits a success event and reschedules
    itself. *)
Theorem throwing_listener_repeats_success (timers : nat) :
  forall (w : World) (p : ref) (o : Obj),
    isScanning (scanner w) = true ->
    canvas2d (browser (env w)) = true ->
    Exists always_throws (eventListeners (scanner w) EvSuccess) ->
    scanner_currentProvider (scanner w) = Some p -> heap w !! p = Some o ->
    (forall i, i <= timers -> decodes (attempt w i) = true) ->
    exists w',
      BarcodeScanner.runLoop timers w = (Normal BarcodeScanner.Rescheduled, w')
      /\ scans (trace w') = scans (trace w) + S timers
      /\ success_events (trace w') = success_events (trace w) + S timers.
Proof.
  induction timers as [|n IH]; intros w p o Hs Hc Hl Hp Ho Hall;
    rewrite runLoop_unfold; unfold bind at 1;
    destruct (startScanningLoop_listener_throws w p o Hs Hc Hl Hp Ho
                (Hall 0 ltac:(lia))) as [d ->].
  - eexists. split; [reflexivity|]. simpl.
    rewrite !scans_app, !success_events_app.
    split; unfold scans, success_events; simpl; lia.
  - unfold bind at 1. unfold perform, modify.
    set (w2 := record (Delay 100) (record (Emit EvSuccess d) (sampled_world p w))).
    assert (Hall2 : forall i, i <= n -> decodes (attempt w2 i) = true).
    { intros i Hi. specialize (Hall (S i) ltac:(lia)).
      unfold attempt in *. subst w2. simpl. rewrite Nat.add_succ_r in Hall.
      exact Hall. }
    destruct (IH w2 p o Hs Hc Hl Hp Ho Hall2) as (w' & He & Hsc & Hev).
    exists w'. split; [exact He|]. rewrite Hsc, Hev. subst w2. simpl.
    rewrite !scans_app, !success_events_app.
    split; unfold scans, success_events; simpl; lia.
Qed.

(** A code held in front of the camera. *)
Definition code_in_view : Env :=
  {| browser := chrome;
     latency := fun _ => 0%Q;
     preview := fun _ => still (qr "https://example.com");
     getUserMedia := Normal tt;
     play := Normal tt;
     toDataURL := fun _ => "data:image/jpeg;base64," |}.

(** An engine scanning it, whose success listener throws. *)
Definition failing_listener : World :=
  exec BarcodeScanner.start
    (exec (BarcodeScanner.on EvSuccess (fun _ => Throw "render failed"))
       (boot code_in_view)).

Lemma throwing_listener_repeats_success_witness :
  exists w',
    BarcodeScanner.runLoop 2 failing_listener = (Normal BarcodeScanner.Rescheduled, w')
    /\ scans (trace w') = scans (trace failing_listener) + 3
    /\ success_events (trace w') = success_events (trace failing_listener) + 3.
Proof.
  apply (throwing_listener_repeats_success 2 failing_listener 0
           {| cls := ZXingProvider_class chrome; field := Some EngineHandle |}).
  - reflexivity.
  - reflexivity.
  - apply Exists_cons_hd. intros d. now exists "render failed".
  - reflexivity.
  - reflexivity.
  - intros i _. reflexivity.
Defined.

(** * Ties in a benchmark report *)

Lemma fold_faster_keep (l : list BenchmarkResult) (x : BenchmarkResult) :
  Forall (fun y => (duration x <= duration y)%Q) l -> fold_left faster l x = x.
Proof.
  intros H. induction H as [|y l Hy _ IH]; simpl; [reflexivity|].
  unfold faster at 2.
  destruct (BenchmarkRunner.Qltb (duration y) (duration x)) eqn:E; [|exact IH].
  apply Qltb_lt in E. exfalso. exact (Qlt_not_le _ _ E Hy).
Qed.

Lemma fold_faster_first_minimum (before after : list BenchmarkResult)
    (r : BenchmarkResult) :
  Forall (fun y => (duration r <= duration y)%Q) after ->
  forall x,
    (duration r < duration x)%Q ->
    Forall (fun y => (duration r < duration y)%Q) before ->
    fold_left faster (before ++ r :: after) x = r.
Proof.
  intros Hafter. induction before as [|b before IH]; intros x Hx Hbefore; simpl.
  - unfold faster at 2. apply Qltb_lt in Hx. rewrite Hx.
    now apply fold_faster_keep.
  - inversion Hbefore as [|? ? Hb Hrest]; subst. apply IH; [|exact Hrest].
    unfold faster. now destruct (BenchmarkRunner.Qltb (duration b) (duration x)).
Qed.

(** Among successful results of equal duration the report names the one that
    comes first: fastestProvider is the first successful result that no
    successful result beats. *)
Theorem fastestProvider_is_first_minimum
    (testName : string) (results before after : list BenchmarkResult)
    (r : BenchmarkResult) :
  List.filter success results = before ++ r :: after ->
  Forall (fun y => (duration r < duration y)%Q) before ->
  Forall (fun y => (duration r <= duration y)%Q) after ->
  fastestProvider (summary (BenchmarkRunner.generateReport testName results))
    = Some (providerName r).
Proof.
  intros Hs Hbefore Hafter. unfold BenchmarkRunner.generateReport. simpl.
  rewrite Hs. unfold BenchmarkRunner.reduce.
  destruct before as [|b before]; simpl.
  - f_equal. f_equal. now apply fold_faster_keep.
  - inversion Hbefore as [|? ? Hb Hrest]; subst.
    f_equal. f_equal. now apply fold_faster_first_minimum.
Qed.

Lemma fastestProvider_is_first_minimum_witness :
  fastestProvider
    (summary
       (BenchmarkRunner.generateReport "tie"
          [ {| providerName := "slow"; success := true; duration := 12;
               error := None; result := Some "x" |};
            {| providerName := "first"; success := true; duration := 7;
               error := None; result := Some "x" |};
            {| providerName := "second"; success := true; duration := 7;
               error := None; result := Some "x" |} ]))
  = Some "first".
Proof.
  apply (fastestProvider_is_first_minimum "tie" _
           [ {| providerName := "slow"; success := true; duration := 12;
                error := None; result := Some "x" |} ]
           [ {| providerName := "second"; success := true; duration := 7;
                error := None; result := Some "x" |} ]
           {| providerName := "first"; success := true; duration := 7;
              error := None; result := Some "x" |}).
  - reflexivity.
  - apply List.Forall_cons; [reflexivity|apply List.Forall_nil].
  - apply List.Forall_cons; [discriminate|apply List.Forall_nil].
Defined.

(** * A switch that fails *)

Lemma loadProvider_failure (w : World) (n e : string) :
  eval (ProviderRegistry.loadProvider n) w = Throw e ->
  let w' := exec (ProviderRegistry.loadProvider n) w in
  registry w' = registry w
  /\ localStorage w' = localStorage w
  /\ (forall p o, heap w !! p = Some o -> heap w' !! p = Some o).
Proof.
  unfold eval, exec. cbv zeta.
  destruct (JSMap.get n (loadedProviders (registry w))) as [q|] eqn:Hc.
  { now rewrite (loadProvider_cached _ _ _ Hc). }
  destruct (JSMap.get n (providers (registry w))) as [info|] eqn:Hcat.
  2: { rewrite (loadProvider_unknown _ _ Hc Hcat). simpl. auto. }
  destruct (loader info) as [c|e'] eqn:Hl.
  2: { rewrite (loadProvider_import_fails _ _ _ _ Hc Hcat Hl). simpl. auto. }
  rewrite (loadProvider_fresh _ _ _ _ Hc Hcat Hl).
  destruct (fst (init c None)); simpl; [discriminate|].
  intros _. repeat split. intros p o Ho. now apply lookup_app_l_Some.
Qed.

(** setCurrentProvider destroys the current provider before it knows whether
    the new one can be had.  When the call fails, for whatever reason (unknown
    name, failed import, failed init), the registry is as before, still
    naming the old provider as current, the stored preference is not
    written, and the old provider has been destroyed. *)
Theorem setCurrentProvider_failure (w : World) (n e : string) :
  registry_allocated w ->
  eval (ProviderRegistry.setCurrentProvider n) w = Throw e ->
  let w' := exec (ProviderRegistry.setCurrentProvider n) w in
  registry w' = registry w
  /\ localStorage w' = localStorage w
  /\ (forall p o, currentProvider (registry w) = Some p -> heap w !! p = Some o ->
        heap w' !! p = Some (after_destroy o)).
Proof.
  intros (_ & Hcur). unfold eval, exec. cbv zeta. rewrite setCurrentProvider_run.
  pose proof (destroy_current_localStorage w) as Hst.
  assert (Hd : fst (destroy_current w) = Normal tt
               /\ registry (snd (destroy_current w)) = registry w
               /\ forall p o, currentProvider (registry w) = Some p ->
                    heap w !! p = Some o ->
                    heap (snd (destroy_current w)) !! p = Some (after_destroy o)).
  { unfold destroy_current.
    destruct (currentProvider (registry w)) as [q|] eqn:Hq.
    - destruct (call_destroy_run w q (Hcur q eq_refl)) as (He & Hr & _ & _ & _ & Hsame).
      unfold exec, eval in *. repeat split; [exact He|exact Hr|].
      intros p o [= <-]. apply Hsame.
    - repeat split. discriminate. }
  destruct Hd as (He & Hr & Hsame).
  destruct (destroy_current w) as [[[]|e0] w1]; simpl in *; [|discriminate].
  pose proof (loadProvider_failure w1 n) as Hl. unfold eval, exec in Hl.
  destruct (ProviderRegistry.loadProvider n w1) as [[q|e1] w2]; simpl in *;
    [discriminate|].
  intros _. destruct (Hl e1 eq_refl) as (Hr2 & Hs2 & Hh2).
  repeat split; [congruence|congruence|].
  intros p o Hp Ho. apply Hh2. now apply Hsame.
Qed.

(** In a browser without the native detector, with 'zxing' current. *)
Definition zxing_in_jsdom : World :=
  exec (ProviderRegistry.setCurrentProvider "zxing") (boot (quiet jsdom)).

Lemma setCurrentProvider_failure_witness :
  eval (ProviderRegistry.setCurrentProvider "barcode-detector") zxing_in_jsdom
    = Throw "BarcodeDetector API not supported in this browser"
  /\ registry (exec (ProviderRegistry.setCurrentProvider "barcode-detector") zxing_in_jsdom)
     = registry zxing_in_jsdom
  /\ localStorage
       (exec (ProviderRegistry.setCurrentProvider "barcode-detector") zxing_in_jsdom)
     = localStorage zxing_in_jsdom
  /\ heap (exec (ProviderRegistry.setCurrentProvider "barcode-detector") zxing_in_jsdom)
       !! 0
     = Some {| cls := ZXingProvider_class jsdom; field := None |}.
Proof.
  pose proof (setCurrentProvider_failure zxing_in_jsdom "barcode-detector"
                "BarcodeDetector API not supported in this browser"
                (setCurrentProvider_registry_allocated "zxing" _
                   (boot_registry_allocated (quiet jsdom)))
                eq_refl) as H.
  split; [reflexivity|].
  split; [exact (proj1 H)|].
  split; [exact (proj1 (proj2 H))|].
  exact (proj2 (proj2 H) 0
           {| cls := ZXingProvider_class jsdom; field := Some EngineHandle |}
           eq_refl eq_refl).
Defined.

(** * The logger

    The classes above call the logger for its output only; here is the
    [Logger] class itself, on a world of its own: the singleton, the
    session-storage item 'barcode-scanner-logs', the console and the
    clock. *)

(** type LogLevel = 'debug' | 'info' | 'warn' | 'error' *)
Inductive LogLevel := LevelDebug | LevelInfo | LevelWarn | LevelError.

(** The [data] argument of a log call, as far as the logger can tell values
    apart: an object of string fields, or a value JSON.stringify throws on. *)
Inductive LogData :=
| Object (fields : list (string * string))
| Unserializable (reason : string).

Record LogEntry := {
  timestamp : string;
  level : LogLevel;
  category : string;
  log_message : string;
  data : option LogData;
  (* the message of the Error attached to the entry *)
  log_error : option string;
}.

Record Logger := {
  isDevelopment : bool;
  activeTimers : JSMap.t Q;
  groupStack : list string;
}.

(** sessionStorage, restricted to the key 'barcode-scanner-logs' and to
    values written by the logger.  Any access throws when storage is not
    available, and setItem throws when the quota is exceeded. *)
Record SessionStorage := {
  available : bool;
  quotaExceeded : bool;
  logs : option (list LogEntry);
}.

Inductive ConsoleCall :=
(* console.debug / info / warn / error (...consoleArgs), indented by
   2 * indent spaces *)
| ConsoleLog (indent : nat) (entry : LogEntry)
(* if (error) console.debug / info / warn / error (error) *)
| ConsoleErrorObject (level : LogLevel) (e : string)
| ConsoleGroup (indent : nat) (title : string)
| ConsoleGroupEnd
| ConsoleClear.

Record LoggerWorld := {
  logger : Logger;
  sessionStorage : SessionStorage;
  console : list ConsoleCall;
  (* performance.now() *)
  performance_now : Q;
  (* new Date().toISOString().split('T')[1].slice(0, -1) at that time *)
  formatTimestamp : Q -> string;
  (* duration.toFixed(2) *)
  toFixed : Q -> string;
}.

Module Logger.

Definition set_logger (l : Logger) (w : LoggerWorld) : LoggerWorld :=
  {| logger := l; sessionStorage := sessionStorage w; console := console w;
     performance_now := performance_now w; formatTimestamp := formatTimestamp w;
     toFixed := toFixed w |}.

Definition set_logs (l : option (list LogEntry)) (w : LoggerWorld) : LoggerWorld :=
  {| logger := logger w;
     sessionStorage := {| available := available (sessionStorage w);
                          quotaExceeded := quotaExceeded (sessionStorage w);
                          logs := l |};
     console := console w;
     performance_now := performance_now w; formatTimestamp := formatTimestamp w;
     toFixed := toFixed w |}.

Definition print (c : ConsoleCall) (w : LoggerWorld) : LoggerWorld :=
  {| logger := logger w; sessionStorage := sessionStorage w;
     console := console w ++ [c];
     performance_now := performance_now w; formatTimestamp := formatTimestamp w;
     toFixed := toFixed w |}.

Definition set_activeTimers (m : JSMap.t Q) (w : LoggerWorld) : LoggerWorld :=
  set_logger {| isDevelopment := isDevelopment (logger w);
                activeTimers := m;
                groupStack := groupStack (logger w) |} w.

Definition set_groupStack (s : list string) (w : LoggerWorld) : LoggerWorld :=
  set_logger {| isDevelopment := isDevelopment (logger w);
                activeTimers := activeTimers (logger w);
                groupStack := s |} w.

(** Map.prototype.delete *)
Definition delete {V : Type} (k : string) (m : JSMap.t V) : JSMap.t V :=
  List.filter (fun kv => negb (fst kv =? k)) m.

(** JSON.parse(sessionStorage.getItem(key) || '[]') *)
Definition storedLogs (w : LoggerWorld) : list LogEntry :=
  match logs (sessionStorage w) with
  | Some l => l
  | None => []
  end.

(** What JSON.stringify and JSON.parse make of an entry: an Error
    serializes as an empty object, so its message is lost; a value that
    cannot be serialized makes stringify throw. *)
Definition serialized (entry : LogEntry) : completion LogEntry :=
  match data entry with
  | Some (Unserializable reason) => Throw reason
  | _ =>
      Normal {| timestamp := timestamp entry; level := level entry;
                category := category entry; log_message := log_message entry;
                data := data entry;
                log_error := match log_error entry with
                             | Some _ => Some "{}"
                             | None => None
                             end |}
  end.

(** logs.push(entry); if (logs.length > 100) logs.splice(0, logs.length - 100) *)
Definition pushed (entry : LogEntry) (l : list LogEntry) : list LogEntry :=
  let l' := l ++ [entry] in
  if (100 <? length l')%nat then drop (length l' - 100) l' else l'.

(** The body is one try block whose catch ignores the error. *)
Definition storeLogEntry (entry : LogEntry) (w : LoggerWorld) : LoggerWorld :=
  if negb (available (sessionStorage w)) then w
  else
    match serialized entry with
    | Throw _ => w
    | Normal stored =>
        if quotaExceeded (sessionStorage w) then w
        else set_logs (Some (pushed stored (storedLogs w))) w
    end.

Definition is_debug (l : LogLevel) : bool :=
  match l with
  | LevelDebug => true
  | _ => false
  end.

Definition log (l : LogLevel) (c m : string) (d : option LogData) (e : option string)
    (w : LoggerWorld) : LoggerWorld :=
  if negb (isDevelopment (logger w)) && is_debug l then w
  else
    let logEntry :=
      {| timestamp := formatTimestamp w (performance_now w);
         level := l; category := c; log_message := m; data := d; log_error := e |} in
    let w1 := print (ConsoleLog (length (groupStack (logger w))) logEntry) w in
    let w2 := match e with
              | Some err => print (ConsoleErrorObject l err) w1
              | None => w1
              end in
    if isDevelopment (logger w) then storeLogEntry logEntry w2 else w2.

Definition debug (c m : string) (d : option LogData) : LoggerWorld -> LoggerWorld :=
  log LevelDebug c m d None.

Definition info (c m : string) (d : option LogData) : LoggerWorld -> LoggerWorld :=
  log LevelInfo c m d None.

Definition warn (c m : string) (d : option LogData) : LoggerWorld -> LoggerWorld :=
  log LevelWarn c m d None.

Definition error (c m : string) (e : option string) (d : option LogData)
  : LoggerWorld -> LoggerWorld :=
  log LevelError c m d e.

Definition time (label : string) (w : LoggerWorld) : LoggerWorld :=
  debug "Utils" ("⏱️ Timer started: " +:+ label) None
    (set_activeTimers (JSMap.set label (performance_now w) (activeTimers (logger w))) w).

Definition timeEnd (label : string) (w : LoggerWorld) : LoggerWorld :=
  match JSMap.get label (activeTimers (logger w)) with
  | Some startTime =>
      let duration := (performance_now w - startTime)%Q in
      info "Utils" ("⏱️ Timer ended: " +:+ label)
        (Some (Object [("duration", toFixed w duration +:+ "ms")]))
        (set_activeTimers (delete label (activeTimers (logger w))) w)
  | None => warn "Utils" ("⏱️ Timer not found: " +:+ label) None w
  end.

Definition group (c title : string) (w : LoggerWorld) : LoggerWorld :=
  debug c ("Group started: " +:+ title) None
    (print (ConsoleGroup (length (groupStack (logger w))) title)
       (set_groupStack (groupStack (logger w) ++ [title]) w)).

Definition groupEnd (w : LoggerWorld) : LoggerWorld :=
  match List.rev (groupStack (logger w)) with
  | [] => w
  | title :: below =>
      debug "Utils" ("Group ended: " +:+ title) None
        (print ConsoleGroupEnd (set_groupStack (List.rev below) w))
  end.

Definition clearLogs (w : LoggerWorld) : LoggerWorld :=
  if available (sessionStorage w)
  then info "Utils" "Logs cleared" None (print ConsoleClear (set_logs None w))
  else warn "Utils" "Failed to clear logs" None w.

Definition exportLogs (w : LoggerWorld) : list LogEntry * LoggerWorld :=
  if available (sessionStorage w) then (storedLogs w, w)
  else ([], warn "Utils" "Failed to export logs" None w).

(** [fn] may do anything to the logger's world, and returns or throws. *)
Definition measure {A : Type} (name : string)
    (fn : LoggerWorld -> completion A * LoggerWorld) (w : LoggerWorld)
  : completion A * LoggerWorld :=
  match fn (time name w) with
  | (Normal result, w1) => (Normal result, timeEnd name w1)
  | (Throw e, w1) =>
      (Throw e,
       error "Utils" ("Performance measurement failed: " +:+ name) (Some e) None
         (timeEnd name w1))
  end.

Definition measureAsync {A : Type} (name : string)
    (fn : LoggerWorld -> completion A * LoggerWorld) (w : LoggerWorld)
  : completion A * LoggerWorld :=
  match fn (time name w) with
  | (Normal result, w1) => (Normal result, timeEnd name w1)
  | (Throw e, w1) =>
      (Throw e,
       error "Utils" ("Async performance measurement failed: " +:+ name) (Some e) None
         (timeEnd name w1))
  end.

End Logger.

(** ** Properties of the logger *)

Lemma log_logger (l : LogLevel) (c m : string) (d : option LogData) (e : option string)
    (w : LoggerWorld) :
  logger (Logger.log l c m d e w) = logger w.
Proof.
  unfold Logger.log, Logger.storeLogEntry.
  destruct (negb (isDevelopment (logger w)) && Logger.is_debug l); [reflexivity|].
  cbv zeta.
  destruct (isDevelopment (logger w)); destruct e as [err|]; simpl;
    try reflexivity;
    destruct (available (sessionStorage w)); simpl; try reflexivity;
    destruct (Logger.serialized _); try reflexivity;
    destruct (quotaExceeded (sessionStorage w)); reflexivity.
Qed.

Lemma JSMap_get_delete {V : Type} (k : string) (m : JSMap.t V) :
  JSMap.get k (Logger.delete k m) = None.
Proof.
  unfold Logger.delete. induction m as [|[k' v] m IH]; simpl; [reflexivity|].
  destruct (k' =? k) eqn:E; simpl; [exact IH|]. now rewrite E.
Qed.

Lemma timeEnd_removes (label : string) (w : LoggerWorld) :
  JSMap.get label (activeTimers (logger (Logger.timeEnd label w))) = None.
Proof.
  unfold Logger.timeEnd.
  destruct (JSMap.get label (activeTimers (logger w))) eqn:E.
  - unfold Logger.info. rewrite log_logger. simpl. apply JSMap_get_delete.
  - unfold Logger.warn. now rewrite log_logger.
Qed.

(** measure and measureAsync hand on what [fn] returns or throws, and when
    they are done no timer is left under their name, whatever [fn] did. *)
Theorem measure_ends_its_timer {A : Type} (name : string)
    (fn : LoggerWorld -> completion A * LoggerWorld) (w : LoggerWorld) :
  fst (Logger.measure name fn w) = fst (fn (Logger.time name w))
  /\ JSMap.get name (activeTimers (logger (snd (Logger.measure name fn w)))) = None
  /\ fst (Logger.measureAsync name fn w) = fst (fn (Logger.time name w))
  /\ JSMap.get name (activeTimers (logger (snd (Logger.measureAsync name fn w)))) = None.
Proof.
  unfold Logger.measure, Logger.measureAsync.
  destruct (fn (Logger.time name w)) as [[r|e] w1]; simpl;
    unfold Logger.error; rewrite ?log_logger;
    repeat split; apply timeEnd_removes.
Qed.

(** A second timeEnd for the same label finds no timer: it warns, and
    changes nothing else. *)
Theorem timeEnd_twice_warns (label : string) (w : LoggerWorld) :
  Logger.timeEnd label (Logger.timeEnd label w)
  = Logger.warn "Utils" ("⏱️ Timer not found: " +:+ label) None (Logger.timeEnd label w).
Proof.
  unfold Logger.timeEnd at 1. now rewrite timeEnd_removes.
Qed.

(** groupEnd closes the group opened last, and without an open group it does
    nothing: no console call, no log entry. *)
Theorem groupEnd_undoes_group (c title : string) (w : LoggerWorld) :
  groupStack (logger (Logger.groupEnd (Logger.group c title w))) = groupStack (logger w)
  /\ (groupStack (logger w) = [] -> Logger.groupEnd w = w).
Proof.
  split.
  - unfold Logger.groupEnd, Logger.group, Logger.debug. rewrite log_logger. simpl.
    rewrite rev_app_distr. simpl. rewrite log_logger. simpl. apply rev_involutive.
  - intros H. unfold Logger.groupEnd. now rewrite H.
Qed.

Lemma pushed_spec (entry : LogEntry) (l : list LogEntry) :
  length (Logger.pushed entry l) <= 100
  /\ exists dropped older,
       l = dropped ++ older /\ Logger.pushed entry l = older ++ [entry]
       /\ (length l < 100 -> dropped = []).
Proof.
  unfold Logger.pushed. cbv zeta. rewrite length_app. simpl.
  destruct (100 <? length l + 1)%nat eqn:E.
  - apply Nat.ltb_lt in E. split.
    + rewrite length_drop, length_app. simpl. lia.
    + exists (take (length l + 1 - 100) l), (drop (length l + 1 - 100) l).
      split; [now rewrite take_drop|]. split.
      * apply drop_app_le. lia.
      * intros Hl. lia.
  - apply Nat.ltb_ge in E. split; [rewrite length_app; simpl; lia|].
    exists [], l. repeat split.
Qed.

(** In development, with storage that takes the write, a log call stores its
    entry as the newest one and keeps at most the 100 newest entries: older
    ones are dropped from the front, and none is dropped while there is
    room. *)
Theorem log_keeps_newest_100
    (l : LogLevel) (c m : string) (d : list (string * string)) (w : LoggerWorld) :
  isDevelopment (logger w) = true ->
  available (sessionStorage w) = true ->
  quotaExceeded (sessionStorage w) = false ->
  let w' := Logger.log l c m (Some (Object d)) None w in
  length (Logger.storedLogs w') <= 100
  /\ exists dropped older entry,
       Logger.storedLogs w = dropped ++ older
       /\ Logger.storedLogs w' = older ++ [entry]
       /\ level entry = l /\ category entry = c /\ log_message entry = m
       /\ (length (Logger.storedLogs w) < 100 -> dropped = []).
Proof.
  intros Hdev Hav Hq. cbv zeta. unfold Logger.log. rewrite Hdev. simpl.
  unfold Logger.storeLogEntry. simpl. rewrite Hav, Hq. simpl.
  set (entry := {| timestamp := formatTimestamp w (performance_now w); level := l;
                   category := c; log_message := m; data := Some (Object d);
                   log_error := None |}).
  change (Logger.storedLogs
            (Logger.print (ConsoleLog (length (groupStack (logger w))) entry) w))
    with (Logger.storedLogs w).
  destruct (pushed_spec entry (Logger.storedLogs w))
    as (Hlen & dropped & older & H1 & H2 & H3).
  unfold Logger.storedLogs at 1 3. simpl. split; [exact Hlen|].
  exists dropped, older, entry. repeat split; assumption.
Qed.

(** A development build whose stored log is full. *)
Definition old_entry : LogEntry :=
  {| timestamp := "09:00:00.000"; level := LevelInfo; category := "App";
     log_message := "old"; data := None; log_error := None |}.

Definition dev_full : LoggerWorld :=
  {| logger := {| isDevelopment := true; activeTimers := JSMap.empty; groupStack := [] |};
     sessionStorage := {| available := true; quotaExceeded := false;
                          logs := Some (List.repeat old_entry 100) |};
     console := [];
     performance_now := 0%Q;
     formatTimestamp := fun _ => "10:00:00.000";
     toFixed := fun _ => "0.00" |}.

Lemma log_keeps_newest_100_witness :
  length (Logger.storedLogs (Logger.log LevelWarn "Scanner" "camera lost"
                               (Some (Object [])) None dev_full)) <= 100
  /\ exists dropped older entry,
       Logger.storedLogs dev_full = dropped ++ older
       /\ Logger.storedLogs (Logger.log LevelWarn "Scanner" "camera lost"
                               (Some (Object [])) None dev_full)
          = older ++ [entry]
       /\ level entry = LevelWarn /\ category entry = "Scanner"
       /\ log_message entry = "camera lost"
       /\ (length (Logger.storedLogs dev_full) < 100 -> dropped = []).
Proof.
  exact (log_keeps_newest_100 LevelWarn "Scanner" "camera lost" [] dev_full
           eq_refl eq_refl eq_refl).
Defined.

(** In a production build the logger never writes to session storage, and
    debug calls do nothing at all; timers and groups work as in
    development. *)
Theorem production_stores_nothing (w : LoggerWorld) :
  isDevelopment (logger w) = false ->
  (forall l c m d e,
     sessionStorage (Logger.log l c m d e w) = sessionStorage w)
  /\ (forall c m d, Logger.debug c m d w = w)
  /\ (forall label,
        sessionStorage (Logger.time label w) = sessionStorage w
        /\ sessionStorage (Logger.timeEnd label w) = sessionStorage w)
  /\ (forall c title,
        sessionStorage (Logger.group c title w) = sessionStorage w
        /\ console (Logger.group c title w)
           = console w ++ [ConsoleGroup (length (groupStack (logger w))) title])
  /\ sessionStorage (Logger.groupEnd w) = sessionStorage w.
Proof.
  intros Hprod.
  assert (Hlog : forall w0, isDevelopment (logger w0) = false ->
            forall l c m d e,
              sessionStorage (Logger.log l c m d e w0) = sessionStorage w0).
  { intros w0 H0 l c m d e. unfold Logger.log. rewrite H0. simpl.
    destruct (Logger.is_debug l); [reflexivity|]. now destruct e. }
  assert (Hdebug : forall w0, isDevelopment (logger w0) = false ->
            forall c m d, Logger.debug c m d w0 = w0).
  { intros w0 H0 c m d. unfold Logger.debug, Logger.log. now rewrite H0. }
  split; [now apply Hlog|]. split; [now apply Hdebug|].
  split; [intros label; split|split; [intros c title; split|]].
  - unfold Logger.time. now rewrite Hdebug.
  - unfold Logger.timeEnd, Logger.info, Logger.warn.
    destruct (JSMap.get label (activeTimers (logger w))); now rewrite Hlog.
  - unfold Logger.group. now rewrite Hdebug.
  - unfold Logger.group. now rewrite Hdebug.
  - unfold Logger.groupEnd. destruct (List.rev (groupStack (logger w))); [reflexivity|].
    now rewrite Hdebug.
Qed.

Definition production : LoggerWorld :=
  {| logger := {| isDevelopment := false; activeTimers := JSMap.empty; groupStack := [] |};
     sessionStorage := {| available := true; quotaExceeded := false; logs := None |};
     console := [];
     performance_now := 0%Q;
     formatTimestamp := fun _ => "10:00:00.000";
     toFixed := fun _ => "0.00" |}.

Lemma production_stores_nothing_witness :
  sessionStorage (Logger.log LevelError "Scanner" "camera lost" None (Some "denied")
                    production)
  = sessionStorage production
  /\ Logger.debug "Scanner" "frame" None production = production.
Proof.
  pose proof (production_stores_nothing production eq_refl) as H.
  split; [apply (proj1 H)|apply (proj1 (proj2 H))].
Defined.

(** clearLogs logs that it cleared the logs.  In development, with storage
    that takes the write, the stored log is therefore not empty afterwards:
    it holds exactly the entry of the clearing, and that is what exportLogs
    returns. *)
Theorem clearLogs_leaves_its_own_entry (w : LoggerWorld) :
  isDevelopment (logger w) = true ->
  available (sessionStorage w) = true ->
  quotaExceeded (sessionStorage w) = false ->
  exists entry,
    logs (sessionStorage (Logger.clearLogs w)) = Some [entry]
    /\ level entry = LevelInfo
    /\ log_message entry = "Logs cleared"
    /\ fst (Logger.exportLogs (Logger.clearLogs w)) = [entry]
    /\ console (Logger.clearLogs w)
       = console w ++ [ConsoleClear; ConsoleLog (length (groupStack (logger w))) entry].
Proof.
  intros Hdev Hav Hq. unfold Logger.clearLogs. rewrite Hav.
  unfold Logger.info, Logger.log. simpl. rewrite Hdev. simpl.
  unfold Logger.storeLogEntry. simpl. rewrite Hav, Hq. simpl.
  eexists. split; [reflexivity|]. split; [reflexivity|]. split; [reflexivity|].
  split.
  - unfold Logger.exportLogs. simpl. now rewrite Hav.
  - now rewrite <- app_assoc.
Qed.

Lemma clearLogs_leaves_its_own_entry_witness :
  exists entry,
    logs (sessionStorage (Logger.clearLogs dev_full)) = Some [entry]
    /\ level entry = LevelInfo
    /\ log_message entry = "Logs cleared"
    /\ fst (Logger.exportLogs (Logger.clearLogs dev_full)) = [entry]
    /\ console (Logger.clearLogs dev_full)
       = console dev_full
         ++ [ConsoleClear; ConsoleLog (length (groupStack (logger dev_full))) entry].
Proof. exact (clearLogs_leaves_its_own_entry dev_full eq_refl eq_refl eq_refl). Defined.
